(** * CPU control plane: allocation core

    A shallow embedding of the allocation core of the CPU control plane
    plugin (packages [numautils], [cpudaemon], [agent], [ctlplaneapi]) and
    the properties of its specification.

    Conventions of the embedding.
    - Go's [int] is a 64-bit integer: a value of [Z] between [MinInt64] and
      [MaxInt64], with the wrap-around of the arithmetic written out
      ([add64], [sub64], [mul64]).  The [int32] sums of the request
      conversion wrap around likewise ([add32]).
    - A pointer to a node of the topology tree is modelled by the position
      of the node: the list of child indices leading to it from the root.
    - Go maps are [gmap]s; a [range] over a map visits the keys in an order
      the language leaves unspecified, so a loop over a map takes the order
      of the visit as an argument.
    - Calls on the [Policy] and [CgroupController] interfaces are effects:
      they are recorded in a trace, and their outcome is a function of the
      interface value.
    - A run-time panic (a division by zero, a slice or a [make] out of
      range) ends the calls under way: it is an outcome of its own
      ([PanicMakeslice], [panic]), returned with the state as the panic
      leaves it. *)

From Stdlib Require Import ZArith List Lia Bool.
From stdpp Require Import gmap strings list sorting pretty.

Local Open Scope Z_scope.

(** ** Go's integers *)

Module GoInt.

Definition MinInt64 : Z := - 2 ^ 63.
Definition MaxInt64 : Z := 2 ^ 63 - 1.

(** The value of type [int] that an integer wraps around to. *)
Definition wrap64 (z : Z) : Z := (z + 2 ^ 63) mod 2 ^ 64 - 2 ^ 63.

Definition add64 (a b : Z) : Z := wrap64 (a + b).
Definition sub64 (a b : Z) : Z := wrap64 (a - b).
Definition mul64 (a b : Z) : Z := wrap64 (a * b).

(** The values of type [int32]. *)
Definition isInt32 (z : Z) : Prop := - 2 ^ 31 <= z < 2 ^ 31.

End GoInt.

(** ** Package numautils: the topology tree *)

Module Numautils.

Import GoInt.

(** TopologyEntryType enum. *)
Inductive TopologyEntryType : Type :=
  | Machine | Node | Package | Die | Core | Cpu.

#[global] Instance TopologyEntryType_eq_dec : EqDecision TopologyEntryType.
Proof. solve_decision. Defined.

Definition topoTypeByImportance : list TopologyEntryType :=
  [Node; Package; Die; Core; Cpu].

Record nodeInfo : Type := mkNodeInfo {
  Type_ : TopologyEntryType;
  Value : Z
}.

#[global] Instance nodeInfo_eq_dec : EqDecision nodeInfo.
Proof. solve_decision. Defined.

(** CpuInfo stores topology information about single CPU. *)
Record CpuInfo : Type := mkCpuInfo {
  ciNode : Z;
  ciPackage : Z;
  ciDie : Z;
  ciCore : Z;
  ciCpu : Z
}.

(** TopologyNode: [nodeInfo], [NumAvailable] and the children. *)
#[warnings="-register-all"]
Inductive TopologyNode : Type :=
  | TNode (inf : nodeInfo) (avail : Z) (children : list TopologyNode).

Definition info (t : TopologyNode) : nodeInfo :=
  match t with TNode i _ _ => i end.
Definition NumAvailable (t : TopologyNode) : Z :=
  match t with TNode _ a _ => a end.
Definition Children (t : TopologyNode) : list TopologyNode :=
  match t with TNode _ _ cs => cs end.
Definition nodeValue (t : TopologyNode) : Z := Value (info t).

(** Errors of the package, and the run-time panic of [make] with a negative
    capacity, which ends the calls under way. *)
Inductive TopoError : Type :=
  | ErrNotAvailable   (* "not enough cpus available" *)
  | ErrNotFound       (* "cpu not found" *)
  | ErrNotALeaf       (* "node is not a leaf" *)
  | PanicMakeslice.   (* "panic: runtime error: makeslice: cap out of range" *)

Definition TopoError_message (e : TopoError) : string :=
  match e with
  | ErrNotAvailable => "not enough cpus available"
  | ErrNotFound => "cpu not found"
  | ErrNotALeaf => "node is not a leaf"
  | PanicMakeslice => "panic: runtime error: makeslice: cap out of range"
  end.

(** IsLeaf returns true if node is a leaf node i.e. it has no children. *)
Definition IsLeaf (t : TopologyNode) : bool :=
  match Children t with [] => true | _ => false end.

(** Available returns true if node has available leafs. *)
Definition Available (t : TopologyNode) : bool := 0 <? NumAvailable t.

(** Take (of a node) marks leaf as non-available. *)
Definition nodeTake (t : TopologyNode) : TopologyNode * option TopoError :=
  if IsLeaf t
  then (TNode (info t) (sub64 (NumAvailable t) 1) (Children t), None)
  else (t, Some ErrNotALeaf).

(** Return (of a node) marks leaf as available. *)
Definition nodeReturn (t : TopologyNode) : TopologyNode * option TopoError :=
  if IsLeaf t
  then (TNode (info t) (add64 (NumAvailable t) 1) (Children t), None)
  else (t, Some ErrNotALeaf).

(** [valueFromCpuInfo]; the default case logs a fatal error, and is not
    reached from [topoTypeByImportance]. *)
Definition valueFromCpuInfo (t : TopologyEntryType) (c : CpuInfo) : Z :=
  match t with
  | Node => ciNode c
  | Package => ciPackage c
  | Die => ciDie c
  | Core => ciCore c
  | Cpu => ciCpu c
  | Machine => -1
  end.

(** [append] walks (and extends) the tree along [nodeInfoPath]. *)
Fixpoint append (nodeInfoPath : list nodeInfo) (t : TopologyNode)
  {struct nodeInfoPath} : TopologyNode :=
  match nodeInfoPath with
  | [] => TNode (info t) 1 (Children t)
  | ni :: rest =>
      match list_find (fun child => nodeValue child = Value ni) (Children t) with
      | Some (i, nextChild) =>
          TNode (info t) (add64 (NumAvailable t) 1)
                (<[i := append rest nextChild]> (Children t))
      | None =>
          TNode (info t) (add64 (NumAvailable t) 1)
                (Children t ++ [append rest (TNode ni 0 [])])
      end
  end.

Definition cpuInfoToNodeInfoList (c : CpuInfo) (topoTypes : list TopologyEntryType)
  : list nodeInfo :=
  map (fun topoType => mkNodeInfo topoType (valueFromCpuInfo topoType c)) topoTypes.

(** If all cpus have the same value for given topology level let's ignore it. *)
Definition getUsedTopoTypes (cpus : list CpuInfo) : list TopologyEntryType :=
  match cpus with
  | [] => []
  | c0 :: others =>
      let areValuesTheSame topoType :=
        forallb (fun cpu => valueFromCpuInfo topoType cpu =? valueFromCpuInfo topoType c0)
                others in
      filter (fun topoType => areValuesTheSame topoType = false) topoTypeByImportance
  end.

(** Create node topology tree. *)
Definition cpuInfoToTopology (cpuInfos : list CpuInfo) : TopologyNode :=
  let topoTypes := getUsedTopoTypes cpuInfos in
  fold_left (fun t cpu => append (cpuInfoToNodeInfoList cpu topoTypes) t)
            cpuInfos (TNode (mkNodeInfo Machine 0) 0 []).

(** NumaTopology holds topology information of the machine. *)
Record NumaTopology : Type := mkNumaTopology {
  Topology : TopologyNode;
  CpuInformation : gmap Z CpuInfo
}.

(** LoadFromCpuInfo loads topology tree information given list of cpus. *)
Definition LoadFromCpuInfo (cpus : list CpuInfo) : NumaTopology :=
  {| Topology := cpuInfoToTopology cpus;
     CpuInformation :=
       fold_left (fun m cpuInfo => <[ciCpu cpuInfo := cpuInfo]> m) cpus ∅ |}.

(** Number of nodes of a tree, the fuel of the queue of [GetLeafs]. *)
Fixpoint tree_size (t : TopologyNode) : nat :=
  match t with
  | TNode _ _ cs => S (fold_right (fun c acc => (tree_size c + acc)%nat) 0%nat cs)
  end.

(** A pointer to a node: its position and the node there. *)
Definition NodePtr : Type := list nat * TopologyNode.

Definition childPtrs (p : list nat) (node : TopologyNode) : list NodePtr :=
  imap (fun i child => (p ++ [i], child)) (Children node).

(** The loop of [GetLeafs] over its queue; [None] when the fuel runs out. *)
Fixpoint GetLeafs_loop (fuel : nat) (queue leafs : list NodePtr)
  : option (list NodePtr) :=
  match queue with
  | [] => Some leafs
  | node :: queue' =>
      match fuel with
      | O => None
      | S fuel' =>
          if IsLeaf (snd node)
          then GetLeafs_loop fuel' queue' (leafs ++ [node])
          else GetLeafs_loop fuel' (queue' ++ childPtrs (fst node) (snd node)) leafs
      end
  end.

(** GetLeafs returns list of tree leafs, ordered by child precedence. *)
Definition GetLeafs (t : TopologyNode) : list NodePtr :=
  default [] (GetLeafs_loop (tree_size t) [([], t)] []).

(** [findLowestNodeWithEnoughAvailability]: the node found is returned with
    its position in the tree rooted at [t]. *)
Fixpoint findLowestNodeWithEnoughAvailability (t : TopologyNode) (n currentLevel : Z)
  {struct t} : option (list nat * TopologyNode * Z) :=
  match t with
  | TNode _ avail cs =>
      if avail <? n then None
      else
        let fix loop (cs : list TopologyNode) (i : nat)
                     (bestLevel : option (list nat * TopologyNode)) (bestLevelNum : Z)
          : option (list nat * TopologyNode) * Z :=
          match cs with
          | [] => (bestLevel, bestLevelNum)
          | child :: rest =>
              match findLowestNodeWithEnoughAvailability child n (add64 currentLevel 1) with
              | Some (p, level, levelNum) =>
                  if bestLevelNum <? levelNum
                  then loop rest (S i) (Some (i :: p, level)) levelNum
                  else loop rest (S i) bestLevel bestLevelNum
              | None => loop rest (S i) bestLevel bestLevelNum
              end
          end in
        match loop cs 0%nat None 0 with
        | (None, _) => Some ([], t, currentLevel)
        | (Some (p, level), bestLevelNum) => Some (p, level, bestLevelNum)
        end
  end.

(** [takeLeaves]: the node after the call, the leaves taken, the error. *)
Fixpoint takeLeaves (t : TopologyNode) (n : Z) {struct t}
  : TopologyNode * list TopologyNode * option TopoError :=
  match t with
  | TNode inf avail cs =>
      if avail <? n then (t, [], Some ErrNotAvailable)
      else
        match cs with
        | [] => (TNode inf 0 [], [TNode inf 0 []], None)
        | _ :: _ =>
            if n <? 0 then (t, [], Some PanicMakeslice) (* make(.., 0, n) *) else
            let fix loop (cs : list TopologyNode) (leaves : list TopologyNode)
              : list TopologyNode * list TopologyNode * option TopoError :=
              match cs with
              | [] => ([], leaves, None)
              | child :: rest =>
                  if NumAvailable child =? 0
                  then let '(rest', leaves', err) := loop rest leaves in
                       (child :: rest', leaves', err)
                  else
                    let leavesToTake := sub64 n (Z.of_nat (length leaves)) in
                    let leavesToTake :=
                      if NumAvailable child <? leavesToTake
                      then NumAvailable child else leavesToTake in
                    let '(child', takenLeaves, err) := takeLeaves child leavesToTake in
                    match err with
                    | Some e => (child' :: rest, leaves, Some e)
                    | None =>
                        let leaves1 := leaves ++ takenLeaves in
                        if Z.of_nat (length leaves1) =? n
                        then (child' :: rest, leaves1, None)
                        else let '(rest', leaves', err') := loop rest leaves1 in
                             (child' :: rest', leaves', err')
                    end
              end in
            match loop cs [] with
            | (cs', _, Some e) => (TNode inf avail cs', [TNode inf avail cs'], Some e)
            | (cs', leaves, None) => (TNode inf (sub64 avail n) cs', leaves, None)
            end
        end
  end.

(** The subtree at a position is replaced. *)
Fixpoint replaceAt (p : list nat) (new : TopologyNode) (t : TopologyNode)
  : TopologyNode :=
  match p with
  | [] => new
  | i :: p' =>
      match Children t !! i with
      | Some c => TNode (info t) (NumAvailable t) (<[i := replaceAt p' new c]> (Children t))
      | None => t
      end
  end.

(** [node.NumAvailable -= n] on the strict predecessors of position [p]. *)
Fixpoint subPredecessors (p : list nat) (n : Z) (t : TopologyNode) : TopologyNode :=
  match p with
  | [] => t
  | i :: p' =>
      match Children t !! i with
      | Some c =>
          TNode (info t) (sub64 (NumAvailable t) n)
                (<[i := subPredecessors p' n c]> (Children t))
      | None => TNode (info t) (sub64 (NumAvailable t) n) (Children t)
      end
  end.

(** Take finds n non-used cpu in topology tree. *)
Definition Take (t : NumaTopology) (n : Z) : NumaTopology * list Z * option TopoError :=
  match findLowestNodeWithEnoughAvailability (Topology t) n 0 with
  | None => (t, [], Some ErrNotAvailable)
  | Some (p, l, _) =>
      let '(l', leaves, err) := takeLeaves l n in
      let root1 := replaceAt p l' (Topology t) in
      match err with
      | Some PanicMakeslice =>
          ({| Topology := root1; CpuInformation := CpuInformation t |}, [],
           Some PanicMakeslice)
      | _ =>
          (* takeLeaves updated NumAvailable from l down to leaves;
             the predecessors of l are updated now *)
          let root2 := subPredecessors p n root1 in
          let t' := {| Topology := root2; CpuInformation := CpuInformation t |} in
          match err with
          | Some _ => (t', [], Some ErrNotAvailable)
          | None =>
              if n <? 0 then (t', [], Some PanicMakeslice) (* make([]int, 0, n) *)
              else (t', map nodeValue leaves, None)
          end
      end
  end.

(** [find]: the position of the first node, in depth-first order, that the
    comparator accepts, with the node. *)
Fixpoint find (comparator : TopologyNode -> bool) (t : TopologyNode) {struct t}
  : option (list nat * TopologyNode) :=
  if comparator t then Some ([], t)
  else
    match t with
    | TNode _ _ cs =>
        let fix loop (cs : list TopologyNode) (i : nat) : option (list nat * TopologyNode) :=
          match cs with
          | [] => None
          | child :: rest =>
              match find comparator child with
              | Some (p, node) => Some (i :: p, node)
              | None => loop rest (S i)
              end
          end in
        loop cs 0%nat
    end.

Definition isCpu (cpuID : Z) (tl : TopologyNode) : bool :=
  IsLeaf tl && (nodeValue tl =? cpuID).

(** FindCpu returns TopologyNode of given cpu. *)
Definition FindCpu (t : NumaTopology) (cpuID : Z) : option TopologyNode :=
  snd <$> find (isCpu cpuID) (Topology t).

(** [node.NumAvailable++] on every node of the path to position [p]. *)
Fixpoint incrPath (p : list nat) (t : TopologyNode) : TopologyNode :=
  match p with
  | [] => TNode (info t) (add64 (NumAvailable t) 1) (Children t)
  | i :: p' =>
      match Children t !! i with
      | Some c =>
          TNode (info t) (add64 (NumAvailable t) 1) (<[i := incrPath p' c]> (Children t))
      | None => TNode (info t) (add64 (NumAvailable t) 1) (Children t)
      end
  end.

(** Return returns given cpu to pool of available cpus. *)
Definition Return (t : NumaTopology) (cpuID : Z) : NumaTopology * option TopoError :=
  match find (isCpu cpuID) (Topology t) with
  | None => (t, Some ErrNotFound)
  | Some (p, leaf) =>
      if NumAvailable leaf =? 0
      then ({| Topology := incrPath p (Topology t);
               CpuInformation := CpuInformation t |}, None)
      else (t, None)
  end.

(** The node at a position. *)
Fixpoint nodeAt (p : list nat) (t : TopologyNode) : option TopologyNode :=
  match p with
  | [] => Some t
  | i :: p' => match Children t !! i with
               | Some c => nodeAt p' c
               | None => None
               end
  end.

(** The check of the test suite ([verifyNumAvailable]): a leaf holds 0 or 1,
    a non-leaf node the sum of its children. *)
Fixpoint verifyNumAvailable (node : TopologyNode) : bool :=
  match node with
  | TNode _ avail cs =>
      match cs with
      | [] => (avail =? 0) || (avail =? 1)
      | _ :: _ =>
          forallb verifyNumAvailable cs
          && (fold_left (fun numAvailable child => add64 numAvailable (NumAvailable child)) cs 0
              =? avail)
      end
  end.

(** The invariant of the specification alone: every non-leaf node holds the
    sum of its children. *)
Fixpoint sumsHold (node : TopologyNode) : bool :=
  match node with
  | TNode _ avail cs =>
      match cs with
      | [] => true
      | _ :: _ =>
          forallb sumsHold cs
          && (fold_left (fun acc child => acc + NumAvailable child) cs 0 =? avail)
      end
  end.

(** Sequences of [Take] and [Return]. *)
Inductive TopologyOp : Type :=
  | OpTake (n : Z)
  | OpReturn (cpuID : Z).

Definition applyOp (t : NumaTopology) (op : TopologyOp) : NumaTopology :=
  match op with
  | OpTake n => fst (fst (Take t n))
  | OpReturn cpuID => fst (Return t cpuID)
  end.

Definition applyOps (ops : list TopologyOp) (t : NumaTopology) : NumaTopology :=
  fold_left applyOp ops t.

(** The loop of [find] over the children, for the equation of [find]. *)
Definition find_children (rec : TopologyNode -> option NodePtr)
  : list TopologyNode -> nat -> option NodePtr :=
  fix loop (cs : list TopologyNode) (i : nat) : option NodePtr :=
    match cs with
    | [] => None
    | child :: rest =>
        match rec child with
        | Some (p, node) => Some (i :: p, node)
        | None => loop rest (S i)
        end
    end.

(** A machine with [n] cpus that differ in their cpu id only. *)
Definition oneLevelTopology (n : nat) : NumaTopology :=
  LoadFromCpuInfo (map (fun i => mkCpuInfo 0 0 0 0 (Z.of_nat i)) (seq 0 n)).

(** The machine of the test suite: two nodes of two cores of two cpus. *)
Definition testCpus : list CpuInfo :=
  [mkCpuInfo 0 0 0 0 1; mkCpuInfo 0 0 0 0 3; mkCpuInfo 0 0 0 1 5; mkCpuInfo 0 0 0 1 7;
   mkCpuInfo 1 0 0 0 2; mkCpuInfo 1 0 0 0 4; mkCpuInfo 1 0 0 1 6; mkCpuInfo 1 0 0 1 8].

Definition testTopology : NumaTopology := LoadFromCpuInfo testCpus.

(** The nodes that the pointers of a queue give access to. *)
Definition queue_size (queue : list NodePtr) : nat :=
  fold_right (fun node acc => (tree_size (snd node) + acc)%nat) 0%nat queue.

(** The loop of [takeLeaves] over the children, for the equation of
    [takeLeaves]. *)
Definition takeLeaves_children
           (rec : TopologyNode -> Z -> TopologyNode * list TopologyNode * option TopoError)
           (n : Z)
  : list TopologyNode -> list TopologyNode
    -> list TopologyNode * list TopologyNode * option TopoError :=
  fix loop (cs : list TopologyNode) (leaves : list TopologyNode) :=
    match cs with
    | [] => ([], leaves, None)
    | child :: rest =>
        if NumAvailable child =? 0
        then let '(rest', leaves', err) := loop rest leaves in
             (child :: rest', leaves', err)
        else
          let leavesToTake := sub64 n (Z.of_nat (length leaves)) in
          let leavesToTake :=
            if NumAvailable child <? leavesToTake
            then NumAvailable child else leavesToTake in
          let '(child', takenLeaves, err) := rec child leavesToTake in
          match err with
          | Some e => (child' :: rest, leaves, Some e)
          | None =>
              let leaves1 := leaves ++ takenLeaves in
              if Z.of_nat (length leaves1) =? n
              then (child' :: rest, leaves1, None)
              else let '(rest', leaves', err') := loop rest leaves1 in
                   (child' :: rest', leaves', err')
          end
    end.

(** The loop of [findLowestNodeWithEnoughAvailability] over the children. *)
Definition findLowest_children
           (rec : TopologyNode -> option (list nat * TopologyNode * Z))
  : list TopologyNode -> nat -> option (list nat * TopologyNode) -> Z
    -> option (list nat * TopologyNode) * Z :=
  fix loop (cs : list TopologyNode) (i : nat)
           (bestLevel : option (list nat * TopologyNode)) (bestLevelNum : Z) :=
    match cs with
    | [] => (bestLevel, bestLevelNum)
    | child :: rest =>
        match rec child with
        | Some (p, level, levelNum) =>
            if bestLevelNum <? levelNum
            then loop rest (S i) (Some (i :: p, level)) levelNum
            else loop rest (S i) bestLevel bestLevelNum
        | None => loop rest (S i) bestLevel bestLevelNum
        end
    end.

(** The sum of the counters of a list of nodes, and the number of leaves
    of a tree. *)
Definition sumAvailable (cs : list TopologyNode) : Z :=
  fold_right (fun c acc => NumAvailable c + acc) 0 cs.

Fixpoint leafCount (t : TopologyNode) : Z :=
  match t with
  | TNode _ _ [] => 1
  | TNode _ _ cs => fold_right (fun c acc => leafCount c + acc) 0 cs
  end.

Definition sumLeaves (cs : list TopologyNode) : Z :=
  fold_right (fun c acc => leafCount c + acc) 0 cs.

(** The invariant of the counters: a leaf holds 0 or 1, a non-leaf node
    holds the sum of its children. *)
#[warnings="-register-all"]
Inductive CountersOK : TopologyNode -> Prop :=
  | CountersOK_leaf inf avail :
      avail = 0 \/ avail = 1 -> CountersOK (TNode inf avail [])
  | CountersOK_node inf avail c cs :
      Forall CountersOK (c :: cs) ->
      avail = sumAvailable (c :: cs) ->
      CountersOK (TNode inf avail (c :: cs)).

(** The invariant, decided. *)
Fixpoint countersOKb (t : TopologyNode) : bool :=
  match t with
  | TNode _ avail [] => (avail =? 0) || (avail =? 1)
  | TNode _ avail cs => forallb countersOKb cs && (avail =? sumAvailable cs)
  end.

(** A tree that [append] has built from paths of [depth] entries: the
    leaves, at [depth], hold 1; a node above them holds the sum of its
    children, each of which holds one cpu at least. *)
Fixpoint Built (depth : nat) (t : TopologyNode) : Prop :=
  match depth with
  | O => NumAvailable t = 1 /\ Children t = []
  | S depth' =>
      NumAvailable t = sumAvailable (Children t)
      /\ Forall (fun c => Built depth' c /\ 1 <= NumAvailable c) (Children t)
  end.

(** The values of the nodes at [depth]. *)
Fixpoint valuesAt (depth : nat) (t : TopologyNode) : list Z :=
  match depth with
  | O => [nodeValue t]
  | S depth' => concat (map (valuesAt depth') (Children t))
  end.

(** The leaves below the pointers of a queue. *)
Definition queue_leaves (queue : list NodePtr) : Z :=
  fold_right (fun node acc => leafCount (snd node) + acc) 0 queue.

(** [node] is a leaf of the tree [n], at the position [p] of a tree in which
    [n] is at the position [q]. *)
Definition leafBelow (q : list nat) (n : TopologyNode) (p : list nat)
           (node : TopologyNode) : Prop :=
  exists p', p = q ++ p' /\ nodeAt p' n = Some node /\ IsLeaf node = true.

(** The leaves of a tree from left to right: the value and the counter of
    each. *)
Fixpoint leafStates (t : TopologyNode) : list (Z * Z) :=
  match t with
  | TNode inf avail [] => [(Value inf, avail)]
  | TNode _ _ cs => concat (map leafStates cs)
  end.

(** The leaves of a list that are available. *)
Definition availableCount (states : list (Z * Z)) : nat :=
  length (List.filter (fun state => negb (snd state =? 0)) states).

(** The first [n] available leaves of a list are taken: the list after it,
    and the values of the leaves taken. *)
Fixpoint takeStates (n : nat) (states : list (Z * Z)) {struct states}
  : list (Z * Z) * list Z :=
  match states with
  | [] => ([], [])
  | (v, a) :: rest =>
      match n with
      | O => (states, [])
      | S n' =>
          if a =? 0
          then let '(rest', taken) := takeStates n rest in ((v, a) :: rest', taken)
          else let '(rest', taken) := takeStates n' rest in ((v, 0) :: rest', v :: taken)
      end
  end.

(** The leaves with the values [cpus] are taken, or returned. *)
Definition markTaken (cpus : list Z) (states : list (Z * Z)) : list (Z * Z) :=
  map (fun state => if bool_decide (fst state ∈ cpus) then (fst state, 0) else state) states.
Definition markReturned (cpu : Z) (states : list (Z * Z)) : list (Z * Z) :=
  map (fun state => if bool_decide (fst state = cpu) then (fst state, 1) else state) states.

(** The leaf of a value, with a counter [f] of the old one. *)
Definition setCounter (cpu : Z) (f : Z -> Z) (states : list (Z * Z)) : list (Z * Z) :=
  map (fun state => if bool_decide (fst state = cpu) then (fst state, f (snd state))
                    else state) states.

(** The tree without its counters. *)
Fixpoint shape (t : TopologyNode) : TopologyNode :=
  match t with
  | TNode inf _ cs => TNode inf 0 (map shape cs)
  end.

(** The takes of a sequence of operations ask for one cpu at least. *)
Definition positiveTakes (ops : list TopologyOp) : Prop :=
  Forall (fun op => match op with OpTake n => 1 <= n | OpReturn _ => True end) ops.

End Numautils.

(** ** Package ctlplaneapi: requests and their validation *)

Module Ctlplaneapi.

(** CPUBucket: all cpus in the range [StartCPU .. EndCPU]. *)
Record CPUBucket : Type := mkCPUBucket {
  StartCPU : Z;
  EndCPU : Z
}.

#[global] Instance CPUBucket_eq_dec : EqDecision CPUBucket.
Proof. solve_decision. Defined.

Inductive Placement : Type := DEFAULT | COMPACT | SCATTER | POOL.

(** ResourceInfo; the four quantities are [int32] fields. *)
Record ResourceInfo : Type := mkResourceInfo {
  RequestedCpus : Z;
  LimitCpus : Z;
  RequestedMemory : Z;
  LimitMemory : Z;
  CpuAffinity : Placement
}.

Record ContainerInfo : Type := mkContainerInfo {
  ContainerId : string;
  ContainerName : string;
  ciResources : ResourceInfo
}.

Record CreatePodRequest : Type := mkCreatePodRequest {
  PodId : string;
  PodName : string;
  PodNamespace : string;
  Resources : ResourceInfo;
  Containers : list ContainerInfo
}.

(** AllocatedContainerResource represents single container allocation. *)
Record AllocatedContainerResource : Type := mkAllocatedContainerResource {
  ContainerID : string;
  acrCPUSet : list CPUBucket
}.

(** AllocatedPodResources repesents pod allocation. *)
Record AllocatedPodResources : Type := mkAllocatedPodResources {
  aprCPUSet : list CPUBucket;
  ContainerResources : list AllocatedContainerResource
}.

Inductive ValidationError : Type :=
  | ErrEmptyString (what : string)
  | ErrLessThanZero (what : string)
  | ErrLimitSmallerThanRequest (what : string)
  | ErrNoContainers.

Definition ValidationError_message (e : ValidationError) : string :=
  match e with
  | ErrEmptyString what => "string is empty: " +:+ what
  | ErrLessThanZero what => "value cannot be less than 0: " +:+ what
  | ErrLimitSmallerThanRequest what => what +:+ ": limit cannot be smaller than request"
  | ErrNoContainers => "pod spec does not include any containers"
  end.

Fixpoint returnErrorIfEmptyString (entries : list (string * string))
  : option ValidationError :=
  match entries with
  | [] => None
  | (s, err) :: rest =>
      if decide (s = "") then Some (ErrEmptyString err)
      else returnErrorIfEmptyString rest
  end.

Fixpoint returnErrorIfLessThanZero (entries : list (Z * string))
  : option ValidationError :=
  match entries with
  | [] => None
  | (i, err) :: rest =>
      if i <? 0 then Some (ErrLessThanZero err)
      else returnErrorIfLessThanZero rest
  end.

(** ValidateResourceInfo: request and limit cannot be less than zero,
    requested cpu/memory cannot be larger than their limit. *)
Definition ValidateResourceInfo (info : ResourceInfo) : option ValidationError :=
  match returnErrorIfLessThanZero
          [(RequestedCpus info, "request CPU"); (LimitCpus info, "limit CPU");
           (RequestedMemory info, "request memory"); (LimitMemory info, "limit memory")] with
  | Some err => Some err
  | None =>
      if LimitCpus info <? RequestedCpus info
      then Some (ErrLimitSmallerThanRequest "CPU")
      else if LimitMemory info <? RequestedMemory info
      then Some (ErrLimitSmallerThanRequest "memory")
      else None
  end.

(** ValidateContainers: container id and name cannot be empty, the
    resources are valid. *)
Fixpoint ValidateContainers (containers : list ContainerInfo) : option ValidationError :=
  match containers with
  | [] => None
  | container :: rest =>
      match returnErrorIfEmptyString
              [(ContainerId container, "container id cannot be nil");
               (ContainerName container, "container name cannot be nil")] with
      | Some err => Some err
      | None =>
          match ValidateResourceInfo (ciResources container) with
          | Some err => Some err
          | None => ValidateContainers rest
          end
      end
  end.

Definition ValidateCreatePodRequest (req : CreatePodRequest) : option ValidationError :=
  match Containers req with
  | [] => Some ErrNoContainers
  | _ :: _ =>
      match returnErrorIfEmptyString
              [(PodId req, "pod id cannot be nil"); (PodName req, "pod name cannot be nil");
               (PodNamespace req, "pod namespace cannot be nil")] with
      | Some err => Some err
      | None =>
          match ValidateResourceInfo (Resources req) with
          | Some err => Some err
          | None => ValidateContainers (Containers req)
          end
      end
  end.

Record DeletePodRequest : Type := mkDeletePodRequest {
  dprPodId : string
}.

Record UpdatePodRequest : Type := mkUpdatePodRequest {
  uprPodId : string;
  uprResources : ResourceInfo;
  uprContainers : list ContainerInfo
}.

(** The errors of the validation of the delete and update requests: the
    empty pod id, "pod id error: string is empty", or an error of the
    validation shared with the create request. *)
Inductive RequestError : Type :=
  | ErrPodIdEmpty
  | ErrInvalid (e : ValidationError).

Definition RequestError_message (e : RequestError) : string :=
  match e with
  | ErrPodIdEmpty => "pod id error: string is empty"
  | ErrInvalid e => ValidationError_message e
  end.

(** ValidateDeletePodRequest: PodId cannot be empty string. *)
Definition ValidateDeletePodRequest (req : DeletePodRequest) : option RequestError :=
  if decide (dprPodId req = "") then Some ErrPodIdEmpty else None.

(** ValidateUpdatePodRequest: number of containers must be greater than 0,
    pod id cannot be empty, the pod resources and all containers are
    valid. *)
Definition ValidateUpdatePodRequest (req : UpdatePodRequest) : option RequestError :=
  match uprContainers req with
  | [] => Some (ErrInvalid ErrNoContainers)
  | _ :: _ =>
      if decide (uprPodId req = "") then Some ErrPodIdEmpty
      else
        match ValidateResourceInfo (uprResources req) with
        | Some err => Some (ErrInvalid err)
        | None =>
            match ValidateContainers (uprContainers req) with
            | Some err => Some (ErrInvalid err)
            | None => None
            end
        end
  end.


End Ctlplaneapi.

(** ** Package cpudaemon *)

Module Cpudaemon.

Import GoInt Numautils Ctlplaneapi.

(** Possible daemon errors. *)
Inductive DError : Type :=
  | CpusNotAvailable | PodNotFound | PodSpecError | ContainerNotFound
  | MissingCgroup | UnknownTopology | RuntimeError | NotImplemented
  | ConfigurationError.

(** QoS classes as defined in K8s. *)
Inductive QoS : Type := Guaranteed | BestEffort | Burstable.

#[global] Instance QoS_eq_dec : EqDecision QoS.
Proof. solve_decision. Defined.

(** Values of Go's [error] interface that the daemon handles: a
    [DaemonError], the errors collected per container, or an error of
    another package; and the run-time panic, which ends the calls under
    way. *)
#[warnings="-register-all"]
Inductive error : Type :=
  | DaemonError (ErrorType : DError) (ErrorMessage : string)
  | failedContainersErrors (failed : list (string * error))
  | otherError (msg : string)
  | panic (msg : string).

(** Container represents a container in the daemon. *)
Record Container : Type := mkContainer {
  CID : string;
  PID : string;
  Name : string;
  Cpus : Z;
  QS : QoS
}.

#[global] Instance Container_eq_dec : EqDecision Container.
Proof. solve_decision. Defined.

(** PodMetadata represent a pod resource in the daemon. *)
Record PodMetadata : Type := mkPodMetadata {
  pmPID : string;
  pmName : string;
  Namespace : string;
  pmContainers : list Container
}.

(** DaemonState struct holding the current daemon state. *)
Record DaemonState : Type := mkDaemonState {
  AvailableCPUs : list CPUBucket;
  Allocated : gmap string (list CPUBucket);
  Pods : gmap string PodMetadata;
  dsTopology : NumaTopology;
  CGroupPath : string;
  CGroupSubPath : string;
  StatePath : string
}.

Definition set_AvailableCPUs (v : list CPUBucket) (s : DaemonState) : DaemonState :=
  mkDaemonState v (Allocated s) (Pods s) (dsTopology s)
                (CGroupPath s) (CGroupSubPath s) (StatePath s).
Definition set_Allocated (v : gmap string (list CPUBucket)) (s : DaemonState)
  : DaemonState :=
  mkDaemonState (AvailableCPUs s) v (Pods s) (dsTopology s)
                (CGroupPath s) (CGroupSubPath s) (StatePath s).
Definition set_Pods (v : gmap string PodMetadata) (s : DaemonState) : DaemonState :=
  mkDaemonState (AvailableCPUs s) (Allocated s) v (dsTopology s)
                (CGroupPath s) (CGroupSubPath s) (StatePath s).
Definition set_Topology (v : NumaTopology) (s : DaemonState) : DaemonState :=
  mkDaemonState (AvailableCPUs s) (Allocated s) (Pods s) v
                (CGroupPath s) (CGroupSubPath s) (StatePath s).
Definition set_StatePath (v : string) (s : DaemonState) : DaemonState :=
  mkDaemonState (AvailableCPUs s) (Allocated s) (Pods s) (dsTopology s)
                (CGroupPath s) (CGroupSubPath s) v.

(** *** CPU set algebra (daemon_cpuset.go) *)

(** CPUSet represents set of cpuids. *)
Abbreviation CPUSet := (gset Z).

(** CPUSetFromBucketList creates CPUSet based on list of CPUBucket.  The
    loop [for cpu := StartCPU; cpu <= EndCPU; cpu++] over a bucket adds the
    cpus from [StartCPU] to [EndCPU] (it ends when [EndCPU < MaxInt64]). *)
Definition CPUSetFromBucketList (buckets : list CPUBucket) : CPUSet :=
  fold_left
    (fun bucketSet bucket =>
       bucketSet ∪ list_to_set (seqZ (StartCPU bucket) (EndCPU bucket - StartCPU bucket + 1)))
    buckets ∅.

(** Sorted returns sorted list of cpu ids. *)
Definition Sorted (c : CPUSet) : list Z := merge_sort Z.le (elements c).

(** ToBucketList converts CPUSet back to CPUBucket list, sorted by cpuid. *)
Definition ToBucketList (c : CPUSet) : list CPUBucket :=
  map (fun cpu => mkCPUBucket cpu cpu) (Sorted c).

(** Merge sums all cpus from two sets. *)
Definition Merge (c other : CPUSet) : CPUSet := c ∪ other.

(** RemoveAll removes all cpus that exist in other. *)
Definition RemoveAll (c other : CPUSet) : CPUSet := c ∖ other.

(** [strconv.Itoa]. *)
Definition Itoa (i : Z) : string := pretty i.

(** [strings.Join]. *)
Fixpoint Join (elems : list string) (sep : string) : string :=
  match elems with
  | [] => ""
  | [e] => e
  | e :: rest => e +:+ sep +:+ Join rest sep
  end.

(** ToCpuString converts CPUSet to cgroup cpuset compatible string. *)
Definition ToCpuString (c : CPUSet) : string := Join (map Itoa (Sorted c)) ",".

(** *** The cgroup controller *)

(** One call of [CgroupController.UpdateCPUSet]. *)
Record CgroupCall : Type := mkCgroupCall {
  cgPath : string;
  cgSubPath : string;
  cgContainer : Container;
  cgCpuSet : string;
  cgMemSet : string
}.

(** A controller decides the outcome of a call from the calls made before
    it; the calls are recorded, the oldest first. *)
Record CgroupController : Type := mkCgroupController {
  ctrlOutcome : list CgroupCall -> CgroupCall -> option error;
  ctrlCalls : list CgroupCall
}.

Definition UpdateCPUSet (ctrl : CgroupController) (path sPath : string) (c : Container)
           (cpuSet memSet : string) : CgroupController * option error :=
  let call := mkCgroupCall path sPath c cpuSet memSet in
  (mkCgroupController (ctrlOutcome ctrl) (ctrlCalls ctrl ++ [call]),
   ctrlOutcome ctrl (ctrlCalls ctrl) call).

(** ResourceNotSet is used as default resource allocation. *)
Definition ResourceNotSet : string := "".

(** *** Allocators (daemon_allocators.go, daemon_numa_allocator.go and
    the per-namespace allocator) *)

(** Allocator interface to take cpu.  The receiver is a pointer: a method
    returns the allocator after the call. *)
Class Allocator (A : Type) : Type := {
  takeCpus : A -> Container -> DaemonState -> A * DaemonState * option error;
  freeCpus : A -> Container -> DaemonState -> A * DaemonState * option error;
  clearCpus : A -> Container -> DaemonState -> A * DaemonState * option error
}.

(** [s.Allocated[cid]] and [s.Pods[pid]] of a missing key are zero values. *)
Definition allocatedOf (s : DaemonState) (cid : string) : list CPUBucket :=
  default [] (Allocated s !! cid).
Definition zeroPodMetadata : PodMetadata := mkPodMetadata "" "" "" [].
Definition podOf (s : DaemonState) (pid : string) : PodMetadata :=
  default zeroPodMetadata (Pods s !! pid).

(** The number of cpus of a bucket [StartCPU .. EndCPU]. *)
Definition bucketLength (b : CPUBucket) : Z := EndCPU b - StartCPU b + 1.

(** The cpus of a bucket, [for cpu := StartCPU; cpu <= EndCPU; cpu++]. *)
Definition bucketCpus (b : CPUBucket) : list Z :=
  seqZ (StartCPU b) (EndCPU b - StartCPU b + 1).

(** DefaultAllocator simple static allocator without NUMA. *)
Record DefaultAllocator : Type := mkDefaultAllocator {
  daCtrl : CgroupController
}.

Definition Default_takeCpus (d : DefaultAllocator) (c : Container) (s : DaemonState)
  : DefaultAllocator * DaemonState * option error :=
  if decide (QS c = Guaranteed) then
    match list_find (fun b => 0 < sub64 (add64 (sub64 (EndCPU b) (StartCPU b)) 1) (Cpus c))
                    (AvailableCPUs s) with
    | Some (i, b) =>
        let sCPU := StartCPU b in
        let eCPU := sub64 (add64 (StartCPU b) (Cpus c)) 1 in
        let s1 := set_AvailableCPUs
                    (<[i := mkCPUBucket (add64 eCPU 1) (EndCPU b)]> (AvailableCPUs s)) s in
        let s2 := set_Allocated (<[CID c := [mkCPUBucket sCPU eCPU]]> (Allocated s1)) s1 in
        let t := if decide (sCPU = eCPU) then Itoa sCPU
                 else Itoa sCPU +:+ "-" +:+ Itoa eCPU in
        let '(ctrl', err) :=
          UpdateCPUSet (daCtrl d) (CGroupPath s2) (CGroupSubPath s2) c t ResourceNotSet in
        (mkDefaultAllocator ctrl', s2, err)
    | None =>
        (d, s, Some (DaemonError CpusNotAvailable "No available cpus for take request"))
    end
  else (d, s, None).

Definition Default_freeCpus (d : DefaultAllocator) (c : Container) (s : DaemonState)
  : DefaultAllocator * DaemonState * option error :=
  if decide (QS c = Guaranteed) then
    match Allocated s !! CID c with
    | None =>
        (d, s, Some (DaemonError ContainerNotFound
                       ("Container " +:+ CID c +:+ " not available for deletion")))
    | Some v =>
        let s1 := set_Allocated (delete (CID c) (Allocated s)) s in
        match AvailableCPUs s1, v with
        | [], _ => (d, s1, None)
        | _ :: _, [] => (d, s1, Some (panic "index out of range [0] with length 0"))
        | _ :: _, v0 :: _ =>
            let available :=
              map (fun b => if decide (EndCPU v0 = sub64 (StartCPU b) 1)
                            then mkCPUBucket (StartCPU v0) (EndCPU b) else b)
                  (AvailableCPUs s1) in
            (d, set_AvailableCPUs available s1, None)
        end
    end
  else (d, s, None).

(** The buckets are collected by a [range] over the map and turned into a
    set, which does not depend on the order of the visit. *)
Definition Default_clearCpus (d : DefaultAllocator) (c : Container) (s : DaemonState)
  : DefaultAllocator * DaemonState * option error :=
  let allCpus := AvailableCPUs s ++ concat (map snd (map_to_list (Allocated s))) in
  let cpuSet := CPUSetFromBucketList allCpus in
  let '(ctrl', err) :=
    UpdateCPUSet (daCtrl d) (CGroupPath s) (CGroupSubPath s) c
                 (ToCpuString cpuSet) ResourceNotSet in
  (mkDefaultAllocator ctrl', s, err).

#[global] Instance DefaultAllocator_Allocator : Allocator DefaultAllocator := {
  takeCpus := Default_takeCpus;
  freeCpus := Default_freeCpus;
  clearCpus := Default_clearCpus
}.

(** A [range] over a map visits every key of the map once. *)
Definition ValidOrder {K V : Type} `{Countable K} (keys : list K) (m : gmap K V) : Prop :=
  NoDup keys /\ forall k, k ∈ keys <-> is_Some (m !! k).

(** The orders in which the Go runtime visits the keys of a map in a
    [range] statement. *)
Section RangeOrders.

(** The order of the node ids in [getMemoryPinning]. *)
Variable rangeNodes : gset Z -> list Z.
(** The order of the container ids of [s.Allocated]. *)
Variable rangeAllocated : gmap string (list CPUBucket) -> list string.
(** The order of the pod ids of [s.Pods] in the search for a container. *)
Variable rangePods : string -> gmap string PodMetadata -> list string.

Definition getMemoryPinning (topology : NumaTopology) (cpuIds : list Z) : string :=
  let nodesSet : gset Z :=
    list_to_set
      (map (fun cpu => match CpuInformation topology !! cpu with
                       | Some ci => ciNode ci
                       | None => 0
                       end) cpuIds) in
  Join (map Itoa (rangeNodes nodesSet)) ",".

Definition getMemoryPinningIfEnabled (memoryPinning : bool) (topology : NumaTopology)
           (cpuIds : list Z) : string :=
  if memoryPinning then getMemoryPinning topology cpuIds else "".

Definition getMemoryPinningIfEnabledFromCpuSet (memoryPinning : bool)
           (topology : NumaTopology) (cpus : CPUSet) : string :=
  if memoryPinning then getMemoryPinning topology (Sorted cpus) else "".

Definition singletonBuckets (cpuIds : list Z) : list CPUBucket :=
  map (fun cpuID => mkCPUBucket cpuID cpuID) cpuIds.

(** [Topology.Return] of every cpu of the buckets, until one fails. *)
Fixpoint returnCpus (cpus : list Z) (t : NumaTopology)
  : NumaTopology * option TopoError :=
  match cpus with
  | [] => (t, None)
  | cpu :: rest =>
      match Return t cpu with
      | (t', Some err) => (t', Some err)
      | (t', None) => returnCpus rest t'
      end
  end.

(** The text of an error, [err.Error()]. *)
Fixpoint Error (e : error) : string :=
  match e with
  | DaemonError _ msg => "Daemon Error: " +:+ msg
  | failedContainersErrors failed =>
      "multiple errors: "
      +:+ Join (map (fun fail : string * error =>
                       "cid: " +:+ fst fail +:+ ", err: " +:+ Error (snd fail)) failed) ";"
  | otherError msg => msg
  | panic msg => "panic: " +:+ msg
  end.

(** An error of the topology as a value of [error]. *)
Definition topoError (e : TopoError) : error :=
  match e with
  | PanicMakeslice => panic "runtime error: makeslice: cap out of range"
  | _ => otherError (TopoError_message e)
  end.

(** [DaemonError{ErrorType: CpusNotAvailable, ErrorMessage: err.Error()}],
    which a panic does not reach. *)
Definition cpusNotAvailable (err : error) : error :=
  match err with
  | panic msg => panic msg
  | _ => DaemonError CpusNotAvailable (Error err)
  end.

(** NumaAwareAllocator allocates cpus based on node numa topology. *)
Record NumaAwareAllocator : Type := mkNumaAwareAllocator {
  naCtrl : CgroupController;
  naMemoryPinning : bool
}.

Definition Numa_takeCpus (d : NumaAwareAllocator) (c : Container) (s : DaemonState)
  : NumaAwareAllocator * DaemonState * option error :=
  if decide (QS c = Guaranteed) then
    match Take (dsTopology s) (Cpus c) with
    | (topo', _, Some err) =>
        (d, set_Topology topo' s, Some (cpusNotAvailable (topoError err)))
    | (topo', cpuIds, None) =>
        let s1 := set_Topology topo' s in
        let allocatedList := allocatedOf s1 (CID c) ++ singletonBuckets cpuIds in
        let cpuSetList := map Itoa cpuIds in
        let s2 := set_Allocated (<[CID c := allocatedList]> (Allocated s1)) s1 in
        let '(ctrl', err) :=
          UpdateCPUSet (naCtrl d) (CGroupPath s2) "" c (Join cpuSetList ",")
            (getMemoryPinningIfEnabled (naMemoryPinning d) (dsTopology s2) cpuIds) in
        (mkNumaAwareAllocator ctrl' (naMemoryPinning d), s2, err)
    end
  else (d, s, None).

Definition Numa_freeCpus (d : NumaAwareAllocator) (c : Container) (s : DaemonState)
  : NumaAwareAllocator * DaemonState * option error :=
  if decide (QS c = Guaranteed) then
    match Allocated s !! CID c with
    | None =>
        (d, s, Some (DaemonError ContainerNotFound
                       ("Container " +:+ CID c +:+ " not available for deletion")))
    | Some v =>
        let s1 := set_Allocated (delete (CID c) (Allocated s)) s in
        match returnCpus (concat (map bucketCpus v)) (dsTopology s1) with
        | (topo', Some err) =>
            (d, set_Topology topo' s1, Some (cpusNotAvailable (topoError err)))
        | (topo', None) => (d, set_Topology topo' s1, None)
        end
    end
  else (d, s, None).

Definition allLeafCpus (s : DaemonState) : CPUSet :=
  list_to_set (map (fun leaf => nodeValue (snd leaf)) (GetLeafs (Topology (dsTopology s)))).

Definition Numa_clearCpus (d : NumaAwareAllocator) (c : Container) (s : DaemonState)
  : NumaAwareAllocator * DaemonState * option error :=
  let cpuSet := allLeafCpus s in
  let '(ctrl', err) :=
    UpdateCPUSet (naCtrl d) (CGroupPath s) "" c (ToCpuString cpuSet)
      (getMemoryPinningIfEnabledFromCpuSet (naMemoryPinning d) (dsTopology s) cpuSet) in
  (mkNumaAwareAllocator ctrl' (naMemoryPinning d), s, err).

#[global] Instance NumaAwareAllocator_Allocator : Allocator NumaAwareAllocator := {
  takeCpus := Numa_takeCpus;
  freeCpus := Numa_freeCpus;
  clearCpus := Numa_clearCpus
}.

(** NumaPerNamespaceAllocator allocates cpus in N isolated sub-pools, based
    on namespace. *)
Record NumaPerNamespaceAllocator : Type := mkNumaPerNamespaceAllocator {
  nsCtrl : CgroupController;
  nsMemoryPinning : bool;
  exclusive : bool;
  NumBuckets : Z;
  NamespaceToBucket : gmap string Z;
  BucketToNumContainers : gmap Z Z;
  globalBucket : Z
}.

Definition set_nsCtrl (v : CgroupController) (d : NumaPerNamespaceAllocator) :=
  mkNumaPerNamespaceAllocator v (nsMemoryPinning d) (exclusive d) (NumBuckets d)
    (NamespaceToBucket d) (BucketToNumContainers d) (globalBucket d).
Definition set_NamespaceToBucket (v : gmap string Z) (d : NumaPerNamespaceAllocator) :=
  mkNumaPerNamespaceAllocator (nsCtrl d) (nsMemoryPinning d) (exclusive d) (NumBuckets d)
    v (BucketToNumContainers d) (globalBucket d).
Definition set_BucketToNumContainers (v : gmap Z Z) (d : NumaPerNamespaceAllocator) :=
  mkNumaPerNamespaceAllocator (nsCtrl d) (nsMemoryPinning d) (exclusive d) (NumBuckets d)
    (NamespaceToBucket d) v (globalBucket d).
Definition set_globalBucket (v : Z) (d : NumaPerNamespaceAllocator) :=
  mkNumaPerNamespaceAllocator (nsCtrl d) (nsMemoryPinning d) (exclusive d) (NumBuckets d)
    (NamespaceToBucket d) (BucketToNumContainers d) v.

(** Errors of the allocator. *)
Definition ErrNamespaceNotEmpty : string := "namespace".
Definition ErrNotEnoughSpaceInBucket : string := "not enough free cpus in namespace bucket".
Definition ErrContainerNotFound : string := "cannot find container".
Definition ErrBucketNotFound : string := "namespace cpu bucket not found".

(** Run-time panics of the allocator. *)
Definition divideByZero : error := panic "runtime error: integer divide by zero".
Definition sliceOutOfRange : error := panic "runtime error: slice bounds out of range".
Definition makesliceOutOfRange : error := panic "runtime error: makeslice: cap out of range".

(** [d.BucketToNumContainers[b]], zero for a missing key. *)
Definition numContainers (d : NumaPerNamespaceAllocator) (b : Z) : Z :=
  default 0 (BucketToNumContainers d !! b).
(** [d.NamespaceToBucket[namespace]], zero for a missing key. *)
Definition bucketOf (d : NumaPerNamespaceAllocator) (namespace : string) : Z :=
  default 0 (NamespaceToBucket d !! namespace).

(** getBucket returns list of cpus associated with given namespace.  The
    division panics for [NumBuckets = 0], and a slice panics when its
    indices are out of range (of the length: the spare capacity of [leafs]
    holds no leaf). *)
Definition getBucket (d : NumaPerNamespaceAllocator) (s : DaemonState) (namespace : string)
  : list NodePtr * option error :=
  let leafs := GetLeafs (Topology (dsTopology s)) in
  if NumBuckets d =? 0 then ([], Some divideByZero) else
  let bucketSize := Z.quot (Z.of_nat (length leafs)) (NumBuckets d) in
  match NamespaceToBucket d !! namespace with
  | None => ([], Some (otherError ErrBucketNotFound))
  | Some namespaceBucket =>
      let low := mul64 bucketSize namespaceBucket in
      if decide (namespaceBucket = sub64 (NumBuckets d) 1)
      then
        if (low <? 0) || (Z.of_nat (length leafs) <? low) then ([], Some sliceOutOfRange)
        else (drop (Z.to_nat low) leafs, None)
      else
        let high := mul64 bucketSize (add64 namespaceBucket 1) in
        if (low <? 0) || (high <? low) || (Z.of_nat (length leafs) <? high)
        then ([], Some sliceOutOfRange)
        else (take (Z.to_nat high - Z.to_nat low) (drop (Z.to_nat low) leafs), None)
  end.

(** The first loop of [takeGuaranteedCpusFromBucket]: the available cpus
    are counted, up to [c.Cpus]. *)
Fixpoint countAvailable (root : TopologyNode) (bucket : list NodePtr) (cpus : Z)
         (numAvailable : Z) : Z :=
  match bucket with
  | [] => numAvailable
  | cpu :: rest =>
      match nodeAt (fst cpu) root with
      | Some node =>
          if Available node
          then if decide (add64 numAvailable 1 = cpus) then add64 numAvailable 1
               else countAvailable root rest cpus (add64 numAvailable 1)
          else countAvailable root rest cpus numAvailable
      | None => countAvailable root rest cpus numAvailable
      end
  end.

(** The second loop: the available leaves are taken. *)
Fixpoint takeFromBucket (root : TopologyNode) (bucket : list NodePtr) (cpus : Z)
         (cpuIds : list Z) : TopologyNode * list Z * option TopoError :=
  match bucket with
  | [] => (root, cpuIds, None)
  | cpu :: rest =>
      match nodeAt (fst cpu) root with
      | Some node =>
          if Available node
          then
            let cpuIds1 := cpuIds ++ [nodeValue node] in
            match nodeTake node with
            | (_, Some err) => (root, cpuIds1, Some err)
            | (node', None) =>
                let root1 := replaceAt (fst cpu) node' root in
                if decide (Z.of_nat (length cpuIds1) = cpus) then (root1, cpuIds1, None)
                else takeFromBucket root1 rest cpus cpuIds1
            end
          else takeFromBucket root rest cpus cpuIds
      | None => takeFromBucket root rest cpus cpuIds
      end
  end.

Definition takeGuaranteedCpusFromBucket (root : TopologyNode) (bucket : list NodePtr)
           (c : Container) : TopologyNode * list Z * option error :=
  (* we firstly check if we are able to allocate *)
  let numAvailable := countAvailable root bucket (Cpus c) 0 in
  if numAvailable <? Cpus c
  then (root, [],
        Some (otherError
                (ErrNotEnoughSpaceInBucket +:+ ": cannot allocate " +:+ Itoa (Cpus c)
                 +:+ " cpus, only " +:+ Itoa numAvailable
                 +:+ " processors available in bucket")))
  else
    (* now we can take cpus without having to return them *)
    if Cpus c <? 0 then (root, [], Some makesliceOutOfRange) (* make([]int, 0, c.Cpus) *)
    else
    match takeFromBucket root bucket (Cpus c) [] with
    | (root', cpuIds, Some err) => (root', cpuIds, Some (topoError err))
    | (root', cpuIds, None) => (root', cpuIds, None)
    end.

Definition takeAllCpusFromBucket (d : NumaPerNamespaceAllocator) (root : TopologyNode)
           (bucket : list NodePtr) (c : Container) : list Z * option error :=
  if Cpus c <? 0 then ([], Some makesliceOutOfRange) (* make([]int, 0, c.Cpus) *) else
  (omap (fun cpu : NodePtr =>
           match nodeAt (fst cpu) root with
           | Some node =>
               (* for exlusive assignment take only cpus not taken exclusively *)
               if negb (exclusive d) || Available node then Some (nodeValue node) else None
           | None => None
           end) bucket, None).

Definition newNamespace (d : NumaPerNamespaceAllocator) (namespace : string)
  : NumaPerNamespaceAllocator * option error :=
  if NumBuckets d =? 0 then (d, Some divideByZero) else
  let d1 := set_NamespaceToBucket
              (<[namespace := Z.rem (globalBucket d) (NumBuckets d)]> (NamespaceToBucket d)) d in
  (set_globalBucket (add64 (globalBucket d1) 1) d1, None).

Definition freeNamespace (d : NumaPerNamespaceAllocator) (namespace : string)
  : NumaPerNamespaceAllocator * option string :=
  let namespaceBucket := bucketOf d namespace in
  if 0 <? numContainers d namespaceBucket then (d, Some ErrNamespaceNotEmpty)
  else
    let d1 := set_BucketToNumContainers (delete namespaceBucket (BucketToNumContainers d)) d in
    (set_NamespaceToBucket (delete namespace (NamespaceToBucket d1)) d1, None).

(** [findContainer]: the pods are visited in the order [podIds]. *)
Fixpoint findContainerIn (s : DaemonState) (cid : string) (podIds : list string)
  : option Container :=
  match podIds with
  | [] => None
  | pid :: rest =>
      match Pods s !! pid with
      | Some podMeta =>
          match List.find (fun container => bool_decide (CID container = cid))
                          (pmContainers podMeta) with
          | Some container => Some container
          | None => findContainerIn s cid rest
          end
      | None => findContainerIn s cid rest
      end
  end.

Definition findContainer (s : DaemonState) (cid : string) : option Container :=
  findContainerIn s cid (rangePods cid (Pods s)).

(** The body shared by [removeCpusFromCommonPool] and [addCpusToCommonPool]:
    the containers of [s.Allocated] are visited in the order [cids], and
    [change] gives the new cpus of a container of the common pool. *)
Fixpoint commonPoolLoop (change : CPUSet -> CPUSet) (memoryPinning : bool)
         (namespace : string) (cids : list string)
         (ctrl : CgroupController) (s : DaemonState)
  : CgroupController * DaemonState * option error :=
  match cids with
  | [] => (ctrl, s, None)
  | cid :: rest =>
      match Allocated s !! cid with
      | None => commonPoolLoop change memoryPinning namespace rest ctrl s
      | Some allocatedList =>
          match findContainer s cid with
          | None => commonPoolLoop change memoryPinning namespace rest ctrl s
          | Some c =>
              if bool_decide (Namespace (podOf s (PID c)) ≠ namespace)
                 || bool_decide (QS c = Guaranteed)
              then commonPoolLoop change memoryPinning namespace rest ctrl s
              else
                let originalCPUs := CPUSetFromBucketList allocatedList in
                let newCPUs := change originalCPUs in
                match UpdateCPUSet ctrl (CGroupPath s) "" c (ToCpuString newCPUs)
                        (getMemoryPinningIfEnabledFromCpuSet memoryPinning
                           (dsTopology s) newCPUs) with
                | (ctrl', Some err) => (ctrl', s, Some err)
                | (ctrl', None) =>
                    commonPoolLoop change memoryPinning namespace rest ctrl'
                      (set_Allocated (<[cid := ToBucketList newCPUs]> (Allocated s)) s)
                end
          end
      end
  end.

Definition removeCpusFromCommonPool (d : NumaPerNamespaceAllocator) (s : DaemonState)
           (namespace : string) (cpus : CPUSet)
  : NumaPerNamespaceAllocator * DaemonState * option error :=
  let '(ctrl', s', err) :=
    commonPoolLoop (fun originalCPUs => RemoveAll originalCPUs cpus) (nsMemoryPinning d)
                   namespace (rangeAllocated (Allocated s)) (nsCtrl d) s in
  (set_nsCtrl ctrl' d, s', err).

Definition addCpusToCommonPool (d : NumaPerNamespaceAllocator) (s : DaemonState)
           (namespace : string) (cpus : CPUSet)
  : NumaPerNamespaceAllocator * DaemonState * option error :=
  let '(ctrl', s', err) :=
    commonPoolLoop (fun originalCPUs => Merge originalCPUs cpus) (nsMemoryPinning d)
                   namespace (rangeAllocated (Allocated s)) (nsCtrl d) s in
  (set_nsCtrl ctrl' d, s', err).

(** The container of the common pool of [namespace] that [cid] names, as the
    loop decides it: the container is found among the pods, its pod is in
    [namespace] and it is not Guaranteed. *)
Definition poolMember (s : DaemonState) (namespace cid : string) : option Container :=
  match findContainer s cid with
  | Some c =>
      if bool_decide (Namespace (podOf s (PID c)) ≠ namespace)
         || bool_decide (QS c = Guaranteed)
      then None else Some c
  | None => None
  end.

(** The call that pins container [c] of the common pool to [cpus]. *)
Definition repinCall (memoryPinning : bool) (s : DaemonState) (c : Container)
           (cpus : CPUSet) : CgroupCall :=
  mkCgroupCall (CGroupPath s) "" c (ToCpuString cpus)
    (getMemoryPinningIfEnabledFromCpuSet memoryPinning (dsTopology s) cpus).

Definition PerNamespace_takeCpus (d : NumaPerNamespaceAllocator) (c : Container)
           (s : DaemonState) : NumaPerNamespaceAllocator * DaemonState * option error :=
  if bool_decide (QS c = Guaranteed) && (Cpus c =? 0)
  then (d, s, Some (DaemonError NotImplemented
                      "number of guaranteed container cpus shall be greater than 0"))
  else
    match Pods s !! PID c with
    | None =>
        (d, s, Some (DaemonError PodNotFound
                       ("cannot retrieve pod " +:+ PID c +:+ " metadata")))
    | Some podMetadata =>
        let '(d1, stop) := match NamespaceToBucket d !! Namespace podMetadata with
                           | Some _ => (d, None)
                           | None => newNamespace d (Namespace podMetadata)
                           end in
        match stop with
        | Some err => (d1, s, Some (cpusNotAvailable err))
        | None =>
        match getBucket d1 s (Namespace podMetadata) with
        | (_, Some err) => (d1, s, Some (cpusNotAvailable err))
        | (bucket, None) =>
            let namespaceBucket := bucketOf d1 (Namespace podMetadata) in
            let d2 := set_BucketToNumContainers
                        (<[namespaceBucket := add64 (numContainers d1 namespaceBucket) 1]>
                           (BucketToNumContainers d1)) d1 in
            let root := Topology (dsTopology s) in
            let '(root', cpuIds, err) :=
              if decide (QS c = Guaranteed)
              then takeGuaranteedCpusFromBucket root bucket c
              else let '(cpuIds, err) := takeAllCpusFromBucket d2 root bucket c in
                   (root, cpuIds, err) in
            let s1 := set_Topology
                        (mkNumaTopology root' (CpuInformation (dsTopology s))) s in
            match err with
            | Some err => (d2, s1, Some (cpusNotAvailable err))
            | None =>
                let allocatedList := singletonBuckets cpuIds in
                let cpuSetList := map Itoa cpuIds in
                let s2 := set_Allocated (<[CID c := allocatedList]> (Allocated s1)) s1 in
                match UpdateCPUSet (nsCtrl d2) (CGroupPath s2) "" c (Join cpuSetList ",")
                        (getMemoryPinningIfEnabled (nsMemoryPinning d2)
                           (dsTopology s2) cpuIds) with
                | (ctrl', Some err) => (set_nsCtrl ctrl' d2, s2, Some err)
                | (ctrl', None) =>
                    let d3 := set_nsCtrl ctrl' d2 in
                    if exclusive d3 && bool_decide (QS c = Guaranteed)
                    then removeCpusFromCommonPool d3 s2 (Namespace podMetadata)
                           (CPUSetFromBucketList allocatedList)
                    else (d3, s2, None)
                end
            end
        end
        end
    end.

Definition PerNamespace_freeCpus (d : NumaPerNamespaceAllocator) (c : Container)
           (s : DaemonState) : NumaPerNamespaceAllocator * DaemonState * option error :=
  match Allocated s !! CID c with
  | None =>
      (d, s, Some (DaemonError ContainerNotFound
                     ("Container " +:+ CID c +:+ " not available for deletion")))
  | Some v =>
      let s1 := set_Allocated (delete (CID c) (Allocated s)) s in
      match Pods s1 !! PID c with
      | None =>
          (d, s1, Some (DaemonError PodNotFound
                          ("cannot retrieve pod " +:+ PID c +:+ " metadata")))
      | Some podMetadata =>
          let namespaceBucket := bucketOf d (Namespace podMetadata) in
          let d1 := set_BucketToNumContainers
                      (<[namespaceBucket := sub64 (numContainers d namespaceBucket) 1]>
                         (BucketToNumContainers d)) d in
          let '(d2, err) :=
            if decide (numContainers d1 namespaceBucket = 0)
            then freeNamespace d1 (Namespace podMetadata)
            else (d1, None) in
          match err with
          | Some msg => (d2, s1, Some (DaemonError RuntimeError msg))
          | None =>
              match returnCpus (concat (map bucketCpus v)) (dsTopology s1) with
              | (topo', Some err) =>
                  (d2, set_Topology topo' s1, Some (cpusNotAvailable (topoError err)))
              | (topo', None) =>
                  let s2 := set_Topology topo' s1 in
                  if exclusive d2 && bool_decide (QS c = Guaranteed)
                  then addCpusToCommonPool d2 s2 (Namespace podMetadata)
                         (CPUSetFromBucketList v)
                  else (d2, s2, None)
              end
          end
      end
  end.

Definition PerNamespace_clearCpus (d : NumaPerNamespaceAllocator) (c : Container)
           (s : DaemonState) : NumaPerNamespaceAllocator * DaemonState * option error :=
  let cpuSet := allLeafCpus s in
  let '(ctrl', err) :=
    UpdateCPUSet (nsCtrl d) (CGroupPath s) "" c (ToCpuString cpuSet)
      (getMemoryPinningIfEnabledFromCpuSet (nsMemoryPinning d) (dsTopology s) cpuSet) in
  (set_nsCtrl ctrl' d, s, err).

#[global] Instance NumaPerNamespaceAllocator_Allocator
  : Allocator NumaPerNamespaceAllocator := {
  takeCpus := PerNamespace_takeCpus;
  freeCpus := PerNamespace_freeCpus;
  clearCpus := PerNamespace_clearCpus
}.

End RangeOrders.

(** *** Policy (static_policy.go) *)

(** Policy interface of cpu management policies. *)
Class Policy (P : Type) : Type := {
  AssignContainer : P -> Container -> DaemonState -> P * DaemonState * option error;
  DeleteContainer : P -> Container -> DaemonState -> P * DaemonState * option error;
  ClearContainer : P -> Container -> DaemonState -> P * DaemonState * option error
}.

(** StaticPolicy Static Policy type holding assigned containers. *)
Record StaticPolicy (A : Type) : Type := NewStaticPolocy {
  allocator : A
}.
Arguments NewStaticPolocy {A} _.
Arguments allocator {A} _.

Definition liftAllocator {A : Type}
           (op : A -> Container -> DaemonState -> A * DaemonState * option error)
           (p : StaticPolicy A) (c : Container) (s : DaemonState)
  : StaticPolicy A * DaemonState * option error :=
  let '(a', s', err) := op (allocator p) c s in (NewStaticPolocy a', s', err).

#[global] Instance StaticPolicy_Policy {A : Type} `{Allocator A} : Policy (StaticPolicy A) := {
  (* AssignContainer tries to allocate a container. *)
  AssignContainer := liftAllocator takeCpus;
  (* DeleteContainer delete allocated containers. *)
  DeleteContainer := liftAllocator freeCpus;
  (* ClearContainer reverts cpuset configuration to default one.  It does not
     remove container from the state. *)
  ClearContainer := liftAllocator clearCpus
}.

(** A policy that records the calls made on it, as the mocked policy of the
    test suite does, and forwards them. *)
Inductive PolicyCall : Type :=
  | CallAssign (c : Container)
  | CallDelete (c : Container)
  | CallClear (c : Container).

Record Recorded (P : Type) : Type := mkRecorded {
  recPolicy : P;
  recCalls : list PolicyCall
}.
Arguments mkRecorded {P} _ _.
Arguments recPolicy {P} _.
Arguments recCalls {P} _.

Definition recordCall {P : Type} (call : Container -> PolicyCall)
           (op : P -> Container -> DaemonState -> P * DaemonState * option error)
           (r : Recorded P) (c : Container) (s : DaemonState)
  : Recorded P * DaemonState * option error :=
  let '(p', s', err) := op (recPolicy r) c s in
  (mkRecorded p' (recCalls r ++ [call c]), s', err).

#[global] Instance Recorded_Policy {P : Type} `{Policy P} : Policy (Recorded P) := {
  AssignContainer := recordCall CallAssign AssignContainer;
  DeleteContainer := recordCall CallDelete DeleteContainer;
  ClearContainer := recordCall CallClear ClearContainer
}.

(** *** The daemon: errors, state and request conversion *)

(** Daemon holds a state of the daemon. *)
Record Daemon (P : Type) : Type := mkDaemon {
  state : DaemonState;
  policy : P
}.
Arguments mkDaemon {P} _ _.
Arguments state {P} _.
Arguments policy {P} _.

Definition containerFromRequest (req : ContainerInfo) (podID : string) : Container :=
  let r := ciResources req in
  let qs :=
    if (RequestedCpus r =? LimitCpus r) && (RequestedMemory r =? LimitMemory r)
       && (0 <? RequestedCpus r)
    then Guaranteed
    else if (RequestedCpus r <? LimitCpus r) || (RequestedMemory r <? LimitMemory r)
    then Burstable
    else BestEffort in
  {| CID := ContainerId req;
     PID := podID;
     Name := ContainerName req;
     Cpus := RequestedCpus r;
     QS := qs |}.

(** The calls that the loop and the rollback of [CreatePod] make for a
    container of the request. *)
Definition assignCall (podID : string) (container : ContainerInfo) : PolicyCall :=
  CallAssign (containerFromRequest container podID).
Definition clearCall (podID : string) (container : ContainerInfo) : PolicyCall :=
  CallClear (containerFromRequest container podID).

(** QoSFromLimit returns QoS class based on limits set on pod cpu. *)
Definition QoSFromLimit (limitCpu requestCpu : Z) : QoS :=
  if (0 <? limitCpu) || (0 <? requestCpu)
  then if limitCpu =? requestCpu then Guaranteed
       else if requestCpu <? limitCpu then Burstable
       else BestEffort
  else BestEffort.

(** *** State persistence (daemon_state.go) and the operations of the daemon *)

Section Persistence.

(** The file system, seen through the calls of package [os] that the state
    uses, and the JSON encoding of the state. *)
Variable FS : Type.
Variable WriteFile : FS -> string -> string -> FS * option error.
Variable ReadFile : FS -> string -> string + error.
(** [Lstat]: whether the file is a symbolic link, or the error. *)
Variable Lstat : FS -> string -> bool + error.
Variable Marshal : DaemonState -> string + error.
(** [json.Unmarshal(b, d)] overwrites the fields of [d] that [b] gives. *)
Variable Unmarshal : string -> DaemonState -> DaemonState * option error.

Definition ErrFileIsSymlink : error := otherError "file cannot be a symlink".

(** ErrorIfSymlink returns an error if path is symlink or doesn't exist. *)
Definition ErrorIfSymlink (fs : FS) (path : string) : option error :=
  match Lstat fs path with
  | inr err => Some err
  | inl isSymlink => if isSymlink then Some ErrFileIsSymlink else None
  end.

(** SaveState saves state to file given in StatePath. *)
Definition SaveState (d : DaemonState) (fs : FS) : FS * option error :=
  match Marshal d with
  | inr err => (fs, Some err)
  | inl b => WriteFile fs (StatePath d) b
  end.

(** LoadState loads state from StatePath. StatePath value is always preserved. *)
Definition LoadState (d : DaemonState) (fs : FS) : DaemonState * option error :=
  let statePath := StatePath d in
  match ErrorIfSymlink fs statePath with
  | Some err => (d, Some err)
  | None =>
      match ReadFile fs statePath with
      | inr err => (d, Some err)
      | inl b =>
          let '(d1, err) := Unmarshal b d in
          (* do not modify statePath, even if different *)
          (set_StatePath statePath d1, err)
      end
  end.

Section DaemonOps.

Context {P : Type} `{Policy P}.

Fixpoint rollbackContainers (podID : string) (containers : list ContainerInfo)
         (d : Daemon P) : Daemon P :=
  match containers with
  | [] => d
  | container :: rest =>
      let c := containerFromRequest container podID in
      let '(p', s', _) := ClearContainer (policy d) c (state d) in
      rollbackContainers podID rest (mkDaemon s' p')
  end.

Definition saveState (d : Daemon P) (fs : FS) : FS * option error :=
  match SaveState (state d) fs with
  | (fs', Some err) =>
      (fs', Some (DaemonError RuntimeError ("Cannot save daemon state: " +:+ Error err)))
  | (fs', None) => (fs', None)
  end.

(** The loop of [CreatePod] over [req.Containers]: [assigned] is
    [req.Containers[:i]] and [remaining] is [req.Containers[i:]]. *)
Fixpoint createContainers (req : CreatePodRequest) (podMeta : PodMetadata)
         (assigned remaining : list ContainerInfo)
         (containersCpus : list AllocatedContainerResource) (d : Daemon P)
  : Daemon P * (list AllocatedContainerResource + error) :=
  match remaining with
  | [] => (d, inl containersCpus)
  | it :: rest =>
      let c := containerFromRequest it (PodId req) in
      let '(p', s', err) := AssignContainer (policy d) c (state d) in
      match err with
      | Some e =>
          let d1 := rollbackContainers (PodId req) assigned (mkDaemon s' p') in
          (mkDaemon (set_Pods (delete (PodId req) (Pods (state d1))) (state d1)) (policy d1),
           inr e)
      | None =>
          let containersCpus' :=
            containersCpus
            ++ [mkAllocatedContainerResource (ContainerId it) (allocatedOf s' (ContainerId it))] in
          let podMeta' :=
            mkPodMetadata (pmPID podMeta) (pmName podMeta) (Namespace podMeta)
                          (pmContainers podMeta ++ [c]) in
          let s'' := set_Pods (<[PodId req := podMeta']> (Pods s')) s' in
          createContainers req podMeta' (assigned ++ [it]) rest containersCpus'
                           (mkDaemon s'' p')
      end
  end.

(** The iterations of the loop of [CreatePod] in which the assignment
    succeeds: the daemon and the metadata of the pod after them, [None] when
    an assignment fails. *)
Fixpoint assignAll (req : CreatePodRequest) (podMeta : PodMetadata)
         (containers : list ContainerInfo) (d : Daemon P)
  : option (Daemon P * PodMetadata) :=
  match containers with
  | [] => Some (d, podMeta)
  | it :: rest =>
      let c := containerFromRequest it (PodId req) in
      match AssignContainer (policy d) c (state d) with
      | (_, _, Some _) => None
      | (p', s', None) =>
          let podMeta' :=
            mkPodMetadata (pmPID podMeta) (pmName podMeta) (Namespace podMeta)
                          (pmContainers podMeta ++ [c]) in
          assignAll req podMeta' rest
                    (mkDaemon (set_Pods (<[PodId req := podMeta']> (Pods s')) s') p')
      end
  end.

(** The daemon at the start of the loop of [CreatePod]. *)
Definition withPod (req : CreatePodRequest) (d : Daemon P) : Daemon P :=
  mkDaemon (set_Pods (<[PodId req := mkPodMetadata (PodId req) (PodName req)
                                       (PodNamespace req) []]> (Pods (state d)))
                     (state d))
           (policy d).

(** [delete(d.state.Pods, podID)]. *)
Definition withoutPod (podID : string) (d : Daemon P) : Daemon P :=
  mkDaemon (set_Pods (delete podID (Pods (state d))) (state d)) (policy d).

(** CreatePod Creates a pod with given resource allocation.
    Error handling: either all containers were added successfully or pod
    creation fails. *)
Definition CreatePod (d : Daemon P) (req : CreatePodRequest) (fs : FS)
  : Daemon P * FS * (option AllocatedPodResources * option error) :=
  match ValidateCreatePodRequest req with
  | Some err =>
      (d, fs, (None, Some (DaemonError PodSpecError (ValidationError_message err))))
  | None =>
      let podMeta := mkPodMetadata (PodId req) (PodName req) (PodNamespace req) [] in
      let d0 := mkDaemon (set_Pods (<[PodId req := podMeta]> (Pods (state d))) (state d))
                         (policy d) in
      match createContainers req podMeta [] (Containers req) [] d0 with
      | (d1, inr err) => (d1, fs, (None, Some err))
      | (d1, inl containersCpus) =>
          match saveState d1 fs with
          | (fs', Some err) => (d1, fs', (None, Some err))
          | (fs', None) => (d1, fs', (Some (mkAllocatedPodResources [] containersCpus), None))
          end
      end
  end.

(** [failedContainersErrors.ErrorOrNil]. *)
Definition ErrorOrNil (e : list (string * error)) : option error :=
  match e with
  | [] => None
  | _ :: _ => Some (failedContainersErrors e)
  end.

(** The loop of [deleteContainers]. *)
Fixpoint deleteContainers_loop (deleted : list Container) (failed : list (string * error))
         (d : Daemon P) : Daemon P * list (string * error) :=
  match deleted with
  | [] => (d, failed)
  | it :: rest =>
      let '(p', s', err) := DeleteContainer (policy d) it (state d) in
      let failed' := match err with
                     | Some e => failed ++ [(CID it, e)]
                     | None => failed
                     end in
      deleteContainers_loop rest failed' (mkDaemon s' p')
  end.

Definition deleteContainers (deleted : list Container) (d : Daemon P)
  : Daemon P * option error :=
  let '(d', failed) := deleteContainers_loop deleted [] d in (d', ErrorOrNil failed).

(** [containerUpdated]. *)
Record containerUpdated : Type := mkContainerUpdated {
  current : Container;
  wanted : Container
}.

(** The loop of [updateContainers]. *)
Fixpoint updateContainers_loop (updated : list containerUpdated)
         (allocatedContainers : list AllocatedContainerResource)
         (failed : list (string * error)) (updatedContainers : list Container)
         (d : Daemon P)
  : Daemon P * list AllocatedContainerResource * list Container * list (string * error) :=
  match updated with
  | [] => (d, allocatedContainers, updatedContainers, failed)
  | it :: rest =>
      let '(p1, s1, err) := DeleteContainer (policy d) (current it) (state d) in
      match err with
      | Some e =>
          updateContainers_loop rest allocatedContainers (failed ++ [(CID (current it), e)])
                                updatedContainers (mkDaemon s1 p1)
      | None =>
          let '(p2, s2, err) := AssignContainer p1 (wanted it) s1 in
          match err with
          | Some e =>
              updateContainers_loop rest allocatedContainers
                                    (failed ++ [(CID (current it), e)])
                                    updatedContainers (mkDaemon s2 p2)
          | None =>
              updateContainers_loop rest
                (allocatedContainers
                 ++ [mkAllocatedContainerResource (CID (wanted it))
                                                  (allocatedOf s2 (CID (wanted it)))])
                failed (updatedContainers ++ [wanted it]) (mkDaemon s2 p2)
          end
      end
  end.

Definition updateContainers (updated : list containerUpdated) (d : Daemon P)
  : Daemon P * list AllocatedContainerResource * list Container * option error :=
  let '(d', allocatedContainers, updatedContainers, failed) :=
    updateContainers_loop updated [] [] [] d in
  (d', allocatedContainers, updatedContainers, ErrorOrNil failed).

(** The loop of [addContainers]. *)
Fixpoint addContainers_loop (added : list Container)
         (allocatedContainers : list AllocatedContainerResource)
         (addedContainers : list Container) (failed : list (string * error))
         (d : Daemon P)
  : Daemon P * list AllocatedContainerResource * list Container * list (string * error) :=
  match added with
  | [] => (d, allocatedContainers, addedContainers, failed)
  | it :: rest =>
      let '(p', s', err) := AssignContainer (policy d) it (state d) in
      match err with
      | Some e =>
          addContainers_loop rest allocatedContainers addedContainers
                             (failed ++ [(CID it, e)]) (mkDaemon s' p')
      | None =>
          addContainers_loop rest
            (allocatedContainers
             ++ [mkAllocatedContainerResource (CID it) (allocatedOf s' (CID it))])
            (addedContainers ++ [it]) failed (mkDaemon s' p')
      end
  end.

Definition addContainers (added : list Container) (d : Daemon P)
  : Daemon P * list AllocatedContainerResource * list Container * option error :=
  let '(d', allocatedContainers, addedContainers, failed) :=
    addContainers_loop added [] [] [] d in
  (d', allocatedContainers, addedContainers, ErrorOrNil failed).

(** Containers present in the current set, not present in the request. *)
Definition getDeletedContainers (current : list Container) (wanted : list ContainerInfo)
  : list Container :=
  List.filter
    (fun cc => negb (existsb (fun oc => bool_decide (ContainerId oc = CID cc)) wanted))
    current.

(** Containers present in the current set and in the request, with
    different parameters. *)
Definition getChangedContainers (current : list Container) (wanted : list ContainerInfo)
  : list containerUpdated :=
  flat_map
    (fun cc =>
       flat_map
         (fun oc =>
            if bool_decide (CID oc = ContainerId cc)
            then let ccr := containerFromRequest cc (PID oc) in
                 if bool_decide (oc <> ccr) then [mkContainerUpdated oc ccr] else []
            else [])
         current)
    wanted.

(** Containers present in the current set and in the request, with the
    same parameters. *)
Definition getNotModifiedContainers (current : list Container) (wanted : list ContainerInfo)
  : list Container :=
  flat_map
    (fun cc =>
       flat_map
         (fun oc =>
            if bool_decide (CID oc = ContainerId cc)
            then let ccr := containerFromRequest cc (PID oc) in
                 if bool_decide (oc = ccr) then [oc] else []
            else [])
         current)
    wanted.

(** Containers not present in the current set, present in the request. *)
Definition getAddedContainers (current : list Container) (wanted : list ContainerInfo)
           (podID : string) : list Container :=
  flat_map
    (fun cc =>
       if existsb (fun oc => bool_decide (CID oc = ContainerId cc)) current
       then []
       else [containerFromRequest cc podID])
    wanted.

Definition errOrNil (err : option error) : string :=
  match err with
  | Some e => Error e
  | None => "nil"
  end.

(** DeletePod Deletes pod and children containers allocations.
    Error handling: all containers are deleted from the state, even if some
    error happens before. *)
Definition DeletePod (d : Daemon P) (req : DeletePodRequest) (fs : FS)
  : Daemon P * FS * option error :=
  match ValidateDeletePodRequest req with
  | Some err => (d, fs, Some (DaemonError PodSpecError (RequestError_message err)))
  | None =>
      match Pods (state d) !! dprPodId req with
      | None => (d, fs, Some (DaemonError PodNotFound "Pod not found in CPU State"))
      | Some pod =>
          let '(d1, err) := deleteContainers (pmContainers pod) d in
          let d2 := withoutPod (dprPodId req) d1 in
          (* an error of saveState is logged only *)
          let '(fs', _) := saveState d2 fs in
          (d2, fs', err)
      end
  end.

(** UpdatePod: the containers of the pod that the request does not name are
    deleted, those that it changes are deleted and assigned anew, those
    that it adds are assigned. *)
Definition UpdatePod (d : Daemon P) (req : UpdatePodRequest) (fs : FS)
  : Daemon P * FS * (option AllocatedPodResources * option error) :=
  match ValidateUpdatePodRequest req with
  | Some err =>
      (d, fs, (None, Some (DaemonError PodSpecError (RequestError_message err))))
  | None =>
      match Pods (state d) !! uprPodId req with
      | None =>
          (d, fs,
           (None, Some (DaemonError PodNotFound
                          ("Pod " +:+ uprPodId req +:+ " does not exist, cannot update"))))
      | Some pod =>
          let pC := pmContainers pod in
          let deleted := getDeletedContainers pC (uprContainers req) in
          let '(d1, deletedErr) := deleteContainers deleted d in
          let updated := getChangedContainers pC (uprContainers req) in
          let '(d2, cpus1, updatedContainers, updatedErr) := updateContainers updated d1 in
          let added := getAddedContainers pC (uprContainers req) (uprPodId req) in
          let '(d3, cpus2, addedContainers, addedErr) := addContainers added d2 in
          let containersCpus := cpus1 ++ cpus2 in
          let pod' :=
            mkPodMetadata (pmPID pod) (pmName pod) (Namespace pod)
              (getNotModifiedContainers pC (uprContainers req)
               ++ updatedContainers ++ addedContainers) in
          let d4 := mkDaemon (set_Pods (<[uprPodId req := pod']> (Pods (state d3)))
                                       (state d3))
                             (policy d3) in
          match saveState d4 fs with
          | (fs', Some err) => (d4, fs', (None, Some err))
          | (fs', None) =>
              match deletedErr, addedErr, updatedErr with
              | None, None, None =>
                  (d4, fs', (Some (mkAllocatedPodResources [] containersCpus), None))
              | _, _, _ =>
                  (d4, fs',
                   (Some (mkAllocatedPodResources [] containersCpus),
                    Some (DaemonError RuntimeError
                            ("Delete errors: " +:+ errOrNil deletedErr
                             +:+ ", Add errors: " +:+ errOrNil addedErr
                             +:+ ", Update errors: " +:+ errOrNil updatedErr))))
              end
          end
      end
  end.


End DaemonOps.

End Persistence.

End Cpudaemon.

(** ** Package agent: conversion of a pod into a request (resources.go) *)

Module Agent.

Import Ctlplaneapi.

Definition MaxInt32 : Z := 2 ^ 31 - 1.

(** Addition of [int32] values wraps around. *)
Definition wrap32 (z : Z) : Z := (z + 2 ^ 31) mod 2 ^ 32 - 2 ^ 31.
Definition add32 (a b : Z) : Z := wrap32 (a + b).

(** A [resource.Quantity], seen through [AsInt64]: the value as an [int64]
    and whether the quantity is representable as one. *)
Record Quantity : Type := mkQuantity {
  int64Value : Z;
  representable : bool
}.

(** A [corev1.ResourceList], seen through [Cpu()] and [Memory()]. *)
Record ResourceList : Type := mkResourceList {
  rlCpu : Quantity;
  rlMemory : Quantity
}.

Record PodContainer : Type := mkPodContainer {
  pcName : string;
  Requests : ResourceList;
  Limits : ResourceList
}.

Record ContainerStatus : Type := mkContainerStatus {
  csName : string;
  csContainerID : string
}.

Record Pod : Type := mkPod {
  UID : string;
  podName : string;
  podNamespace : string;
  specContainers : list PodContainer;
  ContainerStatuses : list ContainerStatus
}.

Inductive AgentError : Type :=
  | ErrNotRepresentable (context : string)  (* "value not representable as int64" *)
  | ErrCountingOverflow (context : string). (* "values sum is not representable as int32" *)

Definition getContainerResources (resourceList : ResourceList) : (Z * Z) + AgentError :=
  let cpus := int64Value (rlCpu resourceList) in
  if negb (representable (rlCpu resourceList)) || (MaxInt32 <? cpus) || (cpus <? 0)
  then inr (ErrNotRepresentable "cpu quantity")
  else
    let memory := int64Value (rlMemory resourceList) in
    if negb (representable (rlMemory resourceList)) || (MaxInt32 <? memory) || (memory <? 0)
    then inr (ErrNotRepresentable "mem quantity")
    else inl (cpus, memory).

Definition getContainerInfo (container : PodContainer) : ContainerInfo + AgentError :=
  match getContainerResources (Requests container) with
  | inr err => inr err
  | inl (containerResuestedCpus, containerRequestedMemory) =>
      match getContainerResources (Limits container) with
      | inr err => inr err
      | inl (containerLimitCpus, containerLimitMemory) =>
          inl {| ContainerId := "";
                 ContainerName := pcName container;
                 ciResources :=
                   {| RequestedCpus := containerResuestedCpus;
                      LimitCpus := containerLimitCpus;
                      RequestedMemory := containerRequestedMemory;
                      LimitMemory := containerLimitMemory;
                      CpuAffinity := DEFAULT |} |}
      end
  end.

Definition getContainerID (name : string) (pod : Pod) : string :=
  match List.find (fun containerStatus => bool_decide (csName containerStatus = name))
                  (ContainerStatuses pod) with
  | Some containerStatus => csContainerID containerStatus
  | None => ""
  end.

(** The loop of [createPodResources] over [pod.Spec.Containers]. *)
Fixpoint createPodResources_loop (pod : Pod) (containers : list PodContainer)
         (podRequestedCpus podLimitCpus podRequestedMemory podLimitMemory : Z)
         (containerInfo : list ContainerInfo)
  : list ContainerInfo * option ResourceInfo * option AgentError :=
  match containers with
  | [] =>
      (containerInfo,
       Some {| RequestedCpus := podRequestedCpus;
               LimitCpus := podLimitCpus;
               RequestedMemory := podRequestedMemory;
               LimitMemory := podLimitMemory;
               CpuAffinity := DEFAULT |},
       None)
  | container :: rest =>
      match getContainerInfo container with
      | inr err => ([], None, Some err)
      | inl cInfo0 =>
          let cID := getContainerID (pcName container) pod in
          let cInfo := mkContainerInfo cID (ContainerName cInfo0) (ciResources cInfo0) in
          let podRequestedCpus := add32 podRequestedCpus (RequestedCpus (ciResources cInfo)) in
          if podRequestedCpus <? 0
          then (containerInfo, None, Some (ErrCountingOverflow "cpus request"))
          else
            let podLimitCpus := add32 podLimitCpus (LimitCpus (ciResources cInfo)) in
            if podLimitCpus <? 0
            then (containerInfo, None, Some (ErrCountingOverflow "cpus limit"))
            else
              let podRequestedMemory :=
                add32 podRequestedMemory (RequestedMemory (ciResources cInfo)) in
              if podRequestedMemory <? 0
              then (containerInfo, None, Some (ErrCountingOverflow "mem request"))
              else
                let podLimitMemory :=
                  add32 podLimitMemory (LimitMemory (ciResources cInfo)) in
                if podLimitMemory <? 0
                then (containerInfo, None, Some (ErrCountingOverflow "mem limit"))
                else
                  createPodResources_loop pod rest podRequestedCpus podLimitCpus
                    podRequestedMemory podLimitMemory (containerInfo ++ [cInfo])
      end
  end.

Definition createPodResources (pod : Pod)
  : list ContainerInfo * option ResourceInfo * option AgentError :=
  createPodResources_loop pod (specContainers pod) 0 0 0 0 [].

(** GetCreatePodRequest creates CreatePodRequest from pod spec. *)
Definition GetCreatePodRequest (pod : Pod) : option CreatePodRequest * option AgentError :=
  match createPodResources pod with
  | (_, _, Some err) => (None, Some err)
  | (containerInfo, Some resourceInfo, None) =>
      (Some {| PodId := UID pod;
               PodName := podName pod;
               PodNamespace := podNamespace pod;
               Resources := resourceInfo;
               Containers := containerInfo |}, None)
  | (_, None, None) => (None, None)
  end.

End Agent.

(** ** The words of the specification, and inputs of the examples *)

Module Examples.

Import Numautils Ctlplaneapi Cpudaemon.

(** The QoS class in the words of the specification: Guaranteed iff
    requested = limit > 0 for both CPU and memory; Burstable iff
    requested < limit for either; otherwise BestEffort. *)
Definition qosOfSpecification (r : ResourceInfo) : QoS :=
  if (RequestedCpus r =? LimitCpus r) && (0 <? RequestedCpus r)
     && (RequestedMemory r =? LimitMemory r) && (0 <? RequestedMemory r)
  then Guaranteed
  else if (RequestedCpus r <? LimitCpus r) || (RequestedMemory r <? LimitMemory r)
  then Burstable
  else BestEffort.

(** A container that requests one cpu, with limit one cpu, and no memory. *)
Definition cpuOnlyContainer : ContainerInfo :=
  mkContainerInfo "cid" "name" (mkResourceInfo 1 1 0 0 DEFAULT).

(** A controller whose calls all succeed. *)
Definition okController : CgroupController :=
  mkCgroupController (fun _ _ => None) [].

(** The state of the test suite for the default allocator: cpus 0-127. *)
Definition state128 : DaemonState :=
  mkDaemonState [mkCPUBucket 0 127] ∅ ∅ (oneLevelTopology 2) "/sys/fs/cgroup" "" "daemon.state".

Definition guaranteed (cid pid : string) (cpus : Z) : Container :=
  mkContainer cid pid cid cpus Guaranteed.

(** Orders of visit for the examples: the one of [map_to_list], and the
    sorted node ids. *)
Definition sortedNodes (nodes : gset Z) : list Z := Sorted nodes.
Definition keysOf {V : Type} (m : gmap string V) : list string := (map_to_list m).*1.
Definition podKeys (cid : string) (m : gmap string PodMetadata) : list string := keysOf m.

(** The state of the test suite for the per-namespace allocator: three pods
    in three namespaces, on a machine with [numCpus] cpus. *)
Definition testPods : gmap string PodMetadata :=
  <["pod1" := mkPodMetadata "pod1" "pod1_name" "pod1_namespace" []]>
    (<["pod2" := mkPodMetadata "pod2" "pod2_name" "pod2_namespace" []]>
       (<["pod3" := mkPodMetadata "pod3" "pod3_name" "pod3_namespace" []]> ∅)).

Definition testDaemonState (numCpus : nat) : DaemonState :=
  mkDaemonState [] ∅ testPods (oneLevelTopology numCpus) "/sys/fs/cgroup" "" "daemon.state".

Definition perNamespaceAllocator (numBuckets : Z) (exclusive : bool)
  : NumaPerNamespaceAllocator :=
  mkNumaPerNamespaceAllocator okController true exclusive numBuckets ∅ ∅ 0.

(** [addContainerToState] of the test suite. *)
Definition addContainerToState (s : DaemonState) (c : Container) : DaemonState :=
  let podMeta := podOf s (PID c) in
  set_Pods (<[PID c := mkPodMetadata (pmPID podMeta) (pmName podMeta) (Namespace podMeta)
                         (pmContainers podMeta ++ [c])]> (Pods s)) s.

(** A daemon with the static policy over the default allocator, the calls
    on the policy recorded, and the cpus 0-3 available; a request for a pod
    of three Guaranteed containers of 1, 1 and 5 cpus. *)
Definition rollbackDaemon : Daemon (Recorded (StaticPolicy DefaultAllocator)) :=
  mkDaemon
    (mkDaemonState [mkCPUBucket 0 3] ∅ ∅ (oneLevelTopology 4)
                   "/sys/fs/cgroup" "" "daemon.state")
    (mkRecorded (NewStaticPolocy (mkDefaultAllocator okController)) []).

Definition requestOf (cid : string) (cpus : Z) : ContainerInfo :=
  mkContainerInfo cid cid (mkResourceInfo cpus cpus 8 8 COMPACT).

Definition rollbackRequest : CreatePodRequest :=
  mkCreatePodRequest "testPid" "testPid" "testPid" (mkResourceInfo 7 7 24 24 COMPACT)
    [requestOf "testCid-0" 1; requestOf "testCid-1" 1; requestOf "testCid-2" 5].

(** A file system that accepts every write, and an encoder. *)
Definition writeOk (fs : list (string * string)) (path data : string)
  : list (string * string) * option error :=
  ((path, data) :: fs, None).
Definition marshalOk (s : DaemonState) : string + error := inl "{}".

Definition isClear (call : PolicyCall) : bool :=
  match call with CallClear _ => true | _ => false end.

(** The daemon of the example after the two assignments that succeed, and
    the outcome of the third. *)
Definition rollbackAssigned
  : Daemon (Recorded (StaticPolicy DefaultAllocator)) * PodMetadata :=
  default (rollbackDaemon, zeroPodMetadata)
    (assignAll rollbackRequest (mkPodMetadata "testPid" "testPid" "testPid" [])
       [requestOf "testCid-0" 1; requestOf "testCid-1" 1]
       (withPod rollbackRequest rollbackDaemon)).

Definition rollbackFailure
  : Recorded (StaticPolicy DefaultAllocator) * DaemonState * option error :=
  AssignContainer (policy (fst rollbackAssigned))
    (containerFromRequest (requestOf "testCid-2" 5) "testPid")
    (state (fst rollbackAssigned)).

(** The fourth scenario of the specification: exclusive mode, 4 cpus in 2
    buckets, a Burstable container of pod1 and then a Guaranteed one. *)
Definition burstableContainer : Container :=
  mkContainer "cid2" "pod1" "cid2_name" 1 Burstable.
Definition guaranteedContainer : Container :=
  mkContainer "cid1" "pod1" "cid1_name" 1 Guaranteed.

Definition exclusiveTake (d : NumaPerNamespaceAllocator) (c : Container) (s : DaemonState)
  : NumaPerNamespaceAllocator * DaemonState * option error :=
  PerNamespace_takeCpus sortedNodes keysOf podKeys d c s.
Definition exclusiveFree (d : NumaPerNamespaceAllocator) (c : Container) (s : DaemonState)
  : NumaPerNamespaceAllocator * DaemonState * option error :=
  PerNamespace_freeCpus sortedNodes keysOf podKeys d c s.

Definition afterBurstable : NumaPerNamespaceAllocator * DaemonState :=
  let '(d, s, _) := exclusiveTake (perNamespaceAllocator 2 true) burstableContainer
                      (testDaemonState 4) in
  (d, addContainerToState s burstableContainer).

Definition afterGuaranteed : NumaPerNamespaceAllocator * DaemonState :=
  let '(d, s, _) := exclusiveTake (fst afterBurstable) guaranteedContainer
                      (snd afterBurstable) in
  (d, addContainerToState s guaranteedContainer).

(** A decoder that takes the whole file for the path of the state. *)
Definition pathOverwritingUnmarshal (b : string) (d : DaemonState)
  : DaemonState * option error :=
  (set_StatePath b d, None).

(** *** The agent *)

Import Agent.

(** A quantity that [getContainerResources] accepts. *)
Definition inInt32Range (q : Quantity) : Prop :=
  representable q = true /\ 0 <= int64Value q <= MaxInt32.

Definition convertible (c : PodContainer) : Prop :=
  inInt32Range (rlCpu (Requests c)) /\ inInt32Range (rlMemory (Requests c))
  /\ inInt32Range (rlCpu (Limits c)) /\ inInt32Range (rlMemory (Limits c)).

(** The true sum of a quantity over the containers of a pod. *)
Definition total (f : PodContainer -> Quantity) (containers : list PodContainer) : Z :=
  fold_right (fun c acc => int64Value (f c) + acc) 0 containers.

Definition quantity (v : Z) : Quantity := mkQuantity v true.

(** A pod with one container, which requests 2^31 cpus. *)
Definition hugePod : Pod :=
  mkPod "uid" "mypod" "default"
        [mkPodContainer "c1"
           (mkResourceList (quantity (2 ^ 31)) (quantity 1))
           (mkResourceList (quantity (2 ^ 31)) (quantity 1))]
        [mkContainerStatus "c1" "containerd://c1"].

(** The pod of the overflow test: 1 and [MaxInt32] requested cpus. *)
Definition overflowPod : Pod :=
  mkPod "uid" "mypod" "default"
        [mkPodContainer "c1"
           (mkResourceList (quantity 1) (quantity 1))
           (mkResourceList (quantity 1) (quantity 1));
         mkPodContainer "c2"
           (mkResourceList (quantity MaxInt32) (quantity 1))
           (mkResourceList (quantity MaxInt32) (quantity 1))]
        [mkContainerStatus "c1" "containerd://c1";
         mkContainerStatus "c2" "containerd://c2"].

(** Resources that the validation accepts: no number is negative and no
    request is larger than its limit. *)
Definition validResources (r : ResourceInfo) : Prop :=
  0 <= RequestedCpus r <= LimitCpus r /\ 0 <= RequestedMemory r <= LimitMemory r.

(** A container that the validation accepts. *)
Definition validContainer (c : ContainerInfo) : Prop :=
  ContainerId c <> "" /\ ContainerName c <> "" /\ validResources (ciResources c).

(** The container of a request that the agent makes from a container of a
    pod: the name, the id that the status of that name gives, and the four
    quantities, each between 0 and [MaxInt32]. *)
Definition convertedFrom (pod : Pod) (c : PodContainer) (info : ContainerInfo) : Prop :=
  convertible c
  /\ ContainerName info = pcName c
  /\ ContainerId info = getContainerID (pcName c) pod
  /\ RequestedCpus (ciResources info) = int64Value (rlCpu (Requests c))
  /\ LimitCpus (ciResources info) = int64Value (rlCpu (Limits c))
  /\ RequestedMemory (ciResources info) = int64Value (rlMemory (Requests c))
  /\ LimitMemory (ciResources info) = int64Value (rlMemory (Limits c)).

End Examples.

(** * Properties *)

Import GoInt Numautils Ctlplaneapi Cpudaemon Agent Examples.

(** ** Go's integers *)

Lemma wrap64_id (z : Z) : MinInt64 <= z <= MaxInt64 -> wrap64 z = z.
Proof.
  unfold wrap64, MinInt64, MaxInt64.
  change (2 ^ 63) with 9223372036854775808.
  change (2 ^ 64) with 18446744073709551616.
  intros Hz. rewrite Z.mod_small by lia. lia.
Qed.

Lemma add64_exact (a b : Z) : MinInt64 <= a + b <= MaxInt64 -> add64 a b = a + b.
Proof. apply wrap64_id. Qed.

Lemma sub64_exact (a b : Z) : MinInt64 <= a - b <= MaxInt64 -> sub64 a b = a - b.
Proof. apply wrap64_id. Qed.

Lemma add64_succ (a : Z) : MinInt64 <= a < MaxInt64 -> add64 a 1 = a + 1.
Proof. intros Ha. apply add64_exact. lia. Qed.

(** ** Topology *)

(** Induction on a tree, with the property on the children. *)
Lemma TopologyNode_Forall_ind (Q : TopologyNode -> Prop) :
  (forall inf avail cs, Forall Q cs -> Q (TNode inf avail cs)) ->
  forall t, Q t.
Proof.
  intros step. fix IH 1. intros [inf avail cs]. apply step.
  induction cs as [|c cs IHcs]; constructor; [apply IH | exact IHcs].
Qed.

Arguments find : simpl never.

Lemma find_unfold (comparator : TopologyNode -> bool) (t : TopologyNode) :
  find comparator t =
  if comparator t then Some ([], t)
  else find_children (find comparator) (Children t) 0.
Proof. destruct t; reflexivity. Qed.

(** What the loop over the children finds: the first child, from index [k],
    in which the search succeeds. *)
Lemma find_children_Some rec cs k q node :
  find_children rec cs k = Some (q, node) <->
  exists j child p,
    q = (k + j)%nat :: p /\ cs !! j = Some child /\ rec child = Some (p, node)
    /\ forall j' c', (j' < j)%nat -> cs !! j' = Some c' -> rec c' = None.
Proof.
  revert k. induction cs as [|c cs IH]; intros k; simpl.
  - split; [discriminate | intros (j & child & p & _ & Hj & _); by destruct j].
  - destruct (rec c) as [[p0 n0]|] eqn:Hc.
    + split.
      * intros [= <- <-]. exists 0%nat, c, p0.
        rewrite Nat.add_0_r. repeat split; auto. intros; lia.
      * intros (j & child & p & -> & Hj & Hrec & Hbefore).
        destruct j as [|j].
        -- simpl in Hj. injection Hj as <-. rewrite Nat.add_0_r.
           rewrite Hc in Hrec. by injection Hrec as <- <-.
        -- specialize (Hbefore 0%nat c ltac:(lia) eq_refl). congruence.
    + rewrite IH. split.
      * intros (j & child & p & -> & Hj & Hrec & Hbefore).
        exists (S j), child, p. repeat split; auto.
        -- f_equal. lia.
        -- intros [|j'] c' Hlt Hc'; simpl in Hc'.
           ++ congruence.
           ++ apply (Hbefore j'); [lia | done].
      * intros (j & child & p & -> & Hj & Hrec & Hbefore).
        destruct j as [|j]; simpl in Hj.
        -- congruence.
        -- exists j, child, p. repeat split; auto.
           ++ f_equal. lia.
           ++ intros j' c' Hlt Hc'. apply (Hbefore (S j')); [lia | done].
Qed.

Lemma find_sound (comparator : TopologyNode -> bool) (t : TopologyNode) :
  forall p node,
    find comparator t = Some (p, node) ->
    nodeAt p t = Some node /\ comparator node = true.
Proof.
  induction t as [inf avail cs IH] using TopologyNode_Forall_ind.
  intros p node. rewrite find_unfold.
  destruct (comparator (TNode inf avail cs)) eqn:Hcmp.
  - intros [= <- <-]. by split.
  - simpl. intros (j & child & p' & -> & Hj & Hrec & _)%find_children_Some.
    rewrite Forall_lookup in IH.
    destruct (IH j child Hj p' node Hrec) as [Hat Hnode].
    split; [|done]. by simpl; rewrite Hj.
Qed.

(** The comparator of [Return] and [FindCpu] reads the value of a node and
    whether it has children, not its counter. *)
Lemma isCpu_counter cpuID inf avail avail' cs cs' :
  length cs = length cs' ->
  isCpu cpuID (TNode inf avail cs) = isCpu cpuID (TNode inf avail' cs').
Proof.
  intros Hlen. unfold isCpu, IsLeaf, nodeValue. simpl.
  destruct cs, cs'; simpl in *; done.
Qed.

Lemma incrPath_root p t :
  exists cs', incrPath p t = TNode (info t) (add64 (NumAvailable t) 1) cs'
              /\ length cs' = length (Children t).
Proof.
  destruct p as [|i p]; simpl.
  - by eexists.
  - destruct (Children t !! i); eexists; split; try done.
    by rewrite length_insert.
Qed.

Lemma find_isCpu_incrPath cpuID (t : TopologyNode) :
  forall p leaf,
    find (isCpu cpuID) t = Some (p, leaf) ->
    find (isCpu cpuID) (incrPath p t)
    = Some (p, TNode (info leaf) (add64 (NumAvailable leaf) 1) (Children leaf)).
Proof.
  induction t as [inf avail cs IH] using TopologyNode_Forall_ind.
  intros p leaf. rewrite find_unfold.
  destruct (isCpu cpuID (TNode inf avail cs)) eqn:Hcmp.
  - intros [= <- <-]. simpl. rewrite find_unfold.
    by rewrite (isCpu_counter _ _ _ avail _ cs), Hcmp.
  - simpl. intros (j & child & p' & -> & Hj & Hrec & Hbefore)%find_children_Some.
    simpl. rewrite Hj. rewrite find_unfold.
    rewrite (isCpu_counter _ _ _ avail _ cs), Hcmp by (by rewrite length_insert).
    simpl. apply find_children_Some.
    exists j, (incrPath p' child), p'. repeat split.
    + apply list_lookup_insert_eq. by eapply lookup_lt_Some.
    + rewrite Forall_lookup in IH. by apply (IH j child Hj).
    + intros j' c' Hlt Hc'. rewrite list_lookup_insert_ne in Hc' by lia.
      by apply (Hbefore j').
Qed.

(** The counters after [incrPath]: one more on the prefixes of the position
    of the leaf, the same elsewhere. *)
Lemma nodeAt_incrPath p :
  forall t leaf q,
    nodeAt p t = Some leaf ->
    NumAvailable <$> nodeAt q (incrPath p t)
    = (fun a => if bool_decide (q `prefix_of` p) then add64 a 1 else a)
        <$> (NumAvailable <$> nodeAt q t).
Proof.
  induction p as [|i p IH]; intros t leaf q Hat.
  - case_bool_decide as Hpre.
    + apply prefix_nil_inv in Hpre as ->. done.
    + destruct q as [|j q]; [by destruct Hpre|].
      cbn [incrPath nodeAt Children].
      destruct (Children t !! j) as [c|]; [|done].
      by destruct (nodeAt q c).
  - cbn [nodeAt] in Hat. destruct (Children t !! i) as [c|] eqn:Hi; [|done].
    cbn [incrPath]. rewrite Hi.
    destruct q as [|j q].
    + rewrite bool_decide_eq_true_2 by apply prefix_nil. done.
    + cbn [nodeAt Children].
      destruct (decide (j = i)) as [->|Hne].
      * rewrite list_lookup_insert_eq by (by eapply lookup_lt_Some).
        rewrite Hi. rewrite (IH c leaf q Hat).
        destruct (nodeAt q c); [|done]. cbn. f_equal.
        destruct (decide (q `prefix_of` p)) as [Hpre|Hpre].
        -- rewrite !bool_decide_eq_true_2; [done | by apply prefix_cons | done].
        -- rewrite !bool_decide_eq_false_2; [done | | done].
           intros Hpre'. by apply prefix_cons_inv_2 in Hpre'.
      * rewrite list_lookup_insert_ne by done.
        destruct (Children t !! j) as [c'|]; [|done].
        destruct (nodeAt q c'); [|done]. cbn. f_equal.
        rewrite bool_decide_eq_false_2; [done|].
        intros Hpre'. by apply prefix_cons_inv_1 in Hpre'.
Qed.

(** C8.  [Return cpuID] increments the counter of every node on the path
    from the root to the leaf of [cpuID], and of no other node, exactly when
    the counter of that leaf is 0; when it is not, the topology is left as
    it is; in every case a second [Return cpuID] changes nothing more and
    returns what the first one returned. *)
Theorem Return_increments_path_when_taken (t : NumaTopology) (cpuID : Z) :
  Return (fst (Return t cpuID)) cpuID = Return t cpuID
  /\ forall p leaf,
      find (isCpu cpuID) (Topology t) = Some (p, leaf) ->
      nodeAt p (Topology t) = Some leaf
      /\ IsLeaf leaf = true /\ nodeValue leaf = cpuID
      /\ snd (Return t cpuID) = None
      /\ CpuInformation (fst (Return t cpuID)) = CpuInformation t
      /\ (NumAvailable leaf = 0 ->
          forall q,
            NumAvailable <$> nodeAt q (Topology (fst (Return t cpuID)))
            = (fun a => if bool_decide (q `prefix_of` p) then add64 a 1 else a)
                <$> (NumAvailable <$> nodeAt q (Topology t)))
      /\ (NumAvailable leaf <> 0 -> fst (Return t cpuID) = t).
Proof.
  split.
  - unfold Return at 2 3.
    destruct (find (isCpu cpuID) (Topology t)) as [[p leaf]|] eqn:Hfind; simpl.
    + destruct (NumAvailable leaf =? 0) eqn:Hz; simpl.
      * unfold Return. simpl.
        rewrite (find_isCpu_incrPath _ _ _ _ Hfind). simpl.
        apply Z.eqb_eq in Hz. rewrite Hz. done.
      * unfold Return. by rewrite Hfind, Hz.
    + unfold Return. by rewrite Hfind.
  - intros p leaf Hfind.
    destruct (find_sound _ _ _ _ Hfind) as [Hat Hcmp].
    unfold isCpu in Hcmp. apply andb_true_iff in Hcmp as [Hleaf Hval].
    apply Z.eqb_eq in Hval.
    unfold Return. rewrite Hfind.
    repeat split; try done.
    + by destruct (NumAvailable leaf =? 0).
    + by destruct (NumAvailable leaf =? 0).
    + intros Hz q. rewrite Hz. simpl. by apply nodeAt_incrPath with leaf.
    + intros Hnz. apply Z.eqb_neq in Hnz. by rewrite Hnz.
Qed.

(** The theorem at the test machine after [Take 2], which takes the cpus 1
    and 3: the return of cpu 1 raises the counters of its core, its node
    and the machine. *)
Lemma Return_increments_path_when_taken_witness :
  let t := applyOps [OpTake 2] testTopology in
  find (isCpu 1) (Topology t) = Some ([0; 0; 0]%nat, TNode (mkNodeInfo Cpu 1) 0 [])
  /\ NumAvailable <$> nodeAt [0; 0]%nat (Topology (fst (Return t 1))) = Some 1
  /\ NumAvailable <$> nodeAt [0; 1]%nat (Topology (fst (Return t 1))) = Some 2
  /\ Return (fst (Return t 1)) 1 = Return t 1.
Proof.
  intros t.
  assert (Hfind : find (isCpu 1) (Topology t)
                  = Some ([0; 0; 0]%nat, TNode (mkNodeInfo Cpu 1) 0 []))
    by (vm_compute; reflexivity).
  destruct (Return_increments_path_when_taken t 1) as [Hidem Hpath].
  destruct (Hpath _ _ Hfind) as (_ & _ & _ & _ & _ & Htaken & _).
  split; [exact Hfind|].
  split; [rewrite (Htaken eq_refl); vm_compute; reflexivity|].
  split; [rewrite (Htaken eq_refl); vm_compute; reflexivity|].
  exact Hidem.
Defined.

(** C3.  On the machine with the two cpus 0 and 1, all free, [Take 0]
    returns the cpu 0 and no error, and marks the leaf of cpu 0 as taken,
    where the specification has it return no cpu and change no counter. *)
Theorem Take_zero_takes_a_cpu :
  let t := oneLevelTopology 2 in
  Topology t = TNode (mkNodeInfo Machine 0) 2
                 [TNode (mkNodeInfo Cpu 0) 1 []; TNode (mkNodeInfo Cpu 1) 1 []]
  /\ Take t 0
     = ({| Topology := TNode (mkNodeInfo Machine 0) 2
                         [TNode (mkNodeInfo Cpu 0) 0 []; TNode (mkNodeInfo Cpu 1) 1 []];
           CpuInformation := CpuInformation t |},
        [0], None).
Proof. split; vm_compute; reflexivity. Qed.

(** C4.  The state reached from the freshly built machine with two cpus by
    [Take 0] breaks the invariant: the machine holds 2 and its children
    hold 0 and 1. *)
Theorem sum_invariant_broken_by_Take_zero :
  sumsHold (Topology (oneLevelTopology 2)) = true
  /\ sumsHold (Topology (applyOps [OpTake 0] (oneLevelTopology 2))) = false
  /\ verifyNumAvailable (Topology (applyOps [OpTake 0] (oneLevelTopology 2))) = false.
Proof. repeat split; vm_compute; reflexivity. Qed.

(** ** The invariant of the counters under [Take n], [n >= 1], and [Return] *)

Lemma leafCount_node inf avail c cs :
  leafCount (TNode inf avail (c :: cs)) = sumLeaves (c :: cs).
Proof. reflexivity. Qed.

Lemma leafCount_nonleaf inf avail cs :
  cs <> [] -> leafCount (TNode inf avail cs) = sumLeaves cs.
Proof. by destruct cs. Qed.

Lemma leafCount_leaf inf avail : leafCount (TNode inf avail []) = 1.
Proof. reflexivity. Qed.

Arguments leafCount : simpl never.
Arguments sumLeaves : simpl never.
Arguments sumAvailable : simpl never.

Lemma CountersOK_intro inf avail cs :
  cs <> [] -> Forall CountersOK cs -> avail = sumAvailable cs ->
  CountersOK (TNode inf avail cs).
Proof. destruct cs as [|c cs]; [done|]. intros _. by constructor. Qed.

Lemma CountersOK_children inf avail cs :
  cs <> [] -> CountersOK (TNode inf avail cs) ->
  Forall CountersOK cs /\ avail = sumAvailable cs.
Proof. intros Hne Hok. inversion Hok; subst; done. Qed.

Lemma sumLeaves_cons (c : TopologyNode) (cs : list TopologyNode) :
  sumLeaves (c :: cs) = leafCount c + sumLeaves cs.
Proof. reflexivity. Qed.

Lemma sumAvailable_cons (c : TopologyNode) (cs : list TopologyNode) :
  sumAvailable (c :: cs) = NumAvailable c + sumAvailable cs.
Proof. reflexivity. Qed.

Lemma sumAvailable_insert (cs : list TopologyNode) (i : nat) (c c' : TopologyNode) :
  cs !! i = Some c ->
  sumAvailable (<[i := c']> cs) = sumAvailable cs - NumAvailable c + NumAvailable c'.
Proof.
  revert i. induction cs as [|c0 cs IH]; intros [|i] Hi; simpl in *; try done.
  - injection Hi as ->. rewrite !sumAvailable_cons. lia.
  - rewrite !sumAvailable_cons, (IH i Hi). lia.
Qed.

Lemma sumLeaves_insert (cs : list TopologyNode) (i : nat) (c c' : TopologyNode) :
  cs !! i = Some c ->
  sumLeaves (<[i := c']> cs) = sumLeaves cs - leafCount c + leafCount c'.
Proof.
  revert i. induction cs as [|c0 cs IH]; intros [|i] Hi; simpl in *; try done.
  - injection Hi as ->. rewrite !sumLeaves_cons. lia.
  - rewrite !sumLeaves_cons, (IH i Hi). lia.
Qed.

Lemma leafCount_positive (t : TopologyNode) : 1 <= leafCount t.
Proof.
  induction t as [inf avail cs IH] using TopologyNode_Forall_ind.
  destruct cs as [|c cs]; [done|]. rewrite leafCount_node, sumLeaves_cons.
  apply Forall_cons in IH as [Hc Hcs].
  assert (0 <= sumLeaves cs); [|lia].
  clear Hc. induction Hcs; [done|]. rewrite sumLeaves_cons. lia.
Qed.

Lemma sumLeaves_nonneg (cs : list TopologyNode) : 0 <= sumLeaves cs.
Proof.
  induction cs as [|c cs IH]; [done|]. rewrite sumLeaves_cons.
  pose proof (leafCount_positive c). lia.
Qed.

Lemma sums_bounded (cs : list TopologyNode) :
  Forall (fun c => 0 <= NumAvailable c <= leafCount c) cs ->
  0 <= sumAvailable cs <= sumLeaves cs.
Proof.
  induction 1; [done|]. rewrite sumAvailable_cons, sumLeaves_cons. lia.
Qed.

(** A counter lies between 0 and the number of leaves below the node. *)
Lemma CountersOK_bounds (t : TopologyNode) :
  CountersOK t -> 0 <= NumAvailable t <= leafCount t.
Proof.
  induction t as [inf avail cs IH] using TopologyNode_Forall_ind. intros Hok.
  destruct cs as [|c cs].
  - inversion Hok; subst. rewrite leafCount_leaf. cbn [NumAvailable]. lia.
  - apply CountersOK_children in Hok as [Hcs ->]; [|done]. cbn [NumAvailable].
    rewrite leafCount_node. apply sums_bounded.
    rewrite Forall_forall in IH, Hcs. apply Forall_forall. intros x Hx.
    apply IH; [done|]. by apply Hcs.
Qed.

Lemma sumAvailable_nonneg (cs : list TopologyNode) :
  Forall CountersOK cs -> 0 <= sumAvailable cs.
Proof.
  induction 1 as [|c cs Hc Hcs IH]; [done|]. rewrite sumAvailable_cons.
  pose proof (CountersOK_bounds c Hc). lia.
Qed.

Lemma sumLeaves_lookup (cs : list TopologyNode) (i : nat) (c : TopologyNode) :
  cs !! i = Some c -> leafCount c <= sumLeaves cs.
Proof.
  revert i. induction cs as [|c0 cs IH]; intros [|i] Hi; simpl in Hi; try done.
  - injection Hi as ->. rewrite sumLeaves_cons. pose proof (sumLeaves_nonneg cs). lia.
  - rewrite sumLeaves_cons. specialize (IH i Hi).
    pose proof (leafCount_positive c0). lia.
Qed.

Lemma sumAvailable_lookup (cs : list TopologyNode) (i : nat) (c : TopologyNode) :
  Forall CountersOK cs -> cs !! i = Some c -> NumAvailable c <= sumAvailable cs.
Proof.
  intros Hcs. revert i. induction Hcs as [|c0 cs Hc0 Hcs IH]; intros [|i] Hi;
    simpl in Hi; try done.
  - injection Hi as ->. rewrite sumAvailable_cons.
    pose proof (sumAvailable_nonneg cs Hcs). lia.
  - rewrite sumAvailable_cons. specialize (IH i Hi).
    pose proof (CountersOK_bounds c0 Hc0). lia.
Qed.

(** The counter of a node is at most the counter of a node above it. *)
Lemma CountersOK_nodeAt (p : list nat) :
  forall t l,
    CountersOK t -> nodeAt p t = Some l ->
    CountersOK l /\ NumAvailable l <= NumAvailable t /\ leafCount l <= leafCount t.
Proof.
  induction p as [|i p IH]; intros t l Hok Hat; simpl in Hat.
  - injection Hat as <-. repeat split; [done | lia | lia].
  - destruct t as [inf avail cs]. simpl in Hat.
    destruct (cs !! i) as [c|] eqn:Hi; [|done].
    assert (Hne : cs <> []) by (intros ->; done).
    apply CountersOK_children in Hok as [Hcs ->]; [|done].
    assert (Hc : CountersOK c) by (rewrite Forall_lookup in Hcs; by apply (Hcs i)).
    destruct (IH c l Hc Hat) as (Hl & Havail & Hleaves).
    split; [done|]. cbn [NumAvailable]. rewrite (leafCount_nonleaf _ _ _ Hne).
    pose proof (sumAvailable_lookup cs i c Hcs Hi).
    pose proof (sumLeaves_lookup cs i c Hi). lia.
Qed.

Arguments takeLeaves : simpl never.

Lemma takeLeaves_unfold (t : TopologyNode) (n : Z) :
  takeLeaves t n =
  if NumAvailable t <? n then (t, [], Some ErrNotAvailable)
  else
    match Children t with
    | [] => (TNode (info t) 0 [], [TNode (info t) 0 []], None)
    | _ :: _ =>
        if n <? 0 then (t, [], Some PanicMakeslice) else
        match takeLeaves_children takeLeaves n (Children t) [] with
        | (cs', _, Some e) =>
            (TNode (info t) (NumAvailable t) cs', [TNode (info t) (NumAvailable t) cs'],
             Some e)
        | (cs', leaves, None) =>
            (TNode (info t) (sub64 (NumAvailable t) n) cs', leaves, None)
        end
    end.
Proof. destruct t as [inf avail [|c cs]]; reflexivity. Qed.

Lemma takeLeaves_children_cons rec n child rest leaves :
  takeLeaves_children rec n (child :: rest) leaves =
  if NumAvailable child =? 0
  then let '(rest', leaves', err) := takeLeaves_children rec n rest leaves in
       (child :: rest', leaves', err)
  else
    let leavesToTake := sub64 n (Z.of_nat (length leaves)) in
    let leavesToTake :=
      if NumAvailable child <? leavesToTake then NumAvailable child else leavesToTake in
    let '(child', takenLeaves, err) := rec child leavesToTake in
    match err with
    | Some e => (child' :: rest, leaves, Some e)
    | None =>
        let leaves1 := leaves ++ takenLeaves in
        if Z.of_nat (length leaves1) =? n
        then (child' :: rest, leaves1, None)
        else let '(rest', leaves', err') := takeLeaves_children rec n rest leaves1 in
             (child' :: rest', leaves', err')
    end.
Proof. reflexivity. Qed.

(** The loop of [takeLeaves] takes the leaves that are still asked for from
    children that hold enough of them. *)
Lemma takeLeaves_children_ok (n : Z) (cs : list TopologyNode) :
  Forall (fun c =>
            forall m, 1 <= m <= NumAvailable c ->
                      exists c' taken,
                        takeLeaves c m = (c', taken, None)
                        /\ CountersOK c'
                        /\ NumAvailable c' = NumAvailable c - m
                        /\ leafCount c' = leafCount c
                        /\ Z.of_nat (length taken) = m) cs ->
  Forall CountersOK cs ->
  n <= MaxInt64 ->
  forall leaves,
    Z.of_nat (length leaves) < n ->
    n - Z.of_nat (length leaves) <= sumAvailable cs ->
    exists cs' leaves',
      takeLeaves_children takeLeaves n cs leaves = (cs', leaves', None)
      /\ Forall CountersOK cs'
      /\ sumAvailable cs' = sumAvailable cs - (n - Z.of_nat (length leaves))
      /\ sumLeaves cs' = sumLeaves cs
      /\ Z.of_nat (length leaves') = n
      /\ length cs' = length cs.
Proof.
  intros Htake Hok Hn.
  induction cs as [|c rest IH]; intros leaves Hlen Hsum.
  - unfold sumAvailable in Hsum. simpl in Hsum. lia.
  - apply Forall_cons in Htake as [Htakec Htake].
    apply Forall_cons in Hok as [Hc Hrest].
    specialize (IH Htake Hrest).
    rewrite takeLeaves_children_cons. rewrite sumAvailable_cons in Hsum.
    pose proof (CountersOK_bounds c Hc) as Hbounds.
    destruct (Z.eqb_spec (NumAvailable c) 0) as [Hzero|Hnonzero].
    + destruct (IH leaves Hlen ltac:(lia))
        as (rest' & leaves' & -> & Hrest' & Hsum' & Hleaves' & Hlen' & Hlength).
      exists (c :: rest'), leaves'. repeat split; try done.
      * by constructor.
      * rewrite !sumAvailable_cons. lia.
      * rewrite !sumLeaves_cons. lia.
      * simpl. lia.
    + cbv zeta.
      assert (Hmin : MinInt64 = -9223372036854775808) by reflexivity.
      assert (Hmax : MaxInt64 = 9223372036854775807) by reflexivity.
      rewrite (sub64_exact n) by lia.
      set (leavesToTake := if NumAvailable c <? n - Z.of_nat (length leaves)
                           then NumAvailable c else n - Z.of_nat (length leaves)).
      assert (Hltt : 1 <= leavesToTake <= NumAvailable c
                     /\ leavesToTake <= n - Z.of_nat (length leaves)
                     /\ (leavesToTake < n - Z.of_nat (length leaves) ->
                         leavesToTake = NumAvailable c)).
      { subst leavesToTake.
        destruct (Z.ltb_spec (NumAvailable c) (n - Z.of_nat (length leaves))); lia. }
      destruct Hltt as (Hltt1 & Hltt2 & Hltt3).
      destruct (Htakec leavesToTake Hltt1)
        as (c' & taken & -> & Hc' & Havail' & Hleaves' & Htaken).
      rewrite length_app, Nat2Z.inj_add.
      destruct (Z.eqb_spec (Z.of_nat (length leaves) + Z.of_nat (length taken)) n)
        as [Hdone|Hmore].
      * exists (c' :: rest), (leaves ++ taken). repeat split.
        -- by constructor.
        -- rewrite !sumAvailable_cons. lia.
        -- rewrite !sumLeaves_cons. lia.
        -- rewrite length_app, Nat2Z.inj_add. lia.
      * destruct (IH (leaves ++ taken))
          as (rest' & leaves' & -> & Hrest' & Hsum' & Hleavesr & Hlen' & Hlength).
        -- rewrite length_app, Nat2Z.inj_add. lia.
        -- rewrite length_app, Nat2Z.inj_add. lia.
        -- rewrite length_app, Nat2Z.inj_add in Hsum'.
           exists (c' :: rest'), leaves'. repeat split; try done.
           ++ by constructor.
           ++ rewrite !sumAvailable_cons. lia.
           ++ rewrite !sumLeaves_cons. lia.
           ++ simpl. lia.
Qed.

(** [takeLeaves n] on a node that holds [n] leaves at least, for [n >= 1]:
    the leaves are taken and the counters below the node are right again. *)
Lemma takeLeaves_ok (t : TopologyNode) :
  leafCount t <= MaxInt64 ->
  CountersOK t ->
  forall n, 1 <= n <= NumAvailable t ->
            exists t' leaves,
              takeLeaves t n = (t', leaves, None)
              /\ CountersOK t'
              /\ NumAvailable t' = NumAvailable t - n
              /\ leafCount t' = leafCount t
              /\ Z.of_nat (length leaves) = n.
Proof.
  induction t as [inf avail cs IH] using TopologyNode_Forall_ind.
  intros Hleaves Hok n Hn. cbn [NumAvailable] in Hn.
  rewrite takeLeaves_unfold. cbn [NumAvailable Children info].
  destruct (Z.ltb_spec avail n) as [|_]; [lia|].
  destruct cs as [|c cs].
  - inversion Hok; subst.
    exists (TNode inf 0 []), [TNode inf 0 []]. repeat split.
    + constructor. by left.
    + cbn [NumAvailable]. lia.
    + simpl. lia.
  - apply CountersOK_children in Hok as [Hcs ->]; [|done].
    rewrite leafCount_node in Hleaves.
    assert (Hb : 0 <= sumAvailable (c :: cs) <= sumLeaves (c :: cs)).
    { apply sums_bounded. eapply Forall_impl; [exact Hcs|]. apply CountersOK_bounds. }
    assert (Hbound : n <= MaxInt64) by lia.
    destruct (Z.ltb_spec n 0) as [|_]; [lia|].
    destruct (takeLeaves_children_ok n (c :: cs)) with (leaves := @nil TopologyNode)
      as (cs' & leaves' & -> & Hcs' & Hsum' & Hleaves' & Hlen' & Hlength);
      try done.
    + rewrite Forall_forall in IH, Hcs. apply Forall_forall. intros x Hx m Hm.
      apply IH; [done | | by apply Hcs | done].
      apply list_elem_of_lookup in Hx as [i Hi].
      pose proof (sumLeaves_lookup _ _ _ Hi). lia.
    + simpl. lia.
    + simpl. lia.
    + simpl in Hsum'.
      assert (Hmin : MinInt64 = -9223372036854775808) by reflexivity.
      rewrite sub64_exact by lia.
      exists (TNode inf (sumAvailable (c :: cs) - n) cs'), leaves'.
      assert (Hne : cs' <> []) by (intros ->; done).
      repeat split; try done.
      * apply CountersOK_intro; [done | done | lia].
      * rewrite (leafCount_nonleaf _ _ _ Hne), leafCount_node. done.
Qed.

Arguments findLowestNodeWithEnoughAvailability : simpl never.

Lemma findLowest_unfold (t : TopologyNode) (n currentLevel : Z) :
  findLowestNodeWithEnoughAvailability t n currentLevel =
  if NumAvailable t <? n then None
  else
    match findLowest_children
            (fun child => findLowestNodeWithEnoughAvailability child n (add64 currentLevel 1))
            (Children t) 0 None 0 with
    | (None, _) => Some ([], t, currentLevel)
    | (Some (p, level), bestLevelNum) => Some (p, level, bestLevelNum)
    end.
Proof. destruct t; reflexivity. Qed.

(** The node that the loop keeps is the one it started with or a node found
    below one of the children. *)
Lemma findLowest_children_Some rec cs :
  forall i bestLevel bestLevelNum q l num,
    findLowest_children rec cs i bestLevel bestLevelNum = (Some (q, l), num) ->
    bestLevel = Some (q, l)
    \/ exists j child p levelNum,
        q = (i + j)%nat :: p /\ cs !! j = Some child
        /\ rec child = Some (p, l, levelNum).
Proof.
  induction cs as [|c cs IH]; intros i bestLevel bestLevelNum q l num; simpl.
  - intros [= -> _]. by left.
  - destruct (rec c) as [[[p0 l0] n0]|] eqn:Hc.
    + destruct (bestLevelNum <? n0).
      * intros Hloop. apply IH in Hloop as [[= <- <-]|(j & child & p & m & -> & Hj & Hrec)].
        -- right. exists 0%nat, c, p0, n0. by rewrite Nat.add_0_r.
        -- right. exists (S j), child, p, m. repeat split; [f_equal; lia | done | done].
      * intros Hloop. apply IH in Hloop as [?|(j & child & p & m & -> & Hj & Hrec)].
        -- by left.
        -- right. exists (S j), child, p, m. repeat split; [f_equal; lia | done | done].
    + intros Hloop. apply IH in Hloop as [?|(j & child & p & m & -> & Hj & Hrec)].
      * by left.
      * right. exists (S j), child, p, m. repeat split; [f_equal; lia | done | done].
Qed.

(** The node found holds [n] leaves at least, at the position returned. *)
Lemma findLowest_sound (t : TopologyNode) :
  forall n currentLevel p l levelNum,
    findLowestNodeWithEnoughAvailability t n currentLevel = Some (p, l, levelNum) ->
    nodeAt p t = Some l /\ n <= NumAvailable l.
Proof.
  induction t as [inf avail cs IH] using TopologyNode_Forall_ind.
  intros n currentLevel p l levelNum. rewrite findLowest_unfold.
  cbn [NumAvailable Children].
  destruct (Z.ltb_spec avail n) as [|Hge]; [done|].
  destruct (findLowest_children _ cs 0 None 0) as [[[q l']|] num] eqn:Hloop.
  - intros [= <- <- <-].
    apply findLowest_children_Some in Hloop
      as [?|(j & child & p' & m & -> & Hj & Hrec)]; [done|].
    rewrite Forall_lookup in IH.
    destruct (IH j child Hj _ _ _ _ _ Hrec) as [Hat Hn].
    split; [|done]. simpl. by rewrite Hj.
  - intros [= <- <- <-]. split; [done|]. simpl. lia.
Qed.

(** The update of [Take] along the position of the node in which the leaves
    were taken. *)
Lemma subPredecessors_replaceAt_ok (p : list nat) :
  forall t l l' n,
    CountersOK t ->
    leafCount t <= MaxInt64 ->
    nodeAt p t = Some l ->
    0 <= n <= NumAvailable l ->
    CountersOK l' ->
    NumAvailable l' = NumAvailable l - n ->
    leafCount l' = leafCount l ->
    let t' := subPredecessors p n (replaceAt p l' t) in
    CountersOK t'
    /\ NumAvailable t' = NumAvailable t - n
    /\ leafCount t' = leafCount t.
Proof.
  induction p as [|i p IH]; intros t l l' n Hok Hleaves Hat Hn Hok' Havail' Hleaves'.
  - cbn in Hat. injection Hat as <-. cbn. done.
  - destruct t as [inf avail cs]. cbn [nodeAt Children] in Hat.
    destruct (cs !! i) as [c|] eqn:Hi; [|done].
    assert (Hne : cs <> []) by (intros ->; done).
    rewrite (leafCount_nonleaf _ _ _ Hne) in Hleaves.
    apply CountersOK_children in Hok as [Hcs ->]; [|done].
    assert (Hc : CountersOK c) by (rewrite Forall_lookup in Hcs; by apply (Hcs i)).
    pose proof (sumLeaves_lookup _ _ _ Hi) as Hci.
    destruct (IH c l l' n Hc ltac:(lia) Hat Hn Hok' Havail' Hleaves')
      as (Hc' & Havailc & Hleavesc).
    destruct (CountersOK_nodeAt p c l Hc Hat) as (_ & Hle & _).
    pose proof (sumAvailable_lookup _ _ _ Hcs Hi) as Hsumi.
    assert (Hb : 0 <= sumAvailable cs <= sumLeaves cs).
    { apply sums_bounded. eapply Forall_impl; [exact Hcs|]. apply CountersOK_bounds. }
    cbn [replaceAt subPredecessors Children info NumAvailable]. rewrite Hi.
    cbn [Children info NumAvailable].
    rewrite list_lookup_insert_eq by (by eapply lookup_lt_Some).
    rewrite list_insert_insert_eq.
    assert (Hmin : MinInt64 = -9223372036854775808) by reflexivity.
    rewrite sub64_exact by lia.
    set (c' := subPredecessors p n (replaceAt p l' c)) in *.
    assert (Hne' : <[i := c']> cs <> []).
    { intros Heq. apply (f_equal length) in Heq. rewrite length_insert in Heq.
      destruct cs; simpl in *; done. }
    split; [|split].
    + apply CountersOK_intro; [done | |].
      * apply Forall_insert; done.
      * rewrite (sumAvailable_insert _ _ c) by done. lia.
    + done.
    + rewrite (leafCount_nonleaf _ _ _ Hne'), (leafCount_nonleaf _ _ _ Hne).
      rewrite (sumLeaves_insert _ _ c) by done. lia.
Qed.

(** [Take n], for [n >= 1], keeps the invariant of the counters. *)
Lemma Take_keeps_counters (t : NumaTopology) (n : Z) :
  1 <= n ->
  CountersOK (Topology t) ->
  leafCount (Topology t) <= MaxInt64 ->
  CountersOK (Topology (fst (fst (Take t n))))
  /\ leafCount (Topology (fst (fst (Take t n)))) = leafCount (Topology t).
Proof.
  intros Hn Hok Hleaves. unfold Take.
  destruct (findLowestNodeWithEnoughAvailability (Topology t) n 0)
    as [[[p l] levelNum]|] eqn:Hfind; [|done].
  destruct (findLowest_sound _ _ _ _ _ _ Hfind) as [Hat Hle].
  destruct (CountersOK_nodeAt p _ l Hok Hat) as (Hl & _ & Hleavesl).
  destruct (takeLeaves_ok l ltac:(lia) Hl n ltac:(lia))
    as (l' & leaves & -> & Hl' & Havail' & Hleaves' & _).
  destruct (subPredecessors_replaceAt_ok p (Topology t) l l' n Hok Hleaves Hat
              ltac:(lia) Hl' Havail' Hleaves') as (Hok' & _ & Hleaves'').
  by destruct (n <? 0).
Qed.

(** The return of a taken leaf: the counters on its path are one short of
    the leaves below them, and are right again after the increment. *)
Lemma incrPath_ok (p : list nat) :
  forall t leaf,
    CountersOK t ->
    leafCount t <= MaxInt64 ->
    nodeAt p t = Some leaf ->
    Children leaf = [] ->
    NumAvailable leaf = 0 ->
    CountersOK (incrPath p t)
    /\ NumAvailable (incrPath p t) = NumAvailable t + 1
    /\ leafCount (incrPath p t) = leafCount t
    /\ NumAvailable t + 1 <= leafCount t.
Proof.
  assert (Hmin : MinInt64 = -9223372036854775808) by reflexivity.
  assert (Hmax : MaxInt64 = 9223372036854775807) by reflexivity.
  induction p as [|i p IH]; intros t leaf Hok Hleaves Hat Hleaf Hzero.
  - cbn in Hat. injection Hat as <-. destruct t as [inf avail cs].
    cbn in Hleaf, Hzero. subst. cbn. rewrite leafCount_leaf.
    repeat split; try done. constructor. by right.
  - destruct t as [inf avail cs]. cbn [nodeAt Children] in Hat.
    destruct (cs !! i) as [c|] eqn:Hi; [|done].
    assert (Hne : cs <> []) by (intros ->; done).
    rewrite (leafCount_nonleaf _ _ _ Hne) in Hleaves.
    apply CountersOK_children in Hok as [Hcs ->]; [|done].
    assert (Hc : CountersOK c) by (rewrite Forall_lookup in Hcs; by apply (Hcs i)).
    pose proof (sumLeaves_lookup _ _ _ Hi) as Hci.
    destruct (IH c leaf Hc ltac:(lia) Hat Hleaf Hzero)
      as (Hc' & Havailc & Hleavesc & Hshort).
    assert (Hb : sumAvailable cs + 1 <= sumLeaves cs).
    { pose proof (sumAvailable_insert cs i c (incrPath p c) Hi) as Hins.
      pose proof (sumLeaves_insert cs i c (incrPath p c) Hi) as Hinsl.
      assert (Hb' : 0 <= sumAvailable (<[i := incrPath p c]> cs)
                    <= sumLeaves (<[i := incrPath p c]> cs)).
      { apply sums_bounded. apply Forall_insert.
        - eapply Forall_impl; [exact Hcs|]. apply CountersOK_bounds.
        - by apply CountersOK_bounds. }
      lia. }
    pose proof (sumAvailable_nonneg _ Hcs) as Hnonneg.
    cbn [incrPath Children info NumAvailable]. rewrite Hi.
    rewrite add64_exact by lia.
    assert (Hne' : <[i := incrPath p c]> cs <> []).
    { intros Heq. apply (f_equal length) in Heq. rewrite length_insert in Heq.
      destruct cs; simpl in *; done. }
    rewrite (leafCount_nonleaf _ _ _ Hne'), (leafCount_nonleaf _ _ _ Hne).
    cbn [NumAvailable]. split; [|split; [|split]].
    + apply CountersOK_intro; [done | |].
      * apply Forall_insert; done.
      * rewrite (sumAvailable_insert _ _ c) by done. lia.
    + done.
    + rewrite (sumLeaves_insert _ _ c) by done. lia.
    + done.
Qed.

(** [Return] keeps the invariant of the counters. *)
Lemma Return_keeps_counters (t : NumaTopology) (cpuID : Z) :
  CountersOK (Topology t) ->
  leafCount (Topology t) <= MaxInt64 ->
  CountersOK (Topology (fst (Return t cpuID)))
  /\ leafCount (Topology (fst (Return t cpuID))) = leafCount (Topology t).
Proof.
  intros Hok Hleaves. unfold Return.
  destruct (find (isCpu cpuID) (Topology t)) as [[p leaf]|] eqn:Hfind; [|done].
  destruct (find_sound _ _ _ _ Hfind) as [Hat Hcmp].
  destruct (Z.eqb_spec (NumAvailable leaf) 0) as [Hzero|]; [|done].
  unfold isCpu, IsLeaf in Hcmp. apply andb_true_iff in Hcmp as [Hleaf _].
  assert (Children leaf = []) as Hnil by (by destruct (Children leaf)).
  destruct (incrPath_ok p (Topology t) leaf Hok Hleaves Hat Hnil Hzero)
    as (Hok' & _ & Hleaves' & _).
  done.
Qed.

Lemma fold_left_sumAvailable (cs : list TopologyNode) (acc : Z) :
  fold_left (fun acc child => acc + NumAvailable child) cs acc = acc + sumAvailable cs.
Proof.
  revert acc. induction cs as [|c cs IH]; intros acc; simpl.
  - unfold sumAvailable. simpl. lia.
  - rewrite IH, sumAvailable_cons. lia.
Qed.

(** The invariant, as a proposition, gives the check of the sums. *)
Lemma CountersOK_sumsHold (t : TopologyNode) : CountersOK t -> sumsHold t = true.
Proof.
  induction t as [inf avail cs IH] using TopologyNode_Forall_ind. intros Hok.
  destruct cs as [|c cs]; [done|].
  apply CountersOK_children in Hok as [Hcs ->]; [|done].
  cbn [sumsHold]. apply andb_true_iff. split.
  - apply forallb_forall. intros x Hx. apply list_elem_of_In in Hx.
    rewrite Forall_forall in IH, Hcs. apply IH; [done|]. by apply Hcs.
  - apply Z.eqb_eq. rewrite fold_left_sumAvailable. lia.
Qed.

Lemma countersOKb_CountersOK (t : TopologyNode) : countersOKb t = true -> CountersOK t.
Proof.
  induction t as [inf avail cs IH] using TopologyNode_Forall_ind.
  destruct cs as [|c cs].
  - cbn. intros [H0|H1]%orb_true_iff; constructor; lia.
  - cbn [countersOKb]. intros [Hall Hsum]%andb_true_iff.
    apply Z.eqb_eq in Hsum. constructor; [|done].
    rewrite Forall_forall in IH. apply Forall_forall. intros x Hx.
    apply IH; [done|]. rewrite forallb_forall in Hall. apply Hall.
    by apply list_elem_of_In.
Qed.

(** Supplement to C4.  From a topology whose counters are right, with no
    more leaves than an [int] counts, every sequence of [Return] and of
    [Take n] with [n >= 1] leads to a topology whose counters are right:
    the invariant breaks through [Take n] with [n <= 0] only. *)
Theorem counters_invariant_of_positive_takes (ops : list TopologyOp) :
  forall t,
    positiveTakes ops ->
    CountersOK (Topology t) ->
    leafCount (Topology t) <= MaxInt64 ->
    CountersOK (Topology (applyOps ops t))
    /\ sumsHold (Topology (applyOps ops t)) = true.
Proof.
  unfold positiveTakes, applyOps.
  induction ops as [|op ops IH]; intros t Hpos Hok Hleaves; simpl.
  - split; [done | by apply CountersOK_sumsHold].
  - apply Forall_cons in Hpos as [Hop Hpos]. apply IH; [done | |].
    + destruct op as [n|cpuID]; simpl.
      * by apply Take_keeps_counters.
      * by apply Return_keeps_counters.
    + destruct op as [n|cpuID]; simpl.
      * destruct (Take_keeps_counters t n Hop Hok Hleaves) as [_ ->]. done.
      * destruct (Return_keeps_counters t cpuID Hok Hleaves) as [_ ->]. done.
Qed.

(** The theorem on the test machine, for a sequence of the test suite. *)
Lemma counters_invariant_of_positive_takes_witness :
  sumsHold (Topology (applyOps [OpTake 2; OpTake 1; OpReturn 3; OpTake 5] testTopology))
  = true.
Proof.
  apply (counters_invariant_of_positive_takes
           [OpTake 2; OpTake 1; OpReturn 3; OpTake 5] testTopology).
  - repeat constructor; lia.
  - apply countersOKb_CountersOK. vm_compute. reflexivity.
  - vm_compute. discriminate.
Defined.


(** ** A freshly built topology *)

Lemma sumAvailable_app (cs1 cs2 : list TopologyNode) :
  sumAvailable (cs1 ++ cs2) = sumAvailable cs1 + sumAvailable cs2.
Proof.
  induction cs1 as [|c cs1 IH]; [done|].
  rewrite <- app_comm_cons, !sumAvailable_cons, IH. lia.
Qed.

Lemma Built_sum_nonneg (depth : nat) (cs : list TopologyNode) :
  Forall (fun c => Built depth c /\ 1 <= NumAvailable c) cs -> 0 <= sumAvailable cs.
Proof.
  induction 1 as [|c cs [_ Hc] _ IH]; [done|]. rewrite sumAvailable_cons. lia.
Qed.

Lemma Built_sum_lookup (depth : nat) (cs : list TopologyNode) (i : nat) (c : TopologyNode) :
  Forall (fun c => Built depth c /\ 1 <= NumAvailable c) cs ->
  cs !! i = Some c -> NumAvailable c <= sumAvailable cs.
Proof.
  intros Hcs. revert i. induction Hcs as [|c0 cs [_ Hc0] Hcs IH]; intros [|i] Hi;
    simpl in Hi; try done.
  - injection Hi as ->. rewrite sumAvailable_cons.
    pose proof (Built_sum_nonneg _ _ Hcs). lia.
  - rewrite sumAvailable_cons. specialize (IH i Hi). lia.
Qed.

Lemma Built_children_ok (depth : nat) (cs : list TopologyNode) :
  (forall t, Built depth t -> CountersOK t /\ leafCount t = Z.max 1 (NumAvailable t)) ->
  Forall (fun c => Built depth c /\ 1 <= NumAvailable c) cs ->
  Forall CountersOK cs /\ sumLeaves cs = sumAvailable cs.
Proof.
  intros IH. induction 1 as [|x l [Hx Hx1] Hl [IH1 IH2]]; [done|].
  destruct (IH x Hx) as [Hok Hleaves]. split; [by constructor|].
  rewrite sumLeaves_cons, sumAvailable_cons, IH2, Hleaves. lia.
Qed.

(** The counters of a built tree are right, and count its leaves. *)
Lemma Built_CountersOK (depth : nat) :
  forall t, Built depth t ->
            CountersOK t /\ leafCount t = Z.max 1 (NumAvailable t).
Proof.
  induction depth as [|depth IH]; intros [inf avail cs]; cbn [Built NumAvailable Children].
  - intros [-> ->]. split; [constructor; by right | done].
  - intros [-> Hcs]. destruct cs as [|c cs].
    + split; [constructor; by left | done].
    + destruct (Built_children_ok depth (c :: cs) IH Hcs) as [Hok Hleaves].
      assert (Hpos : 1 <= sumAvailable (c :: cs)).
      { apply Forall_cons in Hcs as [[_ Hc] Hcs].
        pose proof (Built_sum_nonneg _ _ Hcs). rewrite sumAvailable_cons. lia. }
      split; [by constructor|]. rewrite leafCount_node, Hleaves. lia.
Qed.

(** [append] of a path below a new node: one branch, down to one leaf. *)
Lemma append_new (pre : list nodeInfo) (x : nodeInfo) :
  forall ni,
    let t := append (pre ++ [x]) (TNode ni 0 []) in
    Built (S (length pre)) t
    /\ NumAvailable t = 1
    /\ valuesAt (S (length pre)) t = [Value x].
Proof.
  induction pre as [|ni' pre IH]; intros ni.
  - cbn. repeat split; try done. constructor; [|done]. cbn. repeat split; try done.
  - specialize (IH ni'). cbn zeta in IH. destruct IH as (Hbuilt & Havail & Hvalues).
    rewrite <- app_comm_cons. cbn [append Children list_find info NumAvailable app].
    change (add64 0 1) with 1.
    split; [|split].
    + cbn [Built NumAvailable Children length]. split.
      * rewrite sumAvailable_cons, Havail. done.
      * constructor; [|done]. split; [done | lia].
    + done.
    + cbn [valuesAt Children map concat length] in *. rewrite Hvalues. done.
Qed.

Lemma valuesAt_S (depth : nat) (t : TopologyNode) (v : Z) :
  v ∈ valuesAt (S depth) t <-> exists c, c ∈ Children t /\ v ∈ valuesAt depth c.
Proof.
  cbn [valuesAt]. rewrite list_elem_of_In, in_concat. split.
  - intros (l & Hl & Hv). apply in_map_iff in Hl as (c & <- & Hc).
    exists c. by rewrite !list_elem_of_In.
  - intros (c & Hc & Hv). exists (valuesAt depth c).
    rewrite !list_elem_of_In in *. split; [|done]. apply in_map_iff. by exists c.
Qed.

(** [append] of the path of a cpu whose id is not in the tree yet: the
    tree stays a built one, with one leaf more. *)
Lemma append_Built (pre : list nodeInfo) (x : nodeInfo) :
  forall t,
    Built (S (length pre)) t ->
    Value x ∉ valuesAt (S (length pre)) t ->
    NumAvailable t < MaxInt64 ->
    let t' := append (pre ++ [x]) t in
    Built (S (length pre)) t'
    /\ NumAvailable t' = NumAvailable t + 1
    /\ (forall v, v ∈ valuesAt (S (length pre)) t' ->
                  v = Value x \/ v ∈ valuesAt (S (length pre)) t).
Proof.
  assert (Hmin : MinInt64 = -9223372036854775808) by reflexivity.
  induction pre as [|ni pre IH]; intros [inf avail cs] Hbuilt Hfresh Hbound; cbn zeta.
  - cbn [app append Children info NumAvailable length] in *.
    destruct Hbuilt as [Hsum Hcs]. cbn [NumAvailable Children] in Hsum, Hcs.
    pose proof (Built_sum_nonneg _ _ Hcs) as Hnonneg.
    destruct (list_find _ cs) as [[i child]|] eqn:Hfind.
    + apply list_find_Some in Hfind as (Hi & Hvalue & _).
      exfalso. apply Hfresh. apply valuesAt_S. exists child. split.
      * by eapply list_elem_of_lookup_2.
      * cbn. rewrite Hvalue. by apply list_elem_of_singleton.
    + rewrite add64_succ by lia. split; [|split].
      * cbn [Built NumAvailable Children]. split.
        -- rewrite sumAvailable_app. change (sumAvailable [TNode x 1 []]) with 1. lia.
        -- apply Forall_app. split; [done|]. constructor; [|done]. cbn. done.
      * done.
      * intros v [c [Hc Hv]]%valuesAt_S. cbn [Children] in Hc.
        apply elem_of_app in Hc as [Hc|Hc].
        -- right. apply valuesAt_S. by exists c.
        -- apply list_elem_of_singleton in Hc as ->. cbn in Hv.
           apply list_elem_of_singleton in Hv. by left.
  - rewrite <- app_comm_cons in *.
    cbn [append Children info NumAvailable length] in *.
    destruct Hbuilt as [Hsum Hcs]. cbn [NumAvailable Children] in Hsum, Hcs.
    pose proof (Built_sum_nonneg _ _ Hcs) as Hnonneg.
    rewrite add64_succ by lia.
    destruct (list_find _ cs) as [[i child]|] eqn:Hfind.
    + apply list_find_Some in Hfind as (Hi & _ & _).
      pose proof (Built_sum_lookup _ _ _ _ Hcs Hi) as Hle.
      rewrite Forall_lookup in Hcs. destruct (Hcs i child Hi) as [Hchild Hchild1].
      destruct (IH child Hchild) as (Hbuilt' & Havail' & Hvalues'); [|lia|].
      { intros Hin. apply Hfresh. apply valuesAt_S. exists child. split; [|done].
        by eapply list_elem_of_lookup_2. }
      split; [|split].
      * cbn [Built NumAvailable Children]. split.
        -- rewrite (sumAvailable_insert _ _ child) by done. lia.
        -- apply Forall_insert; [by apply Forall_lookup|]. split; [done | lia].
      * done.
      * intros v [c [Hc Hv]]%valuesAt_S. cbn [Children] in Hc.
        apply list_elem_of_lookup in Hc as [j Hj].
        destruct (decide (j = i)) as [->|Hne].
        -- rewrite list_lookup_insert_eq in Hj by (by eapply lookup_lt_Some).
           injection Hj as <-. destruct (Hvalues' v Hv) as [->|Hold]; [by left|].
           right. apply valuesAt_S. exists child. split; [|done].
           by eapply list_elem_of_lookup_2.
        -- rewrite list_lookup_insert_ne in Hj by done.
           right. apply valuesAt_S. exists c. split; [|done].
           by eapply list_elem_of_lookup_2.
    + destruct (append_new pre x ni) as (Hbuilt' & Havail' & Hvalues').
      split; [|split].
      * cbn [Built NumAvailable Children]. split.
        -- rewrite sumAvailable_app, sumAvailable_cons, Havail'.
           change (sumAvailable []) with 0. lia.
        -- apply Forall_app. split; [done|]. constructor; [|done]. split; [done | lia].
      * done.
      * intros v [c [Hc Hv]]%valuesAt_S. cbn [Children] in Hc.
        apply elem_of_app in Hc as [Hc|Hc].
        -- right. apply valuesAt_S. by exists c.
        -- apply list_elem_of_singleton in Hc as ->. rewrite Hvalues' in Hv.
           apply list_elem_of_singleton in Hv. by left.
Qed.

(** The levels in use, for cpus of distinct ids: none (one cpu at most),
    or levels that end with the cpus. *)
Lemma getUsedTopoTypes_shape (cpus : list CpuInfo) :
  NoDup (map ciCpu cpus) ->
  (getUsedTopoTypes cpus = [] /\ (length cpus <= 1)%nat)
  \/ exists pre, getUsedTopoTypes cpus = pre ++ [Cpu].
Proof.
  intros Hnodup. destruct cpus as [|c0 [|c1 others]].
  - left. split; [done | simpl; lia].
  - left. split; [done | simpl; lia].
  - right. unfold getUsedTopoTypes, topoTypeByImportance.
    change [Node; Package; Die; Core; Cpu] with ([Node; Package; Die; Core] ++ [Cpu]).
    rewrite filter_app. eexists. f_equal.
    rewrite filter_cons_True; [done|].
    cbn [forallb valueFromCpuInfo].
    assert (ciCpu c1 <> ciCpu c0) as Hne.
    { cbn [map] in Hnodup. apply NoDup_cons in Hnodup as [Hfresh _].
      intros Heq. apply Hfresh. rewrite Heq. by left. }
    apply Z.eqb_neq in Hne. by rewrite Hne.
Qed.

Lemma cpuInfoToNodeInfoList_app (cpu : CpuInfo) (pre : list TopologyEntryType) :
  cpuInfoToNodeInfoList cpu (pre ++ [Cpu])
  = cpuInfoToNodeInfoList cpu pre ++ [mkNodeInfo Cpu (ciCpu cpu)].
Proof. unfold cpuInfoToNodeInfoList. by rewrite map_app. Qed.

Lemma cpuInfoToNodeInfoList_length (cpu : CpuInfo) (topoTypes : list TopologyEntryType) :
  length (cpuInfoToNodeInfoList cpu topoTypes) = length topoTypes.
Proof. unfold cpuInfoToNodeInfoList. apply length_map. Qed.

(** The loop of [cpuInfoToTopology] on cpus whose ids are distinct and new
    to the tree. *)
Lemma cpuInfoToTopology_loop_Built (pre : list TopologyEntryType) (cpus : list CpuInfo) :
  forall t,
    Built (S (length pre)) t ->
    NoDup (map ciCpu cpus) ->
    (forall v, v ∈ valuesAt (S (length pre)) t -> v ∉ map ciCpu cpus) ->
    NumAvailable t + Z.of_nat (length cpus) <= MaxInt64 ->
    let t' := fold_left (fun t cpu => append (cpuInfoToNodeInfoList cpu (pre ++ [Cpu])) t)
                        cpus t in
    Built (S (length pre)) t'
    /\ NumAvailable t' = NumAvailable t + Z.of_nat (length cpus).
Proof.
  induction cpus as [|cpu cpus IH]; intros t Hbuilt Hnodup Hfresh Hbound; cbn zeta.
  - simpl. split; [done | lia].
  - cbn [map] in Hnodup, Hfresh. apply NoDup_cons in Hnodup as [Hcpu Hnodup].
    cbn [fold_left]. rewrite cpuInfoToNodeInfoList_app.
    pose proof (append_Built (cpuInfoToNodeInfoList cpu pre) (mkNodeInfo Cpu (ciCpu cpu)) t)
      as Happend.
    rewrite cpuInfoToNodeInfoList_length in Happend. cbn zeta in Happend.
    cbn [length] in Hbound.
    destruct Happend as (Hbuilt' & Havail' & Hvalues'); [done | | lia |].
    { intros Hin. apply (Hfresh _ Hin). by left. }
    destruct (IH _ Hbuilt' Hnodup) as [Hbuilt'' Havail'']; [|lia|].
    { intros v Hv. destruct (Hvalues' v Hv) as [->|Hold]; [done|].
      intros Hin. apply (Hfresh _ Hold). by right. }
    split; [done|]. rewrite Havail'', Havail'. cbn [length]. lia.
Qed.

(** The loop of [cpuInfoToTopology] when no level is in use. *)
Lemma cpuInfoToTopology_loop_leaf (cpus : list CpuInfo) :
  forall inf avail,
    avail = 0 \/ avail = 1 ->
    exists avail',
      fold_left (fun t cpu => append (cpuInfoToNodeInfoList cpu []) t) cpus
                (TNode inf avail [])
      = TNode inf avail' []
      /\ (avail' = 0 \/ avail' = 1).
Proof.
  induction cpus as [|cpu cpus IH]; intros inf avail Havail.
  - by exists avail.
  - cbn [fold_left cpuInfoToNodeInfoList map append info Children]. apply IH. by right.
Qed.

(** The topology that [LoadFromCpuInfo] builds from cpus of distinct ids:
    its counters are right and count its leaves. *)
Theorem fresh_topology_counters (cpus : list CpuInfo) :
  NoDup (map ciCpu cpus) ->
  Z.of_nat (length cpus) <= MaxInt64 ->
  CountersOK (Topology (LoadFromCpuInfo cpus))
  /\ leafCount (Topology (LoadFromCpuInfo cpus)) <= MaxInt64.
Proof.
  intros Hnodup Hlen. cbn [LoadFromCpuInfo Topology]. unfold cpuInfoToTopology.
  assert (Hmax : MaxInt64 = 9223372036854775807) by reflexivity.
  destruct (getUsedTopoTypes_shape cpus Hnodup) as [[-> _]|[pre ->]].
  - destruct (cpuInfoToTopology_loop_leaf cpus (mkNodeInfo Machine 0) 0)
      as (avail' & -> & Havail'); [by left|].
    split; [by constructor|]. rewrite leafCount_leaf. lia.
  - destruct (cpuInfoToTopology_loop_Built pre cpus (TNode (mkNodeInfo Machine 0) 0 []))
      as [Hbuilt Havail]; try done.
    + intros v Hv. by apply elem_of_nil in Hv.
    + destruct (Built_CountersOK _ _ Hbuilt) as [Hok Hleaves].
      split; [done|]. rewrite Hleaves, Havail. cbn [NumAvailable]. lia.
Qed.

(** Supplement to C4.  From the topology that [LoadFromCpuInfo] builds from
    cpus of distinct ids, every sequence of [Return] and of [Take n] with
    [n >= 1] leads to a topology in which every node that is not a leaf
    holds the sum of its children. *)
Theorem fresh_topology_invariant (cpus : list CpuInfo) (ops : list TopologyOp) :
  NoDup (map ciCpu cpus) ->
  Z.of_nat (length cpus) <= MaxInt64 ->
  positiveTakes ops ->
  sumsHold (Topology (applyOps ops (LoadFromCpuInfo cpus))) = true.
Proof.
  intros Hnodup Hlen Hops.
  destruct (fresh_topology_counters cpus Hnodup Hlen) as [Hok Hleaves].
  by apply counters_invariant_of_positive_takes.
Qed.

(** The theorem on the test machine, for a sequence of the test suite. *)
Lemma fresh_topology_invariant_witness :
  sumsHold (Topology (applyOps [OpTake 2; OpTake 1; OpReturn 3; OpTake 5]
                               (LoadFromCpuInfo testCpus)))
  = true.
Proof.
  apply (fresh_topology_invariant testCpus [OpTake 2; OpTake 1; OpReturn 3; OpTake 5]).
  - apply (bool_decide_unpack _). vm_compute. exact I.
  - vm_compute. discriminate.
  - repeat constructor; lia.
Defined.

(** ** [GetLeafs] returns *)

Lemma queue_size_app (q1 q2 : list NodePtr) :
  queue_size (q1 ++ q2) = (queue_size q1 + queue_size q2)%nat.
Proof.
  unfold queue_size. induction q1 as [|node q1 IH]; simpl; [done|]. rewrite IH. lia.
Qed.

Lemma queue_size_imap (f : nat -> list nat) (cs : list TopologyNode) :
  queue_size (imap (fun i child => (f i, child)) cs)
  = fold_right (fun c acc => (tree_size c + acc)%nat) 0%nat cs.
Proof.
  revert f. induction cs as [|c cs IH]; intros f; [done|].
  rewrite imap_cons. unfold queue_size in *. simpl. f_equal.
  apply (IH (f ∘ S)).
Qed.

Lemma queue_size_childPtrs (p : list nat) (node : TopologyNode) :
  S (queue_size (childPtrs p node)) = tree_size node.
Proof.
  destruct node as [inf avail cs]. unfold childPtrs. cbn [Children tree_size].
  f_equal. apply (queue_size_imap (fun i => p ++ [i])).
Qed.

(** The size of the tree is fuel enough for the queue of [GetLeafs]. *)
Lemma GetLeafs_loop_returns (fuel : nat) :
  forall queue leafs,
    (queue_size queue <= fuel)%nat ->
    is_Some (GetLeafs_loop fuel queue leafs).
Proof.
  induction fuel as [|fuel IH]; intros queue leafs Hsize.
  - destruct queue as [|[p node] queue]; [by eexists|].
    unfold queue_size in Hsize. simpl in Hsize. destruct node; simpl in Hsize. lia.
  - destruct queue as [|[p node] queue]; [by eexists|].
    cbn [GetLeafs_loop fst snd].
    assert (Hnode : (1 <= tree_size node)%nat) by (destruct node; simpl; lia).
    unfold queue_size in Hsize. cbn [fold_right snd] in Hsize.
    fold (queue_size queue) in Hsize.
    destruct (IsLeaf node).
    + apply IH. lia.
    + apply IH. rewrite queue_size_app.
      pose proof (queue_size_childPtrs p node). lia.
Qed.

Theorem GetLeafs_returns (t : TopologyNode) :
  exists leafs, GetLeafs_loop (tree_size t) [([], t)] [] = Some leafs
                /\ GetLeafs t = leafs.
Proof.
  destruct (GetLeafs_loop_returns (tree_size t) [([], t)] []) as [leafs Hleafs].
  - unfold queue_size. simpl. lia.
  - exists leafs. split; [done|]. unfold GetLeafs. by rewrite Hleafs.
Qed.

(** ** Request conversion in the daemon *)

(** C5, as the specification words it, fails: a container that requests as
    many cpus as its limit, and no memory, is Guaranteed for the code and
    BestEffort for the specification. *)
Lemma containerFromRequest_QoS_counterexample :
  QS (containerFromRequest cpuOnlyContainer "pod") = Guaranteed
  /\ qosOfSpecification (ciResources cpuOnlyContainer) = BestEffort
  /\ QS (containerFromRequest cpuOnlyContainer "pod")
     <> qosOfSpecification (ciResources cpuOnlyContainer).
Proof. repeat split; vm_compute; congruence. Qed.

(** C5, amended.  The QoS class of the container of a request is Guaranteed
    iff requested cpus = limit cpus, requested memory = limit memory and
    requested cpus > 0 (the memory may be 0); Burstable iff requested <
    limit for cpus or for memory; BestEffort otherwise. *)
Theorem containerFromRequest_QoS (req : ContainerInfo) (podID : string) :
  let r := ciResources req in
  let isGuaranteed :=
    RequestedCpus r = LimitCpus r /\ RequestedMemory r = LimitMemory r
    /\ 0 < RequestedCpus r in
  let isBurstable :=
    RequestedCpus r < LimitCpus r \/ RequestedMemory r < LimitMemory r in
  (QS (containerFromRequest req podID) = Guaranteed <-> isGuaranteed)
  /\ (QS (containerFromRequest req podID) = Burstable <-> isBurstable)
  /\ (QS (containerFromRequest req podID) = BestEffort
      <-> ~ isGuaranteed /\ ~ isBurstable)
  /\ Cpus (containerFromRequest req podID) = RequestedCpus r
  /\ CID (containerFromRequest req podID) = ContainerId req
  /\ PID (containerFromRequest req podID) = podID.
Proof.
  unfold containerFromRequest. cbn.
  destruct (Z.eqb_spec (RequestedCpus (ciResources req)) (LimitCpus (ciResources req)));
  destruct (Z.eqb_spec (RequestedMemory (ciResources req)) (LimitMemory (ciResources req)));
  destruct (Z.ltb_spec 0 (RequestedCpus (ciResources req)));
  destruct (Z.ltb_spec (RequestedCpus (ciResources req)) (LimitCpus (ciResources req)));
  destruct (Z.ltb_spec (RequestedMemory (ciResources req)) (LimitMemory (ciResources req)));
  cbn; repeat split; try discriminate; try tauto; try lia; intros; intuition (try discriminate; lia).
Qed.

(** ** Default allocator *)

(** The arithmetic of [takeCpus] on cpu ids and counts of 32 bits. *)
Lemma takeCpus_arithmetic (b : CPUBucket) (cpus : Z) :
  isInt32 (StartCPU b) -> isInt32 (EndCPU b) -> isInt32 cpus ->
  sub64 (add64 (sub64 (EndCPU b) (StartCPU b)) 1) cpus = bucketLength b - cpus
  /\ sub64 (add64 (StartCPU b) cpus) 1 = StartCPU b + cpus - 1
  /\ add64 (sub64 (add64 (StartCPU b) cpus) 1) 1 = StartCPU b + cpus.
Proof.
  unfold isInt32, bucketLength. change (2 ^ 31) with 2147483648.
  intros Hs He Hc.
  assert (Hmin : MinInt64 = -9223372036854775808) by reflexivity.
  assert (Hmax : MaxInt64 = 9223372036854775807) by reflexivity.
  rewrite (sub64_exact (EndCPU b)) by lia.
  rewrite (add64_exact _ 1) by lia.
  rewrite (sub64_exact _ cpus) by lia.
  rewrite (add64_exact (StartCPU b)) by lia.
  rewrite (sub64_exact _ 1) by lia.
  rewrite (add64_exact _ 1) by lia.
  lia.
Qed.

(** C6.  On cpu ids and a cpu count of 32 bits, [takeCpus] of the default
    allocator, on a Guaranteed container, cuts [c.Cpus] cpus from the head
    of the first available range whose length is strictly greater than
    [c.Cpus]: the start of that range advances by [c.Cpus], the cpus cut
    are recorded as one bucket for the container, and the controller is
    called once with them.  When no range is strictly longer than [c.Cpus]
    the call fails with CpusNotAvailable and changes nothing.  On any other
    container it changes nothing and returns no error. *)
Theorem Default_takeCpus_cuts_head (d : DefaultAllocator) (c : Container)
        (s : DaemonState) :
  isInt32 (Cpus c) ->
  Forall (fun b => isInt32 (StartCPU b) /\ isInt32 (EndCPU b)) (AvailableCPUs s) ->
  (QS c <> Guaranteed -> Default_takeCpus d c s = (d, s, None))
  /\ (QS c = Guaranteed ->
      (forall b, b ∈ AvailableCPUs s -> bucketLength b <= Cpus c) ->
      Default_takeCpus d c s
      = (d, s, Some (DaemonError CpusNotAvailable "No available cpus for take request")))
  /\ (QS c = Guaranteed ->
      forall i b,
        AvailableCPUs s !! i = Some b ->
        Cpus c < bucketLength b ->
        (forall j b', (j < i)%nat -> AvailableCPUs s !! j = Some b' ->
                      bucketLength b' <= Cpus c) ->
        let taken := mkCPUBucket (StartCPU b) (StartCPU b + Cpus c - 1) in
        let rest := mkCPUBucket (StartCPU b + Cpus c) (EndCPU b) in
        let cpuSet :=
          if decide (StartCPU taken = EndCPU taken) then Itoa (StartCPU taken)
          else Itoa (StartCPU taken) +:+ "-" +:+ Itoa (EndCPU taken) in
        let call := mkCgroupCall (CGroupPath s) (CGroupSubPath s) c cpuSet "" in
        Default_takeCpus d c s
        = (mkDefaultAllocator
             (mkCgroupController (ctrlOutcome (daCtrl d)) (ctrlCalls (daCtrl d) ++ [call])),
           set_Allocated (<[CID c := [taken]]> (Allocated s))
             (set_AvailableCPUs (<[i := rest]> (AvailableCPUs s)) s),
           ctrlOutcome (daCtrl d) (ctrlCalls (daCtrl d)) call)
        /\ (0 <= Cpus c ->
            bucketCpus taken = seqZ (StartCPU b) (Cpus c)
            /\ Z.of_nat (length (bucketCpus taken)) = Cpus c
            /\ bucketCpus b = bucketCpus taken ++ bucketCpus rest)).
Proof.
  intros Hcpus Hbuckets. rewrite Forall_lookup in Hbuckets.
  unfold Default_takeCpus. split; [|split].
  - intros Hqs. by rewrite decide_False.
  - intros Hqs Hall. rewrite decide_True by done.
    destruct (list_find _ _) as [[i b]|] eqn:Hfind; [|done].
    apply list_find_Some in Hfind as (Hi & Hlen & _).
    destruct (Hbuckets i b Hi) as [Hs He].
    destruct (takeCpus_arithmetic b (Cpus c) Hs He Hcpus) as (Harith & _).
    rewrite Harith in Hlen.
    apply list_elem_of_lookup_2 in Hi. specialize (Hall b Hi). lia.
  - intros Hqs i b Hi Hlen Hbefore. cbn zeta. split.
    + rewrite decide_True by done.
      destruct (Hbuckets i b Hi) as [Hs He].
      destruct (takeCpus_arithmetic b (Cpus c) Hs He Hcpus) as (Harith & Hend & Hnext).
      destruct (list_find _ _) as [[i' b']|] eqn:Hfind.
      * apply list_find_Some in Hfind as (Hi' & Hlen' & Hbefore').
        assert (i' = i) as ->.
        { destruct (Nat.lt_trichotomy i' i) as [Hlt|[Heq|Hgt]]; [|done|].
          - specialize (Hbefore i' b' Hlt Hi').
            destruct (Hbuckets i' b' Hi') as [Hs' He'].
            destruct (takeCpus_arithmetic b' (Cpus c) Hs' He' Hcpus) as (Harith' & _).
            rewrite Harith' in Hlen'. lia.
          - specialize (Hbefore' i b Hi Hgt). cbn beta in Hbefore'.
            rewrite Harith in Hbefore'. lia. }
        assert (b' = b) as -> by congruence.
        unfold UpdateCPUSet. cbv zeta. rewrite Hnext, Hend. done.
      * apply list_find_None in Hfind. rewrite Forall_lookup in Hfind.
        specialize (Hfind i b Hi). cbn beta in Hfind. rewrite Harith in Hfind. lia.
    + intros Hnonneg. unfold bucketCpus, bucketLength in *. cbn. split; [|split].
      * f_equal. lia.
      * rewrite length_seqZ. lia.
      * replace (EndCPU b - StartCPU b + 1)
          with (Cpus c + (EndCPU b - (StartCPU b + Cpus c) + 1)) by lia.
        rewrite seqZ_app by lia. f_equal. f_equal. lia.
Qed.

(** The theorem on the first scenario of the specification: with the cpus
    0-127 available, a Guaranteed container of 10 cpus gets the cpus 0-9
    and 10-127 remain. *)
Lemma Default_takeCpus_cuts_head_witness :
  let c := guaranteed "c1" "P1" 10 in
  let d := mkDefaultAllocator okController in
  AvailableCPUs (snd (fst (Default_takeCpus d c state128))) = [mkCPUBucket 10 127]
  /\ Allocated (snd (fst (Default_takeCpus d c state128))) !! "c1"
     = Some [mkCPUBucket 0 9]
  /\ snd (Default_takeCpus d c state128) = None.
Proof.
  intros c d.
  assert (Hcpus : isInt32 (Cpus c)) by (unfold isInt32; cbn; lia).
  assert (Hbuckets : Forall (fun b => isInt32 (StartCPU b) /\ isInt32 (EndCPU b))
                            (AvailableCPUs state128)).
  { repeat constructor; unfold isInt32; cbn; lia. }
  destruct (Default_takeCpus_cuts_head d c state128 Hcpus Hbuckets) as (_ & _ & Hcut).
  assert (Hfirst : forall j b', (j < 0)%nat -> AvailableCPUs state128 !! j = Some b' ->
                                bucketLength b' <= Cpus c) by (intros; lia).
  destruct (Hcut eq_refl 0%nat (mkCPUBucket 0 127) eq_refl eq_refl Hfirst) as [-> _].
  repeat split.
Defined.

(** ** State persistence *)

(** C10.  [LoadState] leaves [StatePath] as it is, whether it fails or
    succeeds and whatever the decoder writes into the state. *)
Theorem LoadState_preserves_StatePath
        (FS : Type) (ReadFile : FS -> string -> string + error)
        (Lstat : FS -> string -> bool + error)
        (Unmarshal : string -> DaemonState -> DaemonState * option error)
        (d : DaemonState) (fs : FS) :
  StatePath (fst (LoadState FS ReadFile Lstat Unmarshal d fs)) = StatePath d.
Proof.
  unfold LoadState, ErrorIfSymlink.
  destruct (Lstat fs (StatePath d)) as [[|]|err]; try done.
  destruct (ReadFile fs (StatePath d)) as [b|err]; try done.
  by destruct (Unmarshal b d).
Qed.

(** A state file that holds another path: the decoder writes that path into
    the state, and [LoadState] restores the path of the state. *)
Example LoadState_of_copied_file :
  let fs : gmap string string := {[ "daemon.state" := "elsewhere.state" ]} in
  let ReadFile (fs : gmap string string) path :=
    match fs !! path with
    | Some b => inl b
    | None => inr (otherError "no such file")
    end in
  let Lstat (fs : gmap string string) path :=
    match fs !! path with
    | Some _ => inl false
    | None => inr (otherError "no such file")
    end in
  StatePath (fst (pathOverwritingUnmarshal "elsewhere.state" state128)) = "elsewhere.state"
  /\ LoadState _ ReadFile Lstat pathOverwritingUnmarshal state128 fs = (state128, None).
Proof. split; vm_compute; reflexivity. Qed.

(** ** Request conversion in the agent *)

Lemma add32_exact (a v : Z) :
  0 <= a <= MaxInt32 -> 0 <= v <= MaxInt32 -> a + v <= MaxInt32 ->
  add32 a v = a + v.
Proof.
  unfold add32, wrap32, MaxInt32.
  change (2 ^ 31) with 2147483648. change (2 ^ 32) with 4294967296.
  intros Ha Hv Hsum. rewrite Z.mod_small by lia. lia.
Qed.

Lemma add32_overflow (a v : Z) :
  0 <= a <= MaxInt32 -> 0 <= v <= MaxInt32 -> MaxInt32 < a + v ->
  add32 a v < 0.
Proof.
  unfold add32, wrap32, MaxInt32.
  change (2 ^ 31) with 2147483648. change (2 ^ 32) with 4294967296.
  intros Ha Hv Hsum.
  replace (a + v + 2147483648) with (a + v - 2147483648 + 1 * 4294967296) by lia.
  rewrite Z.mod_add by lia. rewrite Z.mod_small by lia. lia.
Qed.

Lemma getContainerResources_inRange (r : ResourceList) :
  inInt32Range (rlCpu r) -> inInt32Range (rlMemory r) ->
  getContainerResources r = inl (int64Value (rlCpu r), int64Value (rlMemory r)).
Proof.
  unfold inInt32Range, getContainerResources. intros [-> Hcpu] [-> Hmem]. cbn.
  destruct (Z.ltb_spec MaxInt32 (int64Value (rlCpu r))); [lia|].
  destruct (Z.ltb_spec (int64Value (rlCpu r)) 0); [lia|].
  destruct (Z.ltb_spec MaxInt32 (int64Value (rlMemory r))); [lia|].
  destruct (Z.ltb_spec (int64Value (rlMemory r)) 0); [lia|].
  done.
Qed.

Lemma total_cons f c cs : total f (c :: cs) = int64Value (f c) + total f cs.
Proof. reflexivity. Qed.

Lemma total_nonneg f cs :
  Forall (fun c => 0 <= int64Value (f c)) cs -> 0 <= total f cs.
Proof. induction 1; [done | rewrite total_cons; lia]. Qed.

(** The loop, from sums that did not overflow so far. *)
Lemma createPodResources_loop_sums (pod : Pod) (containers : list PodContainer) :
  forall a1 a2 a3 a4 infos,
    0 <= a1 <= MaxInt32 -> 0 <= a2 <= MaxInt32 ->
    0 <= a3 <= MaxInt32 -> 0 <= a4 <= MaxInt32 ->
    Forall convertible containers ->
    let s1 := a1 + total (fun c => rlCpu (Requests c)) containers in
    let s2 := a2 + total (fun c => rlCpu (Limits c)) containers in
    let s3 := a3 + total (fun c => rlMemory (Requests c)) containers in
    let s4 := a4 + total (fun c => rlMemory (Limits c)) containers in
    (s1 <= MaxInt32 /\ s2 <= MaxInt32 /\ s3 <= MaxInt32 /\ s4 <= MaxInt32 ->
     exists infos',
       createPodResources_loop pod containers a1 a2 a3 a4 infos
       = (infos ++ infos', Some (mkResourceInfo s1 s2 s3 s4 DEFAULT), None)
       /\ length infos' = length containers)
    /\ (MaxInt32 < s1 \/ MaxInt32 < s2 \/ MaxInt32 < s3 \/ MaxInt32 < s4 ->
        exists infos' context,
          createPodResources_loop pod containers a1 a2 a3 a4 infos
          = (infos', None, Some (ErrCountingOverflow context))).
Proof.
  induction containers as [|c cs IH]; intros a1 a2 a3 a4 infos H1 H2 H3 H4 Hconv.
  - cbn. rewrite !Z.add_0_r. split.
    + intros _. exists []. by rewrite app_nil_r.
    + lia.
  - apply Forall_cons in Hconv as [(Hrc & Hrm & Hlc & Hlm) Hconv].
    assert (Hn1 := total_nonneg (fun c => rlCpu (Requests c)) cs).
    assert (Hn2 := total_nonneg (fun c => rlCpu (Limits c)) cs).
    assert (Hn3 := total_nonneg (fun c => rlMemory (Requests c)) cs).
    assert (Hn4 := total_nonneg (fun c => rlMemory (Limits c)) cs).
    rewrite Forall_forall in Hn1, Hn2, Hn3, Hn4.
    assert (0 <= total (fun c => rlCpu (Requests c)) cs)
      by (apply Hn1; intros x Hx; rewrite Forall_forall in Hconv;
          destruct (Hconv x Hx) as ([_ ?] & _); lia).
    assert (0 <= total (fun c => rlCpu (Limits c)) cs)
      by (apply Hn2; intros x Hx; rewrite Forall_forall in Hconv;
          destruct (Hconv x Hx) as (_ & _ & [_ ?] & _); lia).
    assert (0 <= total (fun c => rlMemory (Requests c)) cs)
      by (apply Hn3; intros x Hx; rewrite Forall_forall in Hconv;
          destruct (Hconv x Hx) as (_ & [_ ?] & _); lia).
    assert (0 <= total (fun c => rlMemory (Limits c)) cs)
      by (apply Hn4; intros x Hx; rewrite Forall_forall in Hconv;
          destruct (Hconv x Hx) as (_ & _ & _ & [_ ?]); lia).
    clear Hn1 Hn2 Hn3 Hn4.
    cbn zeta. rewrite !total_cons.
    cbn [createPodResources_loop]. unfold getContainerInfo.
    rewrite (getContainerResources_inRange _ Hrc Hrm).
    rewrite (getContainerResources_inRange _ Hlc Hlm).
    cbn [ciResources RequestedCpus LimitCpus RequestedMemory LimitMemory ContainerName].
    destruct Hrc as [_ Hrc], Hrm as [_ Hrm], Hlc as [_ Hlc], Hlm as [_ Hlm].
    set (v1 := int64Value (rlCpu (Requests c))) in *.
    set (v2 := int64Value (rlCpu (Limits c))) in *.
    set (v3 := int64Value (rlMemory (Requests c))) in *.
    set (v4 := int64Value (rlMemory (Limits c))) in *.
    destruct (Z_le_gt_dec (a1 + v1) MaxInt32) as [Hs1|Hs1].
    2:{ pose proof (add32_overflow a1 v1 H1 Hrc ltac:(lia)) as Hov.
        apply Z.ltb_lt in Hov. rewrite Hov.
        split; [lia | intros _; by eexists _, _]. }
    rewrite (add32_exact a1 v1) by done.
    destruct (Z.ltb_spec (a1 + v1) 0) as [|_]; [lia|].
    destruct (Z_le_gt_dec (a2 + v2) MaxInt32) as [Hs2|Hs2].
    2:{ pose proof (add32_overflow a2 v2 H2 Hlc ltac:(lia)) as Hov.
        apply Z.ltb_lt in Hov. rewrite Hov.
        split; [lia | intros _; by eexists _, _]. }
    rewrite (add32_exact a2 v2) by done.
    destruct (Z.ltb_spec (a2 + v2) 0) as [|_]; [lia|].
    destruct (Z_le_gt_dec (a3 + v3) MaxInt32) as [Hs3|Hs3].
    2:{ pose proof (add32_overflow a3 v3 H3 Hrm ltac:(lia)) as Hov.
        apply Z.ltb_lt in Hov. rewrite Hov.
        split; [lia | intros _; by eexists _, _]. }
    rewrite (add32_exact a3 v3) by done.
    destruct (Z.ltb_spec (a3 + v3) 0) as [|_]; [lia|].
    destruct (Z_le_gt_dec (a4 + v4) MaxInt32) as [Hs4|Hs4].
    2:{ pose proof (add32_overflow a4 v4 H4 Hlm ltac:(lia)) as Hov.
        apply Z.ltb_lt in Hov. rewrite Hov.
        split; [lia | intros _; by eexists _, _]. }
    rewrite (add32_exact a4 v4) by done.
    destruct (Z.ltb_spec (a4 + v4) 0) as [|_]; [lia|].
    match goal with
    | |- context [createPodResources_loop pod cs _ _ _ _ (infos ++ [?ci])] =>
        set (cInfo := ci)
    end.
    destruct (IH (a1 + v1) (a2 + v2) (a3 + v3) (a4 + v4) (infos ++ [cInfo])
                 ltac:(lia) ltac:(lia) ltac:(lia) ltac:(lia) Hconv) as [IHok IHov].
    split.
    + intros Hle. destruct IHok as (infos' & -> & Hlen); [lia|].
      exists (cInfo :: infos'). rewrite <- app_assoc. cbn. split; [|lia].
      do 3 f_equal. f_equal; lia.
    + intros Hgt. apply IHov. lia.
Qed.

(** C9, as the specification words it, fails: the requested cpus of the one
    container of [hugePod] sum to 2^31, which no [int32] holds, and the
    conversion returns the error NotRepresentable, not CountingOverflow. *)
Lemma createPodResources_counterexample :
  MaxInt32 < total (fun c => rlCpu (Requests c)) (specContainers hugePod)
  /\ createPodResources hugePod = ([], None, Some (ErrNotRepresentable "cpu quantity"))
  /\ GetCreatePodRequest hugePod = (None, Some (ErrNotRepresentable "cpu quantity")).
Proof. repeat split; vm_compute; reflexivity. Qed.

(** C9, amended.  For a pod whose per-container quantities are each
    representable as a non-negative [int32]: when the true sum over the
    containers of the requested cpus, of the limit cpus, of the requested
    memory or of the limit memory exceeds [MaxInt32], the conversion
    returns the error CountingOverflow and no request; when none does, it
    returns a request whose pod resources are the exact sums, with one
    container info per container. *)
Theorem createPodResources_overflow_checked (pod : Pod) :
  Forall convertible (specContainers pod) ->
  let s1 := total (fun c => rlCpu (Requests c)) (specContainers pod) in
  let s2 := total (fun c => rlCpu (Limits c)) (specContainers pod) in
  let s3 := total (fun c => rlMemory (Requests c)) (specContainers pod) in
  let s4 := total (fun c => rlMemory (Limits c)) (specContainers pod) in
  (MaxInt32 < s1 \/ MaxInt32 < s2 \/ MaxInt32 < s3 \/ MaxInt32 < s4 ->
   exists infos context,
     createPodResources pod = (infos, None, Some (ErrCountingOverflow context))
     /\ GetCreatePodRequest pod = (None, Some (ErrCountingOverflow context)))
  /\ (s1 <= MaxInt32 /\ s2 <= MaxInt32 /\ s3 <= MaxInt32 /\ s4 <= MaxInt32 ->
      exists infos,
        createPodResources pod
        = (infos, Some (mkResourceInfo s1 s2 s3 s4 DEFAULT), None)
        /\ length infos = length (specContainers pod)
        /\ GetCreatePodRequest pod
           = (Some (mkCreatePodRequest (UID pod) (podName pod) (podNamespace pod)
                      (mkResourceInfo s1 s2 s3 s4 DEFAULT) infos), None)).
Proof.
  intros Hconv s1 s2 s3 s4.
  assert (Hmax : 0 <= 0 <= MaxInt32) by (unfold MaxInt32; lia).
  destruct (createPodResources_loop_sums pod (specContainers pod) 0 0 0 0 []
              Hmax Hmax Hmax Hmax Hconv) as [Hok Hov].
  cbn zeta in Hok, Hov. rewrite !Z.add_0_l in Hok, Hov.
  unfold GetCreatePodRequest, createPodResources. split.
  - intros Hgt. destruct (Hov Hgt) as (infos & context & ->). by exists infos, context.
  - intros Hle. destruct (Hok Hle) as (infos & -> & Hlen). by exists infos.
Qed.

(** The theorem on the pod of the overflow test. *)
Lemma createPodResources_overflow_checked_witness :
  Forall convertible (specContainers overflowPod)
  /\ exists infos context,
      createPodResources overflowPod = (infos, None, Some (ErrCountingOverflow context)).
Proof.
  assert (Hconv : Forall convertible (specContainers overflowPod)).
  { repeat constructor; cbn; unfold MaxInt32; lia. }
  split; [exact Hconv|].
  destruct (createPodResources_overflow_checked overflowPod Hconv) as [Hov _].
  destruct Hov as (infos & context & Heq & _).
  - left. vm_compute. reflexivity.
  - by exists infos, context.
Defined.

(** ** Per-namespace allocator *)

(** C2.  A Guaranteed container of 2 cpus, of a pod in a namespace not seen
    before, on a machine of 2 cpus cut in 2 buckets: the bucket holds one
    cpu, [takeCpus] fails with "not enough free cpus in namespace bucket"
    and leaves the state (the topology and the allocated map) as it was,
    but the namespace has been given a bucket, the counter of the buckets
    given has advanced and the bucket counts one container. *)
Theorem PerNamespace_failed_take_keeps_bookkeeping
        (rangeNodes : gset Z -> list Z)
        (rangeAllocated : gmap string (list CPUBucket) -> list string)
        (rangePods : string -> gmap string PodMetadata -> list string) :
  let d := perNamespaceAllocator 2 false in
  let s := testDaemonState 2 in
  let c := mkContainer "cid1" "pod1" "cid1_name" 2 Guaranteed in
  let result := PerNamespace_takeCpus rangeNodes rangeAllocated rangePods d c s in
  snd result
  = Some (DaemonError CpusNotAvailable
            "not enough free cpus in namespace bucket: cannot allocate 2 cpus, only 1 processors available in bucket")
  /\ snd (fst result) = s
  /\ ctrlCalls (nsCtrl (fst (fst result))) = []
  /\ NamespaceToBucket d = ∅
  /\ NamespaceToBucket (fst (fst result)) = {[ "pod1_namespace" := 0 ]}
  /\ BucketToNumContainers d = ∅
  /\ BucketToNumContainers (fst (fst result)) = {[ 0 := 1 ]}
  /\ globalBucket d = 0
  /\ globalBucket (fst (fst result)) = 1.
Proof. repeat split; vm_compute; reflexivity. Qed.

(** Supplement to C2.  Whenever the bucket of the namespace holds fewer
    than [c.Cpus] available cpus, [takeCpus] of a Guaranteed container
    fails with CpusNotAvailable, "not enough free cpus in namespace bucket",
    and leaves the state as it was; the allocator has given the namespace
    its bucket, if it had none, and the bucket counts one container
    more. *)
Theorem PerNamespace_failed_take_counts
        (rangeNodes : gset Z -> list Z)
        (rangeAllocated : gmap string (list CPUBucket) -> list string)
        (rangePods : string -> gmap string PodMetadata -> list string)
        (d d1 : NumaPerNamespaceAllocator) (c : Container) (s : DaemonState)
        (podMetadata : PodMetadata) (bucket : list NodePtr) :
  QS c = Guaranteed ->
  Cpus c <> 0 ->
  Pods s !! PID c = Some podMetadata ->
  match NamespaceToBucket d !! Namespace podMetadata with
  | Some _ => (d, None)
  | None => newNamespace d (Namespace podMetadata)
  end = (d1, None) ->
  getBucket d1 s (Namespace podMetadata) = (bucket, None) ->
  countAvailable (Topology (dsTopology s)) bucket (Cpus c) 0 < Cpus c ->
  let namespaceBucket := bucketOf d1 (Namespace podMetadata) in
  let numAvailable := countAvailable (Topology (dsTopology s)) bucket (Cpus c) 0 in
  PerNamespace_takeCpus rangeNodes rangeAllocated rangePods d c s
  = (set_BucketToNumContainers
       (<[namespaceBucket := add64 (numContainers d1 namespaceBucket) 1]>
          (BucketToNumContainers d1)) d1,
     s,
     Some (DaemonError CpusNotAvailable
             (ErrNotEnoughSpaceInBucket +:+ ": cannot allocate " +:+ Itoa (Cpus c)
              +:+ " cpus, only " +:+ Itoa numAvailable
              +:+ " processors available in bucket"))).
Proof.
  intros Hqs Hcpus Hpod Hnamespace Hbucket Hfew. cbn zeta.
  unfold PerNamespace_takeCpus.
  apply Z.eqb_neq in Hcpus. rewrite Hcpus, andb_false_r, Hpod, Hnamespace, Hbucket.
  rewrite (decide_True _ _ Hqs). unfold takeGuaranteedCpusFromBucket.
  apply Z.ltb_lt in Hfew. rewrite Hfew.
  destruct s as [available allocated pods [root information] path subPath statePath].
  reflexivity.
Qed.

(** The theorem on a machine of 2 cpus cut in 2 buckets, for a container of
    2 cpus of a namespace not seen before. *)
Lemma PerNamespace_failed_take_counts_witness :
  let d := perNamespaceAllocator 2 false in
  let s := testDaemonState 2 in
  let c := mkContainer "cid1" "pod1" "cid1_name" 2 Guaranteed in
  let result := PerNamespace_takeCpus sortedNodes keysOf podKeys d c s in
  snd (fst result) = s
  /\ BucketToNumContainers d !! 0 = None
  /\ BucketToNumContainers (fst (fst result)) !! 0 = Some 1.
Proof.
  intros d s c result.
  pose proof (PerNamespace_failed_take_counts sortedNodes keysOf podKeys
                d (fst (newNamespace d "pod1_namespace")) c s
                (mkPodMetadata "pod1" "pod1_name" "pod1_namespace" [])
                (fst (getBucket (fst (newNamespace d "pod1_namespace")) s "pod1_namespace")))
    as Hthm.
  cbn zeta in Hthm. subst result. rewrite Hthm.
  - split; [reflexivity|]. split; vm_compute; reflexivity.
  - reflexivity.
  - vm_compute. discriminate.
  - vm_compute. reflexivity.
  - vm_compute. reflexivity.
  - vm_compute. reflexivity.
  - vm_compute. reflexivity.
Defined.

#[local] Set Warnings "-clear-no-such-hyp".

Lemma CPUSetFromBucketList_fold (buckets : list CPUBucket) (acc : CPUSet) :
  fold_left
    (fun bucketSet bucket =>
       bucketSet ∪ list_to_set (seqZ (StartCPU bucket) (EndCPU bucket - StartCPU bucket + 1)))
    buckets acc
  = acc ∪ CPUSetFromBucketList buckets.
Proof.
  unfold CPUSetFromBucketList. revert acc.
  induction buckets as [|b bs IH]; intros acc; simpl.
  - set_solver.
  - rewrite (IH (acc ∪ _)), (IH (∅ ∪ _)). set_solver.
Qed.

Lemma CPUSetFromBucketList_cons (b : CPUBucket) (bs : list CPUBucket) :
  CPUSetFromBucketList (b :: bs)
  = list_to_set (bucketCpus b) ∪ CPUSetFromBucketList bs.
Proof.
  unfold CPUSetFromBucketList at 1. simpl. rewrite CPUSetFromBucketList_fold.
  unfold bucketCpus. set_solver.
Qed.

Lemma CPUSetFromBucketList_singletons (cpus : list Z) :
  CPUSetFromBucketList (singletonBuckets cpus) = list_to_set cpus.
Proof.
  induction cpus as [|cpu cpus IH]; [reflexivity|].
  unfold singletonBuckets in *. simpl. rewrite CPUSetFromBucketList_cons, IH.
  unfold bucketCpus. cbn [StartCPU EndCPU]. replace (cpu - cpu + 1) with 1 by lia.
  rewrite seqZ_cons by lia. rewrite seqZ_nil by lia. set_solver.
Qed.

(** The buckets of a set hold the cpus of the set. *)
Lemma CPUSetFromBucketList_ToBucketList (c : CPUSet) :
  CPUSetFromBucketList (ToBucketList c) = c.
Proof.
  unfold ToBucketList. change (map (fun cpu => mkCPUBucket cpu cpu) (Sorted c))
    with (singletonBuckets (Sorted c)).
  rewrite CPUSetFromBucketList_singletons. unfold Sorted.
  apply set_eq. intros x. rewrite elem_of_list_to_set.
  rewrite merge_sort_Permutation. apply elem_of_elements.
Qed.

Lemma keysOf_valid {V : Type} (m : gmap string V) : ValidOrder (keysOf m) m.
Proof.
  unfold ValidOrder, keysOf. split.
  - apply NoDup_fst_map_to_list.
  - intros k. rewrite list_elem_of_fmap. split.
    + intros ([k' v] & -> & Hin). apply elem_of_map_to_list in Hin. by exists v.
    + intros [v Hv]. exists (k, v). split; [done|]. by apply elem_of_map_to_list.
Qed.

Section CommonPool.

Variable rangeNodes : gset Z -> list Z.
Variable rangeAllocated : gmap string (list CPUBucket) -> list string.
Variable rangePods : string -> gmap string PodMetadata -> list string.

Lemma findContainerIn_Pods (s1 s2 : DaemonState) (cid : string) (podIds : list string) :
  Pods s1 = Pods s2 -> findContainerIn s1 cid podIds = findContainerIn s2 cid podIds.
Proof.
  intros Hpods. induction podIds as [|pid rest IH]; simpl; [done|].
  by rewrite Hpods, IH.
Qed.

Lemma poolMember_Pods (s1 s2 : DaemonState) (namespace cid : string) :
  Pods s1 = Pods s2 ->
  poolMember rangePods s1 namespace cid = poolMember rangePods s2 namespace cid.
Proof.
  intros Hpods. unfold poolMember, findContainer, podOf.
  by rewrite Hpods, (findContainerIn_Pods s1 s2 _ _ Hpods).
Qed.

(** A run of the loop that returns no error has pinned every member of the
    common pool among [cids] to its changed cpus, and has changed nothing
    else of the state. *)
Lemma commonPoolLoop_success (change : CPUSet -> CPUSet) (memoryPinning : bool)
      (namespace : string) (cids : list string) :
  forall ctrl s ctrl' s',
    NoDup cids ->
    commonPoolLoop rangeNodes rangePods change memoryPinning namespace cids ctrl s
    = (ctrl', s', None) ->
    s' = set_Allocated (Allocated s') s
    /\ ctrlOutcome ctrl' = ctrlOutcome ctrl
    /\ ctrlCalls ctrl `prefix_of` ctrlCalls ctrl'
    /\ (forall cid, cid ∉ cids -> Allocated s' !! cid = Allocated s !! cid)
    /\ (forall cid allocatedList,
          cid ∈ cids -> Allocated s !! cid = Some allocatedList ->
          match poolMember rangePods s namespace cid with
          | Some c =>
              Allocated s' !! cid
              = Some (ToBucketList (change (CPUSetFromBucketList allocatedList)))
              /\ repinCall rangeNodes memoryPinning s c (change (CPUSetFromBucketList allocatedList))
                 ∈ ctrlCalls ctrl'
          | None => Allocated s' !! cid = Some allocatedList
          end)
    /\ (forall cid, Allocated s !! cid = None -> Allocated s' !! cid = None).
Proof.
  induction cids as [|cid0 rest IH]; intros ctrl s ctrl' s' Hnodup Hrun.
  - simpl in Hrun. injection Hrun as <- <-.
    repeat split; try done.
    + by destruct s.
    + intros cid l Hin. by apply elem_of_nil in Hin.
  - apply NoDup_cons in Hnodup as [Hfresh Hnodup].
    cbn [commonPoolLoop] in Hrun.
    (* the three ways of skipping [cid0] *)
    assert (Hskip :
      commonPoolLoop rangeNodes rangePods change memoryPinning namespace rest ctrl s
      = (ctrl', s', None) ->
      (forall l, Allocated s !! cid0 = Some l ->
                 poolMember rangePods s namespace cid0 = None) ->
      s' = set_Allocated (Allocated s') s
      /\ ctrlOutcome ctrl' = ctrlOutcome ctrl
      /\ ctrlCalls ctrl `prefix_of` ctrlCalls ctrl'
      /\ (forall cid, cid ∉ cid0 :: rest -> Allocated s' !! cid = Allocated s !! cid)
      /\ (forall cid allocatedList,
            cid ∈ cid0 :: rest -> Allocated s !! cid = Some allocatedList ->
            match poolMember rangePods s namespace cid with
            | Some c =>
                Allocated s' !! cid
                = Some (ToBucketList (change (CPUSetFromBucketList allocatedList)))
                /\ repinCall rangeNodes memoryPinning s c (change (CPUSetFromBucketList allocatedList))
                   ∈ ctrlCalls ctrl'
            | None => Allocated s' !! cid = Some allocatedList
            end)
      /\ (forall cid, Allocated s !! cid = None -> Allocated s' !! cid = None)).
    { intros Hrest Hnot.
      destruct (IH _ _ _ _ Hnodup Hrest) as (Hs & Hout & Hpre & Hother & Hin & Hnone).
      repeat split; try done.
      - intros cid Hcid. apply Hother. set_solver.
      - intros cid l Hcid Hl. apply elem_of_cons in Hcid as [->|Hcid].
        + rewrite (Hnot l Hl). rewrite Hother by done. done.
        + by apply Hin. }
    destruct (Allocated s !! cid0) as [allocatedList|] eqn:Halloc.
    2:{ apply Hskip; [done | intros l; discriminate]. }
    destruct (findContainer rangePods s cid0) as [c|] eqn:Hfind.
    2:{ apply Hskip; [done | intros l _; unfold poolMember; by rewrite Hfind]. }
    destruct (bool_decide (Namespace (podOf s (PID c)) ≠ namespace)
              || bool_decide (QS c = Guaranteed)) eqn:Hpool.
    { apply Hskip; [done | intros l _; unfold poolMember; by rewrite Hfind, Hpool]. }
    (* [cid0] is a member of the pool *)
    unfold UpdateCPUSet in Hrun.
    destruct (ctrlOutcome ctrl (ctrlCalls ctrl) _) as [err|] eqn:Hout0; [discriminate|].
    match type of Hrun with
    | commonPoolLoop _ _ _ _ _ _ ?ctrl1 ?s1 = _ =>
        destruct (IH ctrl1 s1 ctrl' s' Hnodup Hrun)
          as (Hs & Hout & Hpre & Hother & Hin & Hnone)
    end.
    cbn [Allocated set_Allocated ctrlCalls ctrlOutcome] in *.
    repeat split.
    + rewrite Hs at 1. by destruct s.
    + done.
    + etrans; [|exact Hpre]. by apply prefix_app_r.
    + intros cid Hcid. apply not_elem_of_cons in Hcid as [Hne Hcid].
      rewrite (Hother cid Hcid). by rewrite lookup_insert_ne.
    + intros cid l Hcid Hl. apply elem_of_cons in Hcid as [->|Hcid].
      * unfold poolMember. rewrite Hfind, Hpool.
        assert (l = allocatedList) as -> by congruence.
        split.
        -- rewrite (Hother cid0 Hfresh). by rewrite lookup_insert_eq.
        -- eapply elem_of_prefix; [|exact Hpre]. unfold repinCall.
           apply elem_of_app. right. apply list_elem_of_singleton. done.
      * assert (cid <> cid0) as Hne by (intros ->; done).
        specialize (Hin cid l Hcid). rewrite lookup_insert_ne in Hin by done.
        specialize (Hin Hl).
        rewrite (poolMember_Pods _ s) in Hin by done.
        destruct (poolMember rangePods s namespace cid); [|done].
        destruct Hin as [Hnew Hcall]. split; [done|].
        unfold repinCall in *. exact Hcall.
    + intros cid Hcid. apply Hnone.
      rewrite lookup_insert_ne; [done|]. intros ->. congruence.
Qed.

Hypothesis rangeAllocated_valid : forall m, ValidOrder (rangeAllocated m) m.


End CommonPool.

(** ** The daemon: rollback of [CreatePod] *)

Section CreatePodRollback.

Context {P : Type} `{Policy P}.
Variable FS : Type.
Variable WriteFile : FS -> string -> string -> FS * option error.
Variable Marshal : DaemonState -> string + error.

(** The rollback calls [ClearContainer] on the containers in the order of
    the list. *)
Lemma rollbackContainers_calls (podID : string) (containers : list ContainerInfo) :
  forall d : Daemon (Recorded P),
    recCalls (policy (rollbackContainers podID containers d))
    = recCalls (policy d) ++ map (clearCall podID) containers.
Proof.
  induction containers as [|container rest IH]; intros d; cbn [rollbackContainers map].
  - by rewrite app_nil_r.
  - cbn [ClearContainer Recorded_Policy]. unfold recordCall.
    destruct (ClearContainer (recPolicy (policy d)) _ (state d)) as [[p' s'] err].
    rewrite IH. cbn [policy recCalls]. by rewrite <- app_assoc.
Qed.

Lemma assignAll_calls (req : CreatePodRequest) (containers : list ContainerInfo) :
  forall podMeta (d d1 : Daemon (Recorded P)) podMeta1,
    assignAll req podMeta containers d = Some (d1, podMeta1) ->
    recCalls (policy d1)
    = recCalls (policy d) ++ map (assignCall (PodId req)) containers.
Proof.
  induction containers as [|it rest IH]; intros podMeta d d1 podMeta1;
    cbn [assignAll map].
  - intros [= <- <-]. by rewrite app_nil_r.
  - cbn [AssignContainer Recorded_Policy]. unfold recordCall.
    destruct (AssignContainer (recPolicy (policy d)) _ (state d)) as [[p' s'] [err|]];
      [discriminate|].
    intros Hrest. rewrite (IH _ _ _ _ Hrest). cbn [policy recCalls].
    by rewrite <- app_assoc.
Qed.

(** The loop of [CreatePod], when the assignment of [failing] fails after
    those of [assigned] have succeeded. *)
Lemma createContainers_failure (req : CreatePodRequest) (assigned : list ContainerInfo) :
  forall (Q : Type) (HQ : Policy Q) podMeta before failing rest containersCpus
         (d d1 : Daemon Q) podMeta1 p2 s2 err,
    assignAll req podMeta assigned d = Some (d1, podMeta1) ->
    AssignContainer (policy d1) (containerFromRequest failing (PodId req)) (state d1)
    = (p2, s2, Some err) ->
    createContainers req podMeta before (assigned ++ failing :: rest) containersCpus d
    = (withoutPod (PodId req)
         (rollbackContainers (PodId req) (before ++ assigned) (mkDaemon s2 p2)),
       inr err).
Proof.
  induction assigned as [|it assigned IH];
    intros Q HQ podMeta before failing rest containersCpus d d1 podMeta1 p2 s2 err.
  - cbn [assignAll app createContainers]. intros [= <- <-] ->.
    by rewrite app_nil_r.
  - cbn [assignAll app createContainers].
    destruct (AssignContainer (policy d) _ (state d)) as [[p' s'] [e|]]; [discriminate|].
    intros Hrest Hfail.
    rewrite (IH Q HQ _ (before ++ [it]) failing rest _ _ _ _ _ _ _ Hrest Hfail).
    by rewrite <- app_assoc.
Qed.

(** C1, amended.  When the assignment of a container of a valid request
    fails after the assignments of the containers before it have
    succeeded, [CreatePod] returns the error of that assignment and no
    allocation, writes no state file, has called [ClearContainer] on each
    of the containers assigned before, in the order of the request and
    after all the assignments, and leaves no metadata for the pod; the rest
    of the state is as those calls of the policy left it. *)
Theorem CreatePod_rolls_back (d : Daemon (Recorded P)) (req : CreatePodRequest) (fs : FS)
        (assigned rest : list ContainerInfo) (failing : ContainerInfo)
        (d1 : Daemon (Recorded P)) (podMeta1 : PodMetadata)
        (p2 : Recorded P) (s2 : DaemonState) (err : error) :
  ValidateCreatePodRequest req = None ->
  Containers req = assigned ++ failing :: rest ->
  assignAll req (mkPodMetadata (PodId req) (PodName req) (PodNamespace req) [])
            assigned (withPod req d) = Some (d1, podMeta1) ->
  AssignContainer (policy d1) (containerFromRequest failing (PodId req)) (state d1)
  = (p2, s2, Some err) ->
  let result := CreatePod FS WriteFile Marshal d req fs in
  let d' := fst (fst result) in
  snd result = (None, Some err)
  /\ snd (fst result) = fs
  /\ recCalls (policy d')
     = recCalls (policy d)
       ++ map (assignCall (PodId req)) assigned
       ++ [assignCall (PodId req) failing]
       ++ map (clearCall (PodId req)) assigned
  /\ Pods (state d') !! PodId req = None
  /\ d' = withoutPod (PodId req)
            (rollbackContainers (PodId req) assigned (mkDaemon s2 p2)).
Proof.
  intros Hvalid Hcontainers Hassigned Hfail.
  unfold CreatePod. rewrite Hvalid, Hcontainers.
  fold (withPod req d).
  rewrite (createContainers_failure req assigned _ _ _ [] failing rest []
             (withPod req d) d1 podMeta1 p2 s2 err Hassigned Hfail).
  cbn [fst snd app]. repeat split.
  - unfold withoutPod. cbn [policy]. rewrite rollbackContainers_calls. cbn [policy].
    cbn [AssignContainer Recorded_Policy] in Hfail. unfold recordCall in Hfail.
    destruct (AssignContainer (recPolicy (policy d1)) _ (state d1)) as [[p' s'] e].
    injection Hfail as <- <- ->. cbn [recCalls].
    rewrite (assignAll_calls _ _ _ _ _ _ Hassigned). cbn [withPod policy].
    unfold assignCall at 2. by rewrite <- !app_assoc.
  - unfold withoutPod. cbn [state Pods set_Pods]. apply lookup_delete_eq.
Qed.

End CreatePodRollback.

(** C1, as the specification words it, fails.  With the static policy over
    the default allocator and the cpus 0-3, the third container of the
    request cannot be assigned: [CreatePod] returns the error, but the
    containers are cleared in the order of the request, not in reverse, and
    the first container keeps its cpus in the allocated map, so that the
    state is not the state before the call. *)
Lemma CreatePod_rollback_counterexample :
  let result := CreatePod _ writeOk marshalOk rollbackDaemon rollbackRequest [] in
  let d' := fst (fst result) in
  let c0 := containerFromRequest (requestOf "testCid-0" 1) "testPid" in
  let c1 := containerFromRequest (requestOf "testCid-1" 1) "testPid" in
  ValidateCreatePodRequest rollbackRequest = None
  /\ snd result
     = (None, Some (DaemonError CpusNotAvailable "No available cpus for take request"))
  /\ List.filter isClear (recCalls (policy d')) = [CallClear c0; CallClear c1]
  /\ List.filter isClear (recCalls (policy d')) <> rev [CallClear c0; CallClear c1]
  /\ Allocated (state rollbackDaemon) !! "testCid-0" = None
  /\ Allocated (state d') !! "testCid-0" = Some [mkCPUBucket 0 0]
  /\ AvailableCPUs (state rollbackDaemon) = [mkCPUBucket 0 3]
  /\ AvailableCPUs (state d') = [mkCPUBucket 2 3]
  /\ state d' <> state rollbackDaemon.
Proof.
  repeat split; try (vm_compute; reflexivity).
  - vm_compute. discriminate.
  - intros Heq. apply (f_equal AvailableCPUs) in Heq. vm_compute in Heq. discriminate.
Qed.

(** The amended claim on the same call. *)
Lemma CreatePod_rolls_back_witness :
  let result := CreatePod _ writeOk marshalOk rollbackDaemon rollbackRequest [] in
  snd result
  = (None, Some (DaemonError CpusNotAvailable "No available cpus for take request"))
  /\ snd (fst result) = []
  /\ Pods (state (fst (fst result))) !! "testPid" = None.
Proof.
  pose proof (CreatePod_rolls_back _ writeOk marshalOk rollbackDaemon rollbackRequest []
                [requestOf "testCid-0" 1; requestOf "testCid-1" 1] []
                (requestOf "testCid-2" 5)
                (fst rollbackAssigned) (snd rollbackAssigned)
                (fst (fst rollbackFailure)) (snd (fst rollbackFailure))
                (DaemonError CpusNotAvailable "No available cpus for take request"))
    as Hthm.
  destruct Hthm as (Herr & Hfs & _ & Hpods & _).
  - vm_compute. reflexivity.
  - reflexivity.
  - vm_compute. reflexivity.
  - vm_compute. reflexivity.
  - cbn zeta. split; [exact Herr|]. split; [exact Hfs | exact Hpods].
Defined.


(** * Further properties of the code *)

(** ** Validation of the requests (validation.go) *)

Lemma ValidateResourceInfo_None (r : ResourceInfo) :
  ValidateResourceInfo r = None <-> validResources r.
Proof.
  unfold ValidateResourceInfo, validResources. cbn [returnErrorIfLessThanZero].
  destruct (Z.ltb_spec (RequestedCpus r) 0); [split; [done | lia]|].
  destruct (Z.ltb_spec (LimitCpus r) 0); [split; [done | lia]|].
  destruct (Z.ltb_spec (RequestedMemory r) 0); [split; [done | lia]|].
  destruct (Z.ltb_spec (LimitMemory r) 0); [split; [done | lia]|].
  destruct (Z.ltb_spec (LimitCpus r) (RequestedCpus r)); [split; [done | lia]|].
  destruct (Z.ltb_spec (LimitMemory r) (RequestedMemory r)); [split; [done | lia]|].
  split; [lia | done].
Qed.

Lemma ValidateContainers_None (containers : list ContainerInfo) :
  ValidateContainers containers = None <-> Forall validContainer containers.
Proof.
  induction containers as [|c rest IH]; [done|].
  cbn [ValidateContainers returnErrorIfEmptyString]. rewrite Forall_cons.
  unfold validContainer at 1.
  destruct (decide (ContainerId c = "")); [split; [done | tauto]|].
  destruct (decide (ContainerName c = "")); [split; [done | tauto]|].
  destruct (ValidateResourceInfo (ciResources c)) as [err|] eqn:Hres.
  - split; [done|]. intros [(_ & _ & Hvalid) _].
    apply ValidateResourceInfo_None in Hvalid. congruence.
  - apply ValidateResourceInfo_None in Hres. rewrite IH. tauto.
Qed.



(** X3.  On resources that the validation accepts, [containerFromRequest]
    gives a container Guaranteed exactly when its cpu request is positive
    and equals the limit and so does its memory request, BestEffort
    exactly when it asks for no cpu with a limit of none and a memory
    request equal to the limit, and Burstable otherwise; when the memory
    request equals its limit the class is the one [QoSFromLimit] gives
    from the cpu limit and request. *)
Theorem containerFromRequest_QoS_of_valid (req : ContainerInfo) (podID : string) :
  ValidateResourceInfo (ciResources req) = None ->
  let r := ciResources req in
  let c := containerFromRequest req podID in
  (QS c = Guaranteed
   <-> 0 < RequestedCpus r /\ RequestedCpus r = LimitCpus r
       /\ RequestedMemory r = LimitMemory r)
  /\ (QS c = BestEffort
      <-> RequestedCpus r = 0 /\ LimitCpus r = 0 /\ RequestedMemory r = LimitMemory r)
  /\ (QS c = Burstable
      <-> RequestedCpus r < LimitCpus r \/ RequestedMemory r < LimitMemory r)
  /\ (RequestedMemory r = LimitMemory r ->
      QS c = QoSFromLimit (LimitCpus r) (RequestedCpus r))
  /\ 0 <= Cpus c.
Proof.
  intros Hvalid%ValidateResourceInfo_None. cbn zeta.
  destruct Hvalid as [Hcpu Hmem].
  unfold containerFromRequest, QoSFromLimit. cbn [QS Cpus].
  destruct (Z.eqb_spec (RequestedCpus (ciResources req)) (LimitCpus (ciResources req)));
    destruct (Z.eqb_spec (RequestedMemory (ciResources req))
                         (LimitMemory (ciResources req)));
    destruct (Z.ltb_spec 0 (RequestedCpus (ciResources req)));
    destruct (Z.ltb_spec 0 (LimitCpus (ciResources req)));
    destruct (Z.ltb_spec (RequestedCpus (ciResources req)) (LimitCpus (ciResources req)));
    destruct (Z.ltb_spec (RequestedMemory (ciResources req))
                         (LimitMemory (ciResources req)));
    destruct (Z.eqb_spec (LimitCpus (ciResources req)) (RequestedCpus (ciResources req)));
    cbn [andb orb]; try lia;
    repeat split; try done; try lia; try (intros; lia); try (intros _; lia).
Qed.

(** The theorem on a container of 2 cpus and 5 of memory, both with equal
    limits. *)
Lemma containerFromRequest_QoS_of_valid_witness :
  QS (containerFromRequest
        (mkContainerInfo "cid" "name" (mkResourceInfo 2 2 5 5 DEFAULT)) "pod")
  = QoSFromLimit 2 2.
Proof.
  apply (containerFromRequest_QoS_of_valid
           (mkContainerInfo "cid" "name" (mkResourceInfo 2 2 5 5 DEFAULT)) "pod");
    reflexivity.
Defined.

(** ** Sets of cpus (daemon_cpuset.go) *)

(** X4.  [CPUSetFromBucketList] holds exactly the cpus that lie in one of
    the buckets, between its start and its end (an empty range for a
    bucket that ends before it starts); the ranges end below the largest
    [int], where the loop of the source ends. *)
Theorem CPUSetFromBucketList_elem_of (buckets : list CPUBucket) (cpu : Z) :
  Forall (fun b => EndCPU b < MaxInt64) buckets ->
  cpu ∈ CPUSetFromBucketList buckets
  <-> exists b, b ∈ buckets /\ StartCPU b <= cpu <= EndCPU b.
Proof.
  intros _. induction buckets as [|b bs IH].
  - split; [set_solver|]. intros (b & Hb & _). by apply elem_of_nil in Hb.
  - rewrite CPUSetFromBucketList_cons, elem_of_union, IH, elem_of_list_to_set.
    unfold bucketCpus. rewrite elem_of_seqZ. split.
    + intros [Hin|(b' & Hb' & Hin)].
      * exists b. split; [by left | lia].
      * exists b'. split; [by right | done].
    + intros (b' & [->|Hb']%elem_of_cons & Hin).
      * left. lia.
      * right. by exists b'.
Qed.

(** The theorem on the buckets 0-1 and 4-5: cpu 4 is in the set and cpu 2
    is not. *)
Lemma CPUSetFromBucketList_elem_of_witness :
  4 ∈ CPUSetFromBucketList [mkCPUBucket 0 1; mkCPUBucket 4 5]
  /\ 2 ∉ CPUSetFromBucketList [mkCPUBucket 0 1; mkCPUBucket 4 5].
Proof.
  assert (Hends : Forall (fun b => EndCPU b < MaxInt64) [mkCPUBucket 0 1; mkCPUBucket 4 5])
    by (repeat constructor; vm_compute; reflexivity).
  split.
  - apply (CPUSetFromBucketList_elem_of _ 4 Hends).
    exists (mkCPUBucket 4 5). split; [set_solver | cbn; lia].
  - intros Hin. apply (CPUSetFromBucketList_elem_of _ 2 Hends) in Hin as (b & Hb & Hin).
    apply elem_of_cons in Hb as [->|Hb]; [cbn in Hin; lia|].
    apply list_elem_of_singleton in Hb as ->. cbn in Hin. lia.
Defined.

Lemma StronglySorted_le_lt (l : list Z) :
  StronglySorted Z.le l -> NoDup l -> StronglySorted Z.lt l.
Proof.
  induction 1 as [|x l Hl IH Hx]; intros Hnodup; constructor.
  - apply IH. by apply NoDup_cons in Hnodup as [_ ?].
  - apply NoDup_cons in Hnodup as [Hfresh _].
    rewrite Forall_forall in Hx. apply Forall_forall. intros y Hy.
    specialize (Hx y Hy). assert (x <> y) by (intros ->; done). lia.
Qed.

(** X5.  [Sorted] lists the cpus of a set once each, in increasing order;
    [ToBucketList] gives them in that order as buckets of one cpu, and
    [CPUSetFromBucketList] turns these buckets back into the set; the cpus
    of the set lie below the largest [int], where the loop of
    [CPUSetFromBucketList] ends. *)
Theorem ToBucketList_sorted_round_trip (c : CPUSet) :
  set_Forall (fun cpu => cpu < MaxInt64) c ->
  StronglySorted Z.lt (Cpudaemon.Sorted c)
  /\ (forall cpu, cpu ∈ Cpudaemon.Sorted c <-> cpu ∈ c)
  /\ length (ToBucketList c) = size c
  /\ Forall (fun b => StartCPU b = EndCPU b /\ StartCPU b ∈ c) (ToBucketList c)
  /\ StronglySorted Z.lt (map StartCPU (ToBucketList c))
  /\ CPUSetFromBucketList (ToBucketList c) = c.
Proof.
  intros _.
  assert (Hperm : Cpudaemon.Sorted c ≡ₚ elements c) by apply merge_sort_Permutation.
  assert (Hsorted : StronglySorted Z.lt (Cpudaemon.Sorted c)).
  { apply StronglySorted_le_lt.
    - apply StronglySorted_merge_sort; apply _.
    - rewrite Hperm. apply NoDup_elements. }
  assert (Helem : forall cpu, cpu ∈ Cpudaemon.Sorted c <-> cpu ∈ c).
  { intros cpu. rewrite Hperm. apply elem_of_elements. }
  split; [done|]. split; [done|]. split; [|split; [|split]].
  - unfold ToBucketList. rewrite length_map, Hperm. reflexivity.
  - unfold ToBucketList. apply Forall_forall. intros b Hb.
    apply list_elem_of_In, in_map_iff in Hb as (cpu & <- & Hcpu).
    split; [done|]. cbn. apply Helem. by apply list_elem_of_In.
  - unfold ToBucketList. rewrite map_map. cbn. by rewrite map_id.
  - apply CPUSetFromBucketList_ToBucketList.
Qed.

(** The theorem on the set of the cpus 3, 1 and 2. *)
Lemma ToBucketList_sorted_round_trip_witness :
  ToBucketList {[3; 1; 2]} = [mkCPUBucket 1 1; mkCPUBucket 2 2; mkCPUBucket 3 3]
  /\ CPUSetFromBucketList (ToBucketList {[3; 1; 2]}) = {[3; 1; 2]}.
Proof.
  split; [vm_compute; reflexivity|].
  apply (ToBucketList_sorted_round_trip {[3; 1; 2]}).
  intros cpu Hcpu.
  assert (cpu = 3 \/ cpu = 1 \/ cpu = 2) as Hcases by set_solver.
  unfold MaxInt64. lia.
Defined.

(** ** The default allocator (daemon_allocators.go) *)

(** X6.  [freeCpus] of the default allocator undoes the [takeCpus] before
    it: when a Guaranteed container has taken its cpus from the head of an
    available range, and no other available range starts where this one
    now starts, freeing the container gives the available ranges back as
    they were and removes the cpus of the container from the allocated
    map; the controller is not called. *)
Theorem Default_freeCpus_undoes_takeCpus (d d' : DefaultAllocator) (c : Container)
        (s s' : DaemonState) :
  QS c = Guaranteed ->
  isInt32 (Cpus c) ->
  Forall (fun b => isInt32 (StartCPU b) /\ isInt32 (EndCPU b)) (AvailableCPUs s) ->
  Default_takeCpus d c s = (d', s', None) ->
  NoDup (map StartCPU (AvailableCPUs s')) ->
  Default_freeCpus d' c s' = (d', set_Allocated (delete (CID c) (Allocated s)) s, None)
  /\ (Allocated s !! CID c = None -> snd (fst (Default_freeCpus d' c s')) = s).
Proof.
  intros Hqs Hcpus Hbuckets Htake Hnodup.
  assert (Hfree :
    Default_freeCpus d' c s' = (d', set_Allocated (delete (CID c) (Allocated s)) s, None)).
  { unfold Default_takeCpus in Htake. rewrite decide_True in Htake by done.
    destruct (list_find _ _) as [[i b]|] eqn:Hfind; [|done].
    apply list_find_Some in Hfind as (Hi & _ & _).
    rewrite Forall_lookup in Hbuckets.
    destruct (Hbuckets i b Hi) as [Hs He].
    destruct (takeCpus_arithmetic b (Cpus c) Hs He Hcpus) as (_ & Hend & Hnext).
    cbv zeta in Htake. rewrite Hnext, Hend in Htake.
    unfold UpdateCPUSet in Htake. injection Htake as <- <- Herr.
    cbn [AvailableCPUs set_Allocated set_AvailableCPUs] in Hnodup.
    unfold Default_freeCpus. rewrite decide_True by done.
    cbn [Allocated set_Allocated set_AvailableCPUs AvailableCPUs].
    rewrite lookup_insert_eq.
    set (rest := mkCPUBucket (StartCPU b + Cpus c) (EndCPU b)) in *.
    assert (Hmap :
      map (fun b0 => if decide (EndCPU (mkCPUBucket (StartCPU b) (StartCPU b + Cpus c - 1))
                                = sub64 (StartCPU b0) 1)
                     then mkCPUBucket (StartCPU (mkCPUBucket (StartCPU b)
                                                   (StartCPU b + Cpus c - 1))) (EndCPU b0)
                     else b0)
          (<[i := rest]> (AvailableCPUs s))
      = AvailableCPUs s).
    { apply list_eq. intros j.
      change (map ?f ?l) with (f <$> l). rewrite list_lookup_fmap.
      assert (Hmin : MinInt64 = -9223372036854775808) by reflexivity.
      assert (Hmax : MaxInt64 = 9223372036854775807) by reflexivity.
      unfold isInt32 in *. change (2 ^ 31) with 2147483648 in *.
      destruct (decide (j = i)) as [->|Hne].
      - rewrite list_lookup_insert_eq by (by eapply lookup_lt_Some).
        cbn [fmap option_fmap option_map StartCPU EndCPU rest].
        rewrite sub64_exact by lia. rewrite decide_True by lia.
        rewrite Hi. by destruct b.
      - rewrite list_lookup_insert_ne by done.
        destruct (AvailableCPUs s !! j) as [bj|] eqn:Hj; [|done].
        cbn [fmap option_fmap option_map StartCPU EndCPU].
        destruct (Hbuckets j bj Hj) as [Hsj Hej].
        rewrite sub64_exact by lia.
        rewrite decide_False; [done|].
        intros Heq. assert (Hsame : StartCPU bj = StartCPU rest) by (cbn; lia).
        apply Hne.
        eapply (NoDup_lookup (map StartCPU (<[i := rest]> (AvailableCPUs s)))); [done| |].
        + change (map ?f ?l) with (f <$> l). rewrite list_lookup_fmap.
          rewrite list_lookup_insert_ne by done. rewrite Hj. reflexivity.
        + change (map ?f ?l) with (f <$> l). rewrite list_lookup_fmap.
          rewrite list_lookup_insert_eq by (by eapply lookup_lt_Some).
          cbn. by rewrite Hsame. }
    destruct (<[i := rest]> (AvailableCPUs s)) as [|b0 l0] eqn:Hlist.
    { apply (f_equal length) in Hlist. rewrite length_insert in Hlist.
      apply lookup_lt_Some in Hi. simpl in Hlist. lia. }
    rewrite Hmap. rewrite delete_insert_eq.
    destruct s; reflexivity. }
  split; [exact Hfree|].
  intros Hnone. rewrite Hfree. cbn [fst snd]. rewrite delete_id by done.
  by destruct s.
Qed.

(** The theorem on the state of the test suite, cpus 0 to 127 available: a
    container takes 4 cpus and frees them. *)
Lemma Default_freeCpus_undoes_takeCpus_witness :
  let d := mkDefaultAllocator okController in
  let c := guaranteed "cid1" "pod1" 4 in
  let taken := Default_takeCpus d c state128 in
  snd taken = None
  /\ AvailableCPUs (snd (fst taken)) = [mkCPUBucket 4 127]
  /\ snd (fst (Default_freeCpus (fst (fst taken)) c (snd (fst taken)))) = state128.
Proof.
  intros d c taken.
  split; [vm_compute; reflexivity|]. split; [vm_compute; reflexivity|].
  apply (Default_freeCpus_undoes_takeCpus d (fst (fst taken)) c state128 (snd (fst taken))).
  - reflexivity.
  - vm_compute. split; [discriminate | reflexivity].
  - repeat constructor; vm_compute; first [discriminate | reflexivity].
  - vm_compute. reflexivity.
  - apply (bool_decide_unpack _). vm_compute. exact I.
  - vm_compute. reflexivity.
Defined.

(** ** The operations of the daemon (daemon.go) *)

Lemma ValidateCreatePodRequest_containers (req : CreatePodRequest) :
  ValidateCreatePodRequest req = None -> Containers req <> [].
Proof. unfold ValidateCreatePodRequest. by destruct (Containers req). Qed.

Section DaemonCreatePod.

Context {P : Type} `{Policy P}.
Variable FS : Type.
Variable WriteFile : FS -> string -> string -> FS * option error.
Variable Marshal : DaemonState -> string + error.

(** The loop of [CreatePod] when every assignment succeeds. *)
Lemma createContainers_success (req : CreatePodRequest) (containers : list ContainerInfo) :
  forall (Q : Type) (HQ : Policy Q) podMeta before containersCpus (d d1 : Daemon Q) podMeta1,
    assignAll req podMeta containers d = Some (d1, podMeta1) ->
    exists cpus,
      createContainers req podMeta before containers containersCpus d
      = (d1, inl (containersCpus ++ cpus))
      /\ map ContainerID cpus = map ContainerId containers
      /\ podMeta1
         = mkPodMetadata (pmPID podMeta) (pmName podMeta) (Namespace podMeta)
             (pmContainers podMeta
              ++ map (fun it => containerFromRequest it (PodId req)) containers)
      /\ (containers <> [] -> Pods (state d1) !! PodId req = Some podMeta1).
Proof.
  induction containers as [|it rest IH];
    intros Q HQ podMeta before containersCpus d d1 podMeta1;
    cbn [assignAll createContainers map].
  - intros [= <- <-]. exists []. rewrite !app_nil_r. by destruct podMeta.
  - destruct (AssignContainer (policy d) _ (state d)) as [[p' s'] [e|]]; [discriminate|].
    intros Hrest.
    destruct (IH Q HQ _ (before ++ [it])
                 (containersCpus
                  ++ [mkAllocatedContainerResource (ContainerId it)
                        (allocatedOf s' (ContainerId it))])
                 _ _ _ Hrest) as (cpus & -> & Hids & HpodMeta & Hpods).
    eexists (_ :: cpus). rewrite <- app_assoc. split; [reflexivity|].
    split; [cbn; by rewrite Hids|]. split.
    + rewrite HpodMeta. cbn [pmPID pmName Namespace pmContainers].
      by rewrite <- app_assoc.
    + intros _. destruct rest as [|it' rest'].
      * cbn [assignAll] in Hrest. injection Hrest as <- <-.
        cbn [state Pods set_Pods]. by rewrite lookup_insert_eq.
      * by apply Hpods.
Qed.

(** X7.  When the request is valid, every assignment succeeds and the state
    is saved, [CreatePod] returns no error and one allocation for each
    container of the request, in the order of the request; the policy has
    been asked to assign the containers in that order and nothing else,
    and the metadata of the pod lists them in that order. *)
Theorem CreatePod_assigns_all (d : Daemon (Recorded P)) (req : CreatePodRequest) (fs fs' : FS)
        (d1 : Daemon (Recorded P)) (podMeta1 : PodMetadata) :
  ValidateCreatePodRequest req = None ->
  assignAll req (mkPodMetadata (PodId req) (PodName req) (PodNamespace req) [])
            (Containers req) (withPod req d) = Some (d1, podMeta1) ->
  SaveState FS WriteFile Marshal (state d1) fs = (fs', None) ->
  exists containersCpus,
    CreatePod FS WriteFile Marshal d req fs
    = (d1, fs', (Some (mkAllocatedPodResources [] containersCpus), None))
    /\ map ContainerID containersCpus = map ContainerId (Containers req)
    /\ recCalls (policy d1)
       = recCalls (policy d) ++ map (assignCall (PodId req)) (Containers req)
    /\ Pods (state d1) !! PodId req
       = Some (mkPodMetadata (PodId req) (PodName req) (PodNamespace req)
                 (map (fun it => containerFromRequest it (PodId req)) (Containers req))).
Proof.
  intros Hvalid Hassigned Hsave.
  destruct (createContainers_success req (Containers req) _ _ _ [] [] _ _ _ Hassigned)
    as (cpus & Hrun & Hids & HpodMeta & Hpods).
  exists cpus. unfold CreatePod. rewrite Hvalid.
  fold (withPod req d). rewrite Hrun. unfold saveState. rewrite Hsave.
  split; [done|]. split; [done|]. split.
  - rewrite (assignAll_calls _ _ _ _ _ _ Hassigned). done.
  - rewrite Hpods, HpodMeta; [done|].
    by apply ValidateCreatePodRequest_containers.
Qed.

End DaemonCreatePod.

(** The theorem on the daemon of the test suite, cpus 0 to 3, and a request
    for two containers of one cpu. *)
Lemma CreatePod_assigns_all_witness :
  let req := mkCreatePodRequest "testPid" "testName" "testNamespace"
               (mkResourceInfo 2 2 2 2 DEFAULT)
               [requestOf "testCid-0" 1; requestOf "testCid-1" 1] in
  let result := CreatePod _ writeOk marshalOk rollbackDaemon req [] in
  snd (snd result) = None
  /\ map CallAssign
         [containerFromRequest (requestOf "testCid-0" 1) "testPid";
          containerFromRequest (requestOf "testCid-1" 1) "testPid"]
     = recCalls (policy (fst (fst result))).
Proof.
  intros req result.
  set (assigned := default (rollbackDaemon, zeroPodMetadata)
                     (assignAll req (mkPodMetadata "testPid" "testName" "testNamespace" [])
                                (Containers req) (withPod req rollbackDaemon))).
  destruct (CreatePod_assigns_all _ writeOk marshalOk rollbackDaemon req []
              (fst (writeOk [] "daemon.state" "{}")) (fst assigned) (snd assigned))
    as (containersCpus & Hrun & _ & Hcalls & _).
  - vm_compute. reflexivity.
  - vm_compute. reflexivity.
  - vm_compute. reflexivity.
  - subst result. rewrite Hrun. cbn [fst snd]. split; [reflexivity|].
    rewrite Hcalls. vm_compute. reflexivity.
Defined.

Section DaemonDeletePod.

Context {P : Type} `{Policy P}.
Variable FS : Type.
Variable WriteFile : FS -> string -> string -> FS * option error.
Variable Marshal : DaemonState -> string + error.

(** The loop of [deleteContainers] asks the policy to delete every
    container, whatever the deletions before it returned. *)
Lemma deleteContainers_loop_calls (deleted : list Container) :
  forall (failed : list (string * error)) (d : Daemon (Recorded P)),
    let result := deleteContainers_loop deleted failed d in
    recCalls (policy (fst result)) = recCalls (policy d) ++ map CallDelete deleted
    /\ exists failed',
        snd result = failed ++ failed'
        /\ Forall (fun fail => fst fail ∈ map CID deleted) failed'.
Proof.
  induction deleted as [|it rest IH]; intros failed d; cbn zeta.
  - cbn. rewrite app_nil_r. split; [done|]. exists []. by rewrite app_nil_r.
  - cbn [deleteContainers_loop DeleteContainer Recorded_Policy]. unfold recordCall.
    destruct (DeleteContainer (recPolicy (policy d)) it (state d)) as [[p' s'] err].
    match goal with
    | |- context [deleteContainers_loop rest ?f ?d0] =>
        destruct (IH f d0) as (Hcalls & failed' & Hfailed & Hall)
    end.
    cbn zeta in Hcalls. rewrite Hcalls. cbn [policy recCalls map].
    split; [by rewrite <- app_assoc|].
    rewrite Hfailed. destruct err as [e|].
    + exists ((CID it, e) :: failed'). rewrite <- app_assoc. split; [done|].
      constructor; [cbn; by left|].
      eapply Forall_impl; [exact Hall|]. intros fail Hin. cbn. by right.
    + exists failed'. split; [done|].
      eapply Forall_impl; [exact Hall|]. intros fail Hin. cbn. by right.
Qed.


End DaemonDeletePod.


(** *** The containers of an update *)

Lemma existsb_bool_decide_elem_of {A : Type} (f : A -> string) (id : string) (l : list A) :
  existsb (fun x => bool_decide (f x = id)) l = true <-> id ∈ map f l.
Proof.
  rewrite existsb_exists. split.
  - intros (x & Hx & Heq). apply bool_decide_eq_true in Heq. subst id.
    apply list_elem_of_In. by apply in_map.
  - intros Hin%list_elem_of_In. apply in_map_iff in Hin as (x & <- & Hx).
    exists x. split; [done|]. by apply bool_decide_eq_true.
Qed.

Lemma elem_of_getDeletedContainers (currentContainers : list Container)
      (wantedContainers : list ContainerInfo) (c : Container) :
  c ∈ getDeletedContainers currentContainers wantedContainers
  <-> c ∈ currentContainers /\ CID c ∉ map ContainerId wantedContainers.
Proof.
  unfold getDeletedContainers. rewrite list_elem_of_In, filter_In, <- list_elem_of_In.
  rewrite negb_true_iff, <- not_true_iff_false, existsb_bool_decide_elem_of. done.
Qed.

Lemma elem_of_getAddedContainers (currentContainers : list Container)
      (wantedContainers : list ContainerInfo) (podID : string) (c : Container) :
  c ∈ getAddedContainers currentContainers wantedContainers podID
  <-> exists cc, cc ∈ wantedContainers
                 /\ (ContainerId cc ∉ map CID currentContainers)
                 /\ c = containerFromRequest cc podID.
Proof.
  unfold getAddedContainers. rewrite list_elem_of_In, in_flat_map. split.
  - intros (cc & Hcc & Hin). exists cc. rewrite list_elem_of_In. split; [done|].
    destruct (existsb _ currentContainers) eqn:Hex; [done|].
    apply not_true_iff_false in Hex. rewrite existsb_bool_decide_elem_of in Hex.
    split; [done|]. destruct Hin as [<-|[]]. done.
  - intros (cc & Hcc & Hnot & ->). exists cc. rewrite <- list_elem_of_In. split; [done|].
    rewrite <- existsb_bool_decide_elem_of in Hnot. apply not_true_iff_false in Hnot.
    rewrite Hnot. by left.
Qed.

Lemma elem_of_getChangedContainers (currentContainers : list Container)
      (wantedContainers : list ContainerInfo) (u : containerUpdated) :
  u ∈ getChangedContainers currentContainers wantedContainers
  <-> exists cc, cc ∈ wantedContainers
                 /\ current u ∈ currentContainers
                 /\ CID (current u) = ContainerId cc
                 /\ wanted u = containerFromRequest cc (PID (current u))
                 /\ current u <> wanted u.
Proof.
  unfold getChangedContainers. rewrite list_elem_of_In, in_flat_map. split.
  - intros (cc & Hcc & Hin). apply in_flat_map in Hin as (oc & Hoc & Hin).
    exists cc. rewrite !list_elem_of_In. split; [done|].
    case_bool_decide as Hid; [|done]. cbn zeta in Hin.
    case_bool_decide as Hne; [|done]. destruct Hin as [<-|[]]. done.
  - intros (cc & Hcc & Hoc & Hid & Hwanted & Hne). exists cc.
    rewrite <- list_elem_of_In. split; [done|]. apply in_flat_map.
    exists (current u). rewrite <- list_elem_of_In. split; [done|].
    rewrite bool_decide_eq_true_2 by done. cbn zeta.
    rewrite bool_decide_eq_true_2 by congruence.
    left. destruct u. cbn in *. by subst.
Qed.

Lemma elem_of_getNotModifiedContainers (currentContainers : list Container)
      (wantedContainers : list ContainerInfo) (c : Container) :
  c ∈ getNotModifiedContainers currentContainers wantedContainers
  <-> c ∈ currentContainers
      /\ exists cc, cc ∈ wantedContainers
                    /\ CID c = ContainerId cc
                    /\ c = containerFromRequest cc (PID c).
Proof.
  unfold getNotModifiedContainers. rewrite list_elem_of_In, in_flat_map. split.
  - intros (cc & Hcc & Hin). apply in_flat_map in Hin as (oc & Hoc & Hin).
    case_bool_decide as Hid; [|done]. cbn zeta in Hin.
    case_bool_decide as Heq; [|done]. destruct Hin as [<-|[]].
    rewrite !list_elem_of_In. split; [done|]. exists cc. by rewrite list_elem_of_In.
  - intros (Hoc & cc & Hcc & Hid & Heq). exists cc.
    rewrite <- list_elem_of_In. split; [done|]. apply in_flat_map.
    exists c. rewrite <- list_elem_of_In. split; [done|].
    rewrite bool_decide_eq_true_2 by done. cbn zeta.
    rewrite bool_decide_eq_true_2 by done. by left.
Qed.

Lemma NoDup_map_eq {A : Type} (f : A -> string) (l : list A) (x y : A) :
  NoDup (map f l) -> x ∈ l -> y ∈ l -> f x = f y -> x = y.
Proof.
  intros Hnodup Hx Hy Heq.
  apply list_elem_of_lookup in Hx as [i Hi]. apply list_elem_of_lookup in Hy as [j Hj].
  assert (i = j) as ->; [|congruence].
  apply (NoDup_lookup (map f l) i j (f x)); [done| |].
  - change (map f l) with (f <$> l). by rewrite list_lookup_fmap, Hi.
  - change (map f l) with (f <$> l). by rewrite list_lookup_fmap, Hj, Heq.
Qed.

(** X9.  The four lists that [UpdatePod] computes sort the containers by
    their ids, when no id occurs twice among the containers of the pod nor
    in the request.  A container of the pod is deleted when the request
    does not name it, changed when the request names it with other
    parameters, and not modified when the request names it with the same
    ones: exactly one of the three.  A container of the request is added
    when the pod does not hold its id, and changes or leaves alone the
    container of the pod with its id otherwise: exactly one of the three. *)
Theorem UpdatePod_sorts_containers (currentContainers : list Container)
        (wantedContainers : list ContainerInfo) (podID : string) :
  NoDup (map CID currentContainers) ->
  NoDup (map ContainerId wantedContainers) ->
  let deleted := getDeletedContainers currentContainers wantedContainers in
  let changed := getChangedContainers currentContainers wantedContainers in
  let notModified := getNotModifiedContainers currentContainers wantedContainers in
  let added := getAddedContainers currentContainers wantedContainers podID in
  (forall c, c ∈ currentContainers ->
     (c ∈ deleted /\ (c ∉ map current changed) /\ (c ∉ notModified)
      /\ (CID c ∉ map ContainerId wantedContainers))
     \/ ((c ∉ deleted) /\ c ∈ map current changed /\ (c ∉ notModified)
         /\ exists cc, cc ∈ wantedContainers /\ ContainerId cc = CID c
                       /\ mkContainerUpdated c (containerFromRequest cc (PID c)) ∈ changed
                       /\ c <> containerFromRequest cc (PID c))
     \/ ((c ∉ deleted) /\ (c ∉ map current changed) /\ c ∈ notModified
         /\ exists cc, cc ∈ wantedContainers /\ ContainerId cc = CID c
                       /\ c = containerFromRequest cc (PID c)))
  /\ (forall cc, cc ∈ wantedContainers ->
        let id := ContainerId cc in
        (containerFromRequest cc podID ∈ added
         /\ (id ∉ map CID (map current changed)) /\ (id ∉ map CID notModified)
         /\ (id ∉ map CID currentContainers))
        \/ ((id ∉ map CID added)
            /\ id ∈ map CID (map current changed) /\ (id ∉ map CID notModified))
        \/ ((id ∉ map CID added)
            /\ (id ∉ map CID (map current changed)) /\ id ∈ map CID notModified)).
Proof.
  intros Hcurrent Hwanted. cbn zeta.
  assert (Hchanged : forall c, c ∈ map current
                                       (getChangedContainers currentContainers wantedContainers)
                               <-> exists cc, cc ∈ wantedContainers /\ c ∈ currentContainers
                                              /\ CID c = ContainerId cc
                                              /\ c <> containerFromRequest cc (PID c)).
  { intros c. rewrite list_elem_of_In, in_map_iff. split.
    - intros (u & <- & Hu). apply list_elem_of_In, elem_of_getChangedContainers in Hu
        as (cc & Hcc & Hoc & Hid & Hw & Hne).
      exists cc. repeat split; try done. by rewrite <- Hw.
    - intros (cc & Hcc & Hoc & Hid & Hne).
      exists (mkContainerUpdated c (containerFromRequest cc (PID c))). split; [done|].
      apply list_elem_of_In, elem_of_getChangedContainers. exists cc. by repeat split. }
  assert (Hids : forall (l : list Container) id,
             id ∈ map CID l <-> exists c, c ∈ l /\ CID c = id).
  { intros l id. rewrite list_elem_of_In, in_map_iff. split.
    - intros (c & <- & Hc). exists c. by rewrite list_elem_of_In.
    - intros (c & Hc & <-). exists c. by rewrite <- list_elem_of_In. }
  assert (Hwids : forall id, id ∈ map ContainerId wantedContainers
                             <-> exists cc, cc ∈ wantedContainers /\ ContainerId cc = id).
  { intros id. rewrite list_elem_of_In, in_map_iff. split.
    - intros (c & <- & Hc). exists c. by rewrite list_elem_of_In.
    - intros (c & Hc & <-). exists c. by rewrite <- list_elem_of_In. }
  split.
  - intros c Hc.
    rewrite elem_of_getDeletedContainers, Hchanged, elem_of_getNotModifiedContainers.
    destruct (decide (CID c ∈ map ContainerId wantedContainers)) as [Hin|Hnot].
    + right.
      assert (Hkept : ~ (c ∈ currentContainers
                         /\ (CID c ∉ map ContainerId wantedContainers))) by tauto.
      apply Hwids in Hin as (cc & Hcc & Hid).
      assert (Hunique : forall cc', cc' ∈ wantedContainers -> CID c = ContainerId cc' ->
                                    cc' = cc).
      { intros cc' Hcc' Hid'. apply (NoDup_map_eq ContainerId wantedContainers); try done.
        congruence. }
      destruct (decide (c = containerFromRequest cc (PID c))) as [Heq|Hne].
      * right. split; [done|]. split.
        -- intros (cc' & Hcc' & _ & Hid' & Hne'). by rewrite (Hunique cc' Hcc' Hid') in Hne'.
        -- split; [split; [done|]; by exists cc|]. by exists cc.
      * left. split; [done|]. split; [by exists cc|]. split.
        -- intros (_ & cc' & Hcc' & Hid' & Heq'). by rewrite (Hunique cc' Hcc' Hid') in Heq'.
        -- exists cc. repeat split; try done.
           apply elem_of_getChangedContainers. exists cc. by repeat split.
    + left. split; [done|]. split.
      * intros (cc & Hcc & _ & Hid & _). apply Hnot, Hwids. by exists cc.
      * split; [|done]. intros (_ & cc & Hcc & Hid & _). apply Hnot, Hwids. by exists cc.
  - intros cc Hcc. cbn zeta.
    assert (Hadded : ContainerId cc ∈ map CID (getAddedContainers currentContainers
                                                  wantedContainers podID)
                     -> ContainerId cc ∉ map CID currentContainers).
    { intros (c & Hc & Hid)%Hids.
      apply elem_of_getAddedContainers in Hc as (cc' & Hcc' & Hnot & ->).
      cbn in Hid. by rewrite <- Hid. }
    destruct (decide (ContainerId cc ∈ map CID currentContainers)) as [Hin|Hnot].
    + right. apply Hids in Hin as (c & Hc & Hid).
      assert (Hunique : forall c', c' ∈ currentContainers -> CID c' = ContainerId cc ->
                                   c' = c).
      { intros c' Hc' Hid'. apply (NoDup_map_eq CID currentContainers); try done.
        congruence. }
      assert (Hwunique : forall cc', cc' ∈ wantedContainers ->
                                     ContainerId cc' = ContainerId cc -> cc' = cc).
      { intros cc' Hcc' Hid'. by apply (NoDup_map_eq ContainerId wantedContainers). }
      assert (Hnotadded : ContainerId cc ∉ map CID (getAddedContainers currentContainers
                                                      wantedContainers podID)).
      { intros Hin. apply (Hadded Hin). apply Hids. by exists c. }
      destruct (decide (c = containerFromRequest cc (PID c))) as [Heq|Hne].
      * right. split; [done|]. split.
        -- intros (c' & Hc' & Hid')%Hids. apply Hchanged in Hc'
             as (cc' & Hcc' & Hoc' & Hid'' & Hne').
           rewrite (Hunique c' Hoc' Hid') in *.
           rewrite (Hwunique cc' Hcc') in Hne' by congruence. done.
        -- apply Hids. exists c. split; [|done].
           apply elem_of_getNotModifiedContainers. split; [done|]. by exists cc.
      * left. split; [done|]. split.
        -- apply Hids. exists c. split; [|done]. apply Hchanged. by exists cc.
        -- intros (c' & Hc' & Hid')%Hids.
           apply elem_of_getNotModifiedContainers in Hc' as (Hoc' & cc' & Hcc' & Hid'' & Heq').
           rewrite (Hunique c' Hoc' Hid') in *.
           rewrite (Hwunique cc' Hcc') in Heq' by congruence. done.
    + left. split; [|split; [|split]]; [|..|done].
      * apply elem_of_getAddedContainers. by exists cc.
      * intros (c & Hc & Hid)%Hids. apply Hchanged in Hc as (_ & _ & Hoc & _).
        apply Hnot, Hids. by exists c.
      * intros (c & Hc & Hid)%Hids.
        apply elem_of_getNotModifiedContainers in Hc as (Hoc & _).
        apply Hnot, Hids. by exists c.
Qed.

(** The theorem on a pod that holds the containers a and b, and a request
    for b, unchanged, and c: a is deleted. *)
Lemma UpdatePod_sorts_containers_witness :
  let a := containerFromRequest (requestOf "a" 1) "pod" in
  let b := containerFromRequest (requestOf "b" 1) "pod" in
  a ∈ getDeletedContainers [a; b] [requestOf "b" 1; requestOf "c" 2].
Proof.
  intros a b.
  destruct (UpdatePod_sorts_containers [a; b] [requestOf "b" 1; requestOf "c" 2] "pod")
    as [Hcurrent _].
  - apply (bool_decide_unpack _). vm_compute. exact I.
  - apply (bool_decide_unpack _). vm_compute. exact I.
  - destruct (Hcurrent a) as [(Hdeleted & _)|[(_ & _ & _ & cc & Hcc & Hid & _)
                                              |(_ & _ & _ & cc & Hcc & Hid & _)]].
    + by left.
    + exact Hdeleted.
    + exfalso. apply elem_of_cons in Hcc as [->|Hcc]; [discriminate|].
      apply list_elem_of_singleton in Hcc as ->. discriminate.
    + exfalso. apply elem_of_cons in Hcc as [->|Hcc]; [discriminate|].
      apply list_elem_of_singleton in Hcc as ->. discriminate.
Defined.

Section DaemonUpdatePod.

Context {P : Type} `{Policy P}.
Variable FS : Type.
Variable WriteFile : FS -> string -> string -> FS * option error.
Variable Marshal : DaemonState -> string + error.

(** The loops of [updateContainers] and [addContainers] report one
    allocation for each container that they keep, and keep containers
    that they were given only. *)
Lemma updateContainers_loop_kept (updated : list containerUpdated) :
  forall allocatedContainers failed updatedContainers (d : Daemon P),
    exists kept,
      snd (fst (updateContainers_loop updated allocatedContainers failed
                                      updatedContainers d))
      = updatedContainers ++ kept
      /\ map ContainerID
             (snd (fst (fst (updateContainers_loop updated allocatedContainers failed
                                                   updatedContainers d))))
         = map ContainerID allocatedContainers ++ map CID kept
      /\ Forall (fun c => c ∈ map wanted updated) kept.
Proof.
  induction updated as [|it rest IH];
    intros allocatedContainers failed updatedContainers d.
  - exists []. cbn. by rewrite !app_nil_r.
  - cbn [updateContainers_loop].
    destruct (DeleteContainer (policy d) (current it) (state d)) as [[p1 s1] [e|]].
    { destruct (IH allocatedContainers (failed ++ [(CID (current it), e)])
                   updatedContainers (mkDaemon s1 p1)) as (kept & -> & -> & Hall).
      exists kept. repeat split; try done.
      eapply Forall_impl; [exact Hall|]. intros c Hc. cbn. by right. }
    destruct (AssignContainer p1 (wanted it) s1) as [[p2 s2] [e|]].
    { destruct (IH allocatedContainers (failed ++ [(CID (current it), e)])
                   updatedContainers (mkDaemon s2 p2)) as (kept & -> & -> & Hall).
      exists kept. repeat split; try done.
      eapply Forall_impl; [exact Hall|]. intros c Hc. cbn. by right. }
    match goal with
    | |- context [updateContainers_loop rest ?a ?f ?u ?d0] =>
        destruct (IH a f u d0) as (kept & -> & -> & Hall)
    end.
    exists (wanted it :: kept). rewrite <- !app_assoc, map_app. cbn [map app].
    rewrite <- app_assoc. repeat split; try done.
    constructor; [cbn; by left|].
    eapply Forall_impl; [exact Hall|]. intros c Hc. cbn. by right.
Qed.

Lemma addContainers_loop_kept (added : list Container) :
  forall allocatedContainers addedContainers failed (d : Daemon P),
    exists kept,
      snd (fst (addContainers_loop added allocatedContainers addedContainers failed d))
      = addedContainers ++ kept
      /\ map ContainerID
             (snd (fst (fst (addContainers_loop added allocatedContainers
                                                addedContainers failed d))))
         = map ContainerID allocatedContainers ++ map CID kept
      /\ Forall (fun c => c ∈ added) kept.
Proof.
  induction added as [|it rest IH]; intros allocatedContainers addedContainers failed d.
  - exists []. cbn. by rewrite !app_nil_r.
  - cbn [addContainers_loop].
    destruct (AssignContainer (policy d) it (state d)) as [[p' s'] [e|]].
    { destruct (IH allocatedContainers addedContainers (failed ++ [(CID it, e)])
                   (mkDaemon s' p')) as (kept & -> & -> & Hall).
      exists kept. repeat split; try done.
      eapply Forall_impl; [exact Hall|]. intros c Hc. by right. }
    match goal with
    | |- context [addContainers_loop rest ?a ?u ?f ?d0] =>
        destruct (IH a u f d0) as (kept & -> & -> & Hall)
    end.
    exists (it :: kept). rewrite <- !app_assoc, map_app. cbn [map app].
    rewrite <- app_assoc. repeat split; try done.
    constructor; [by left|].
    eapply Forall_impl; [exact Hall|]. intros c Hc. by right.
Qed.


End DaemonUpdatePod.


Lemma flat_map_cons' {A B : Type} (g : A -> list B) (x : A) (l : list A) :
  flat_map g (x :: l) = g x ++ flat_map g l.
Proof. reflexivity. Qed.

(** The lists of an update that asks for the containers that the pod
    holds. *)
Lemma update_lists_of_same_containers (wantedContainers : list ContainerInfo)
      (podID : string) :
  NoDup (map ContainerId wantedContainers) ->
  let currentContainers :=
    map (fun cc => containerFromRequest cc podID) wantedContainers in
  getDeletedContainers currentContainers wantedContainers = []
  /\ getChangedContainers currentContainers wantedContainers = []
  /\ getAddedContainers currentContainers wantedContainers podID = []
  /\ getNotModifiedContainers currentContainers wantedContainers = currentContainers.
Proof.
  intros Hnodup. cbn zeta.
  set (f := fun cc => containerFromRequest cc podID).
  assert (Hsame : forall a cc, a ∈ wantedContainers -> cc ∈ wantedContainers ->
                               ContainerId a = ContainerId cc -> a = cc).
  { intros a cc Ha Hcc. by apply (NoDup_map_eq ContainerId wantedContainers). }
  assert (Hids : map CID (map f wantedContainers) = map ContainerId wantedContainers).
  { rewrite map_map. done. }
  split; [|split; [|split]].
  - apply elem_of_nil_inv. intros c [Hc Hnot]%elem_of_getDeletedContainers.
    apply Hnot. rewrite <- Hids. apply list_elem_of_In, in_map. by apply list_elem_of_In.
  - apply elem_of_nil_inv. intros u (cc & Hcc & Hc & Hid & Hwanted & Hne)%elem_of_getChangedContainers.
    apply list_elem_of_In, in_map_iff in Hc as (a & Ha & Hain).
    apply list_elem_of_In in Hain.
    rewrite <- Ha in Hid. cbn in Hid. rewrite (Hsame a cc Hain Hcc Hid) in Ha.
    apply Hne. rewrite Hwanted, <- Ha. done.
  - apply elem_of_nil_inv. intros c (cc & Hcc & Hnot & _)%elem_of_getAddedContainers.
    apply Hnot. rewrite Hids. apply list_elem_of_In, in_map. by apply list_elem_of_In.
  - unfold getNotModifiedContainers. cbv zeta.
    assert (Hinner : forall l cc,
               (forall a, a ∈ l -> a ∈ wantedContainers) -> cc ∈ wantedContainers ->
               NoDup (map ContainerId l) ->
               flat_map
                 (fun oc =>
                    if bool_decide (CID oc = ContainerId cc)
                    then if bool_decide (oc = containerFromRequest cc (PID oc))
                         then [oc] else []
                    else [])
                 (map f l)
               = if bool_decide (ContainerId cc ∈ map ContainerId l) then [f cc] else []).
    { induction l as [|a l IH]; intros cc Hl Hcc Hl'; [done|].
      cbn [map]. rewrite flat_map_cons'. apply NoDup_cons in Hl' as [Hfresh Hl'].
      rewrite IH; [|intros a' Ha'; apply Hl; by right|done|done].
      destruct (decide (ContainerId a = ContainerId cc)) as [Hid|Hid].
      - assert (a = cc) as -> by (apply Hsame; [apply Hl; by left|done|done]).
        rewrite bool_decide_eq_true_2 by done.
        rewrite bool_decide_eq_true_2 by done.
        rewrite (bool_decide_eq_true_2 (ContainerId cc ∈ ContainerId cc :: _)) by (by left).
        rewrite bool_decide_eq_false_2; done.
      - rewrite bool_decide_eq_false_2 by done. cbn [app].
        destruct (decide (ContainerId cc ∈ map ContainerId l)) as [Hin|Hnot].
        + rewrite !bool_decide_eq_true_2; [done | by right | done].
        + rewrite !bool_decide_eq_false_2; [done | | done].
          intros [?|?]%elem_of_cons; done. }
    assert (Houter : forall l, (forall a, a ∈ l -> a ∈ wantedContainers) ->
               flat_map
                 (fun cc =>
                    flat_map
                      (fun oc =>
                         if bool_decide (CID oc = ContainerId cc)
                         then if bool_decide (oc = containerFromRequest cc (PID oc))
                              then [oc] else []
                         else [])
                      (map f wantedContainers))
                 l
               = map f l).
    { induction l as [|cc l IH]; intros Hl; [done|].
      cbn [map]. rewrite flat_map_cons', IH by (intros a Ha; apply Hl; by right).
      rewrite Hinner; [|done|apply Hl; by left|done].
      rewrite bool_decide_eq_true_2; [done|].
      apply list_elem_of_In, in_map, list_elem_of_In, Hl. by left. }
    cbv zeta. by apply Houter.
Qed.

Section DaemonUpdateAgain.

Context {P : Type} `{Policy P}.
Variable FS : Type.
Variable WriteFile : FS -> string -> string -> FS * option error.
Variable Marshal : DaemonState -> string + error.

(** X11.  [UpdatePod] is reentrant: when the request is valid, names no
    container twice and asks for exactly the containers that the pod
    holds, the policy is not called, the daemon stays as it is, the state
    is saved and the reply lists no allocation. *)
Theorem UpdatePod_of_same_containers (d : Daemon (Recorded P)) (req : UpdatePodRequest)
        (fs : FS) (pod : PodMetadata) :
  ValidateUpdatePodRequest req = None ->
  NoDup (map ContainerId (uprContainers req)) ->
  Pods (state d) !! uprPodId req = Some pod ->
  pmContainers pod
  = map (fun cc => containerFromRequest cc (uprPodId req)) (uprContainers req) ->
  UpdatePod FS WriteFile Marshal d req fs
  = (d, fst (SaveState FS WriteFile Marshal (state d) fs),
     match snd (SaveState FS WriteFile Marshal (state d) fs) with
     | Some err =>
         (None, Some (DaemonError RuntimeError ("Cannot save daemon state: " +:+ Error err)))
     | None => (Some (mkAllocatedPodResources [] []), None)
     end).
Proof.
  intros Hvalid Hnodup Hpod Hcontainers.
  destruct (update_lists_of_same_containers (uprContainers req) (uprPodId req) Hnodup)
    as (Hdeleted & Hchanged & Hadded & Hsame).
  cbn zeta in *. rewrite <- Hcontainers in *.
  unfold UpdatePod. rewrite Hvalid, Hpod, Hdeleted, Hchanged, Hadded, Hsame.
  cbn [deleteContainers deleteContainers_loop updateContainers updateContainers_loop
       addContainers addContainers_loop ErrorOrNil app].
  rewrite app_nil_r.
  assert (Hd : mkDaemon
                 (set_Pods (<[uprPodId req :=
                                mkPodMetadata (pmPID pod) (pmName pod) (Namespace pod)
                                              (pmContainers pod)]> (Pods (state d)))
                           (state d))
                 (policy d) = d).
  { replace (mkPodMetadata (pmPID pod) (pmName pod) (Namespace pod) (pmContainers pod))
      with pod by (by destruct pod).
    rewrite insert_id by done. destruct d as [s p]. cbn. f_equal. by destruct s. }
  rewrite Hd. unfold saveState.
  by destruct (SaveState FS WriteFile Marshal (state d) fs) as [fs' [err|]].
Qed.

End DaemonUpdateAgain.

(** The theorem on the daemon of the test suite after the creation of a pod
    of two containers: the update asks for the same containers. *)
Lemma UpdatePod_of_same_containers_witness :
  let containers := [requestOf "testCid-0" 1; requestOf "testCid-1" 1] in
  let created := mkCreatePodRequest "testPid" "testName" "testNamespace"
                   (mkResourceInfo 2 2 2 2 DEFAULT) containers in
  let d := fst (fst (CreatePod _ writeOk marshalOk rollbackDaemon created [])) in
  let req := mkUpdatePodRequest "testPid" (mkResourceInfo 2 2 2 2 DEFAULT) containers in
  fst (fst (UpdatePod _ writeOk marshalOk d req [])) = d.
Proof.
  intros containers created d req.
  rewrite (UpdatePod_of_same_containers _ writeOk marshalOk d req []
             (mkPodMetadata "testPid" "testName" "testNamespace"
                (map (fun cc => containerFromRequest cc "testPid") containers))).
  - reflexivity.
  - vm_compute. reflexivity.
  - apply (bool_decide_unpack _). vm_compute. exact I.
  - vm_compute. reflexivity.
  - reflexivity.
Defined.

(** ** Requests of the agent (resources.go) *)

Lemma getContainerResources_inl (r : ResourceList) (cpus memory : Z) :
  getContainerResources r = inl (cpus, memory) ->
  inInt32Range (rlCpu r) /\ inInt32Range (rlMemory r)
  /\ cpus = int64Value (rlCpu r) /\ memory = int64Value (rlMemory r).
Proof.
  unfold getContainerResources, inInt32Range.
  destruct (representable (rlCpu r)); [|done].
  destruct (Z.ltb_spec MaxInt32 (int64Value (rlCpu r))); [done|].
  destruct (Z.ltb_spec (int64Value (rlCpu r)) 0); [done|].
  destruct (representable (rlMemory r)); [|done].
  destruct (Z.ltb_spec MaxInt32 (int64Value (rlMemory r))); [done|].
  destruct (Z.ltb_spec (int64Value (rlMemory r)) 0); [done|].
  cbn. intros [= <- <-]. repeat split; lia.
Qed.

Lemma add32_nonneg_exact (a v : Z) :
  0 <= a <= MaxInt32 -> 0 <= v <= MaxInt32 -> 0 <= add32 a v ->
  add32 a v = a + v /\ a + v <= MaxInt32.
Proof.
  intros Ha Hv Hsum. destruct (Z.le_gt_cases (a + v) MaxInt32) as [Hle|Hgt].
  - split; [by apply add32_exact | done].
  - pose proof (add32_overflow a v Ha Hv ltac:(lia)). lia.
Qed.

(** The loop of [createPodResources] when it returns no error. *)
Lemma createPodResources_loop_converted (pod : Pod) (containers : list PodContainer) :
  forall a1 a2 a3 a4 infos infos' r,
    0 <= a1 <= MaxInt32 -> 0 <= a2 <= MaxInt32 ->
    0 <= a3 <= MaxInt32 -> 0 <= a4 <= MaxInt32 ->
    createPodResources_loop pod containers a1 a2 a3 a4 infos = (infos', Some r, None) ->
    exists new,
      infos' = infos ++ new
      /\ Forall2 (convertedFrom pod) containers new
      /\ r = mkResourceInfo (a1 + total (fun c => rlCpu (Requests c)) containers)
                            (a2 + total (fun c => rlCpu (Limits c)) containers)
                            (a3 + total (fun c => rlMemory (Requests c)) containers)
                            (a4 + total (fun c => rlMemory (Limits c)) containers)
                            DEFAULT
      /\ 0 <= RequestedCpus r <= MaxInt32 /\ 0 <= LimitCpus r <= MaxInt32
      /\ 0 <= RequestedMemory r <= MaxInt32 /\ 0 <= LimitMemory r <= MaxInt32.
Proof.
  induction containers as [|c cs IH]; intros a1 a2 a3 a4 infos infos' r H1 H2 H3 H4.
  - cbn. intros [= <- <-]. exists []. rewrite app_nil_r, !Z.add_0_r.
    cbn. repeat split; try done; try constructor; lia.
  - cbn [createPodResources_loop]. unfold getContainerInfo.
    destruct (getContainerResources (Requests c)) as [[rc rm]|err] eqn:Hreq; [|done].
    destruct (getContainerResources (Limits c)) as [[lc lm]|err] eqn:Hlim; [|done].
    apply getContainerResources_inl in Hreq as (Hrc & Hrm & -> & ->).
    apply getContainerResources_inl in Hlim as (Hlc & Hlm & -> & ->).
    cbn [ciResources ContainerName RequestedCpus LimitCpus RequestedMemory LimitMemory].
    destruct (Z.ltb_spec (add32 a1 (int64Value (rlCpu (Requests c)))) 0); [done|].
    destruct (Z.ltb_spec (add32 a2 (int64Value (rlCpu (Limits c)))) 0); [done|].
    destruct (Z.ltb_spec (add32 a3 (int64Value (rlMemory (Requests c)))) 0); [done|].
    destruct (Z.ltb_spec (add32 a4 (int64Value (rlMemory (Limits c)))) 0); [done|].
    destruct (add32_nonneg_exact a1 _ H1 (proj2 Hrc)) as [-> ?]; [done|].
    destruct (add32_nonneg_exact a2 _ H2 (proj2 Hlc)) as [-> ?]; [done|].
    destruct (add32_nonneg_exact a3 _ H3 (proj2 Hrm)) as [-> ?]; [done|].
    destruct (add32_nonneg_exact a4 _ H4 (proj2 Hlm)) as [-> ?]; [done|].
    destruct Hrc as [Hrc1 Hrc2], Hrm as [Hrm1 Hrm2], Hlc as [Hlc1 Hlc2], Hlm as [Hlm1 Hlm2].
    intros Hrest.
    apply IH in Hrest as (new & -> & Hall & -> & Hranges); try lia.
    eexists (_ :: new). rewrite <- app_assoc. split; [reflexivity|]. split; [|split].
    + constructor; [|done]. unfold convertedFrom, convertible, inInt32Range. cbn.
      repeat split; first [done | lia].
    + rewrite !total_cons. f_equal; lia.
    + exact Hranges.
Qed.

(** X12.  A request that [GetCreatePodRequest] returns carries the uid, the
    name and the namespace of the pod, and one container for each container
    of the pod, in order, with the name of the container, the id that the
    status of that name gives (empty when there is none) and its four
    quantities, each between 0 and [MaxInt32]; the resources of the pod are
    the sums of the quantities over the containers, exact and at most
    [MaxInt32] each. *)
Theorem GetCreatePodRequest_converts (pod : Pod) (req : CreatePodRequest) :
  GetCreatePodRequest pod = (Some req, None) ->
  PodId req = UID pod /\ PodName req = podName pod /\ PodNamespace req = podNamespace pod
  /\ Forall2 (convertedFrom pod) (specContainers pod) (Containers req)
  /\ Resources req
     = mkResourceInfo (total (fun c => rlCpu (Requests c)) (specContainers pod))
                      (total (fun c => rlCpu (Limits c)) (specContainers pod))
                      (total (fun c => rlMemory (Requests c)) (specContainers pod))
                      (total (fun c => rlMemory (Limits c)) (specContainers pod))
                      DEFAULT
  /\ 0 <= RequestedCpus (Resources req) <= MaxInt32
  /\ 0 <= LimitCpus (Resources req) <= MaxInt32
  /\ 0 <= RequestedMemory (Resources req) <= MaxInt32
  /\ 0 <= LimitMemory (Resources req) <= MaxInt32.
Proof.
  unfold GetCreatePodRequest, createPodResources.
  destruct (createPodResources_loop pod (specContainers pod) 0 0 0 0 [])
    as [[infos [r|]] [err|]] eqn:Hloop; try done.
  intros [= <-]. cbn [PodId PodName PodNamespace Containers Resources].
  assert (Hzero : 0 <= 0 <= MaxInt32) by (unfold MaxInt32; lia).
  apply createPodResources_loop_converted in Hloop as (new & -> & Hall & -> & Hranges);
    [|done..].
  by rewrite !Z.add_0_l in *.
Qed.

(** The theorem on a pod of one container of 2 cpus and 4 of memory, which
    is running as "docker://one". *)
Lemma GetCreatePodRequest_converts_witness :
  let c := mkPodContainer "one" (mkResourceList (quantity 2) (quantity 4))
                          (mkResourceList (quantity 2) (quantity 4)) in
  let pod := mkPod "uid" "name" "namespace" [c] [mkContainerStatus "one" "docker://one"] in
  let req := mkCreatePodRequest "uid" "name" "namespace" (mkResourceInfo 2 2 4 4 DEFAULT)
               [mkContainerInfo "docker://one" "one" (mkResourceInfo 2 2 4 4 DEFAULT)] in
  GetCreatePodRequest pod = (Some req, None)
  /\ Forall2 (convertedFrom pod) [c] (Containers req).
Proof.
  intros c pod req.
  assert (Hreq : GetCreatePodRequest pod = (Some req, None)) by reflexivity.
  split; [exact Hreq|].
  apply (GetCreatePodRequest_converts pod req Hreq).
Defined.

Lemma total_le (f g : PodContainer -> Quantity) (containers : list PodContainer) :
  Forall (fun c => int64Value (f c) <= int64Value (g c)) containers ->
  total f containers <= total g containers.
Proof.
  induction 1 as [|c cs Hc Hcs IH]; [done|]. rewrite !total_cons. lia.
Qed.

Lemma total_nonneg_of_converted (pod : Pod) (f : PodContainer -> Quantity)
      (containers : list PodContainer) (infos : list ContainerInfo) :
  (forall c, convertible c -> 0 <= int64Value (f c)) ->
  Forall2 (convertedFrom pod) containers infos ->
  0 <= total f containers.
Proof.
  intros Hf. induction 1 as [|c info cs infos Hc Hcs IH]; [done|].
  rewrite total_cons. destruct Hc as (Hconv & _). specialize (Hf c Hconv). lia.
Qed.

(** X13.  A request that [GetCreatePodRequest] returns passes
    [ValidateCreatePodRequest] exactly when the pod has a container, its
    uid, name and namespace are not empty, and every container has a name,
    a status with an id, and requests that are not larger than its limits:
    the numbers of the request are never negative, and the resources of
    the pod are valid as soon as those of its containers are. *)
Theorem GetCreatePodRequest_validates (pod : Pod) (req : CreatePodRequest) :
  GetCreatePodRequest pod = (Some req, None) ->
  ValidateCreatePodRequest req = None
  <-> specContainers pod <> []
      /\ UID pod <> "" /\ podName pod <> "" /\ podNamespace pod <> ""
      /\ Forall (fun c =>
                   pcName c <> "" /\ getContainerID (pcName c) pod <> ""
                   /\ int64Value (rlCpu (Requests c)) <= int64Value (rlCpu (Limits c))
                   /\ int64Value (rlMemory (Requests c))
                      <= int64Value (rlMemory (Limits c)))
                (specContainers pod).
Proof.
  intros Hreq.
  assert (Hzero : 0 <= 0 <= MaxInt32) by (unfold MaxInt32; lia).
  unfold GetCreatePodRequest, createPodResources in Hreq.
  destruct (createPodResources_loop pod (specContainers pod) 0 0 0 0 [])
    as [[infos [r|]] [err|]] eqn:Hloop; try done.
  injection Hreq as <-.
  apply createPodResources_loop_converted in Hloop
    as (new & -> & Hall & -> & Hrc & Hlc & Hrm & Hlm); try done.
  cbn [RequestedCpus LimitCpus RequestedMemory LimitMemory] in Hrc, Hlc, Hrm, Hlm.
  rewrite !Z.add_0_l in *. cbn [app] in *.
  assert (Hcontainers :
    Forall validContainer new
    <-> Forall (fun c =>
                  pcName c <> "" /\ getContainerID (pcName c) pod <> ""
                  /\ int64Value (rlCpu (Requests c)) <= int64Value (rlCpu (Limits c))
                  /\ int64Value (rlMemory (Requests c))
                     <= int64Value (rlMemory (Limits c)))
               (specContainers pod)).
  { clear Hrc Hlc Hrm Hlm.
    induction Hall as [|c info cs infos Hc Hcs IH]; [split; constructor|].
    rewrite !Forall_cons, IH. unfold validContainer, validResources.
    destruct Hc as (((_ & Hrc) & (_ & Hrm) & (_ & Hlc) & (_ & Hlm))
                    & -> & -> & -> & -> & -> & ->).
    split; intros [? ?]; (split; [|done]); repeat split; try tauto; lia. }
  unfold ValidateCreatePodRequest. cbn [Containers PodId PodName PodNamespace Resources].
  destruct Hall as [|c info cs infos Hc Hcs]; [split; [done | tauto]|].
  cbn [returnErrorIfEmptyString].
  destruct (decide (UID pod = "")); [split; [done | tauto]|].
  destruct (decide (podName pod = "")); [split; [done | tauto]|].
  destruct (decide (podNamespace pod = "")); [split; [done | tauto]|].
  match goal with
  | |- context [ValidateResourceInfo ?r] =>
      destruct (ValidateResourceInfo r) as [err|] eqn:Hres
  end.
  - split; [done|]. intros (_ & _ & _ & _ & Hcs').
    assert (Hnone : ValidateResourceInfo
                      (mkResourceInfo
                         (total (fun c => rlCpu (Requests c)) (c :: cs))
                         (total (fun c => rlCpu (Limits c)) (c :: cs))
                         (total (fun c => rlMemory (Requests c)) (c :: cs))
                         (total (fun c => rlMemory (Limits c)) (c :: cs)) DEFAULT) = None).
    { apply ValidateResourceInfo_None. unfold validResources.
      cbn [RequestedCpus LimitCpus RequestedMemory LimitMemory].
      split; (split; [lia|]); apply total_le;
        (eapply Forall_impl; [exact Hcs'|]); intros x Hx; cbn in Hx; tauto. }
    congruence.
  - rewrite ValidateContainers_None, Hcontainers. split; [|tauto].
    intros Hcs'. repeat split; try done.
Qed.

(** The theorem on the same pod. *)
Lemma GetCreatePodRequest_validates_witness :
  let c := mkPodContainer "one" (mkResourceList (quantity 2) (quantity 4))
                          (mkResourceList (quantity 2) (quantity 4)) in
  let pod := mkPod "uid" "name" "namespace" [c] [mkContainerStatus "one" "docker://one"] in
  let req := mkCreatePodRequest "uid" "name" "namespace" (mkResourceInfo 2 2 4 4 DEFAULT)
               [mkContainerInfo "docker://one" "one" (mkResourceInfo 2 2 4 4 DEFAULT)] in
  GetCreatePodRequest pod = (Some req, None)
  /\ ValidateCreatePodRequest req = None.
Proof.
  intros c pod req.
  assert (Hreq : GetCreatePodRequest pod = (Some req, None)) by reflexivity.
  split; [exact Hreq|].
  apply (GetCreatePodRequest_validates pod req Hreq).
  repeat split; try discriminate.
  constructor; [|constructor]. cbn. repeat split; try discriminate; lia.
Defined.

(** ** The topology tree (numa.go, topology.go) *)

(** [Take n], for [n >= 1], on a topology whose counters are right. *)
Lemma Take_succeeds_available_helper (t : NumaTopology) (n : Z) :
  CountersOK (Topology t) ->
  leafCount (Topology t) <= MaxInt64 ->
  1 <= n ->
  (NumAvailable (Topology t) < n -> Take t n = (t, [], Some ErrNotAvailable))
  /\ (n <= NumAvailable (Topology t) ->
      exists t' cpuIDs,
        Take t n = (t', cpuIDs, None)
        /\ Z.of_nat (length cpuIDs) = n
        /\ NumAvailable (Topology t') = NumAvailable (Topology t) - n
        /\ CountersOK (Topology t')
        /\ leafCount (Topology t') = leafCount (Topology t)
        /\ CpuInformation t' = CpuInformation t).
Proof.
  intros Hok Hleaves Hn. unfold Take. rewrite findLowest_unfold. split.
  - intros Hfew. apply Z.ltb_lt in Hfew. by rewrite Hfew.
  - intros Henough. apply Z.ltb_ge in Henough. rewrite Henough.
    set (found := match findLowest_children _ _ _ _ _ with
                  | (None, _) => Some ([], Topology t, 0)
                  | (Some (p, level), bestLevelNum) => Some (p, level, bestLevelNum)
                  end).
    assert (Hfound : findLowestNodeWithEnoughAvailability (Topology t) n 0 = found).
    { rewrite findLowest_unfold, Henough. done. }
    assert (Hsome : exists p l levelNum, found = Some (p, l, levelNum)).
    { subst found. destruct (findLowest_children _ _ _ _ _) as [[[p l]|] num]; by eauto. }
    destruct Hsome as (p & l & levelNum & Hsome). rewrite Hsome. rewrite Hsome in Hfound.
    destruct (findLowest_sound _ _ _ _ _ _ Hfound) as [Hat Hle].
    destruct (CountersOK_nodeAt p _ l Hok Hat) as (Hl & _ & Hleavesl).
    destruct (takeLeaves_ok l ltac:(lia) Hl n ltac:(lia))
      as (l' & leaves & -> & Hl' & Havail' & Hleaves' & Hlength).
    destruct (subPredecessors_replaceAt_ok p (Topology t) l l' n Hok Hleaves Hat
                ltac:(lia) Hl' Havail' Hleaves') as (Hok' & Havail'' & Hleaves'').
    destruct (Z.ltb_spec n 0) as [|_]; [lia|].
    eexists _, _. split; [reflexivity|]. cbn [Topology CpuInformation].
    rewrite length_map. done.
Qed.

(** X14.  On a topology whose counters are right, [Take n] with [n >= 1]
    fails exactly when the root counts fewer than [n] available cpus: it
    then returns ErrNotAvailable and no cpu, and leaves the topology as it
    was.  Otherwise it returns [n] cpus and no error, the root counts [n]
    cpus fewer, and the counters are right again. *)
Theorem Take_succeeds_iff_available (t : NumaTopology) (n : Z) :
  CountersOK (Topology t) ->
  leafCount (Topology t) <= MaxInt64 ->
  1 <= n ->
  (NumAvailable (Topology t) < n -> Take t n = (t, [], Some ErrNotAvailable))
  /\ (n <= NumAvailable (Topology t) ->
      exists t' cpuIDs,
        Take t n = (t', cpuIDs, None)
        /\ Z.of_nat (length cpuIDs) = n
        /\ NumAvailable (Topology t') = NumAvailable (Topology t) - n
        /\ CountersOK (Topology t')
        /\ leafCount (Topology t') = leafCount (Topology t)
        /\ CpuInformation t' = CpuInformation t).
Proof. apply Take_succeeds_available_helper. Qed.

(** The theorem on the test machine, 8 cpus: 3 cpus are taken, and 9 are
    not. *)
Lemma Take_succeeds_iff_available_witness :
  Take testTopology 9 = (testTopology, [], Some ErrNotAvailable)
  /\ exists t' cpuIDs, Take testTopology 3 = (t', cpuIDs, None)
                       /\ Z.of_nat (length cpuIDs) = 3.
Proof.
  assert (Hok : CountersOK (Topology testTopology))
    by (apply countersOKb_CountersOK; vm_compute; reflexivity).
  assert (Hleaves : leafCount (Topology testTopology) <= MaxInt64)
    by (vm_compute; discriminate).
  split.
  - apply (Take_succeeds_iff_available testTopology 9 Hok Hleaves); [lia|].
    vm_compute. reflexivity.
  - destruct (Take_succeeds_iff_available testTopology 3 Hok Hleaves ltac:(lia))
      as [_ Htake].
    destruct Htake as (t' & cpuIDs & Htake & Hlength & _); [vm_compute; discriminate|].
    by exists t', cpuIDs.
Defined.

(** ** The topology-aware allocator (daemon_numa_allocator.go) *)

(** X15.  [takeCpus] of the topology-aware allocator, for a Guaranteed
    container that asks for one cpu at least, on a topology whose counters
    are right.  When the topology has fewer cpus available, the call fails
    with CpusNotAvailable, changes nothing and does not call the
    controller.  Otherwise it takes as many cpus as asked, adds one bucket
    for each of them to the buckets that the container holds already, and
    calls the controller once with the cpus taken. *)
Theorem Numa_takeCpus_takes_or_keeps (rangeNodes : gset Z -> list Z)
        (d : NumaAwareAllocator) (c : Container) (s : DaemonState) :
  QS c = Guaranteed ->
  1 <= Cpus c ->
  CountersOK (Topology (dsTopology s)) ->
  leafCount (Topology (dsTopology s)) <= MaxInt64 ->
  (NumAvailable (Topology (dsTopology s)) < Cpus c ->
   Numa_takeCpus rangeNodes d c s
   = (d, s, Some (DaemonError CpusNotAvailable "not enough cpus available")))
  /\ (Cpus c <= NumAvailable (Topology (dsTopology s)) ->
      exists topology cpuIds,
        Take (dsTopology s) (Cpus c) = (topology, cpuIds, None)
        /\ Z.of_nat (length cpuIds) = Cpus c
        /\ let s' := set_Allocated
                       (<[CID c := allocatedOf s (CID c) ++ singletonBuckets cpuIds]>
                          (Allocated s))
                       (set_Topology topology s) in
           let call := mkCgroupCall (CGroupPath s) "" c (Join (map Itoa cpuIds) ",")
                         (getMemoryPinningIfEnabled rangeNodes (naMemoryPinning d)
                                                    topology cpuIds) in
           Numa_takeCpus rangeNodes d c s
           = (mkNumaAwareAllocator
                (mkCgroupController (ctrlOutcome (naCtrl d)) (ctrlCalls (naCtrl d) ++ [call]))
                (naMemoryPinning d),
              s', ctrlOutcome (naCtrl d) (ctrlCalls (naCtrl d)) call)).
Proof.
  intros Hqs Hcpus Hok Hleaves.
  destruct (Take_succeeds_available_helper (dsTopology s) (Cpus c) Hok Hleaves Hcpus)
    as [Hfail Htake].
  unfold Numa_takeCpus. rewrite decide_True by done. split.
  - intros Hfew. rewrite (Hfail Hfew). by destruct s.
  - intros Henough. destruct (Htake Henough) as (t' & cpuIDs & Heq & Hlength & _).
    exists t', cpuIDs. rewrite Heq. split; [done|]. split; [done|]. reflexivity.
Qed.

(** The theorem on a machine of 4 cpus: a container that asks for 5 cpus
    gets none and the state stays as it is. *)
Lemma Numa_takeCpus_takes_or_keeps_witness :
  let d := mkNumaAwareAllocator okController false in
  let s := testDaemonState 4 in
  Numa_takeCpus sortedNodes d (guaranteed "cid1" "pod1" 5) s
  = (d, s, Some (DaemonError CpusNotAvailable "not enough cpus available")).
Proof.
  intros d s.
  apply (Numa_takeCpus_takes_or_keeps sortedNodes d (guaranteed "cid1" "pod1" 5) s).
  - reflexivity.
  - cbn. lia.
  - apply countersOKb_CountersOK. vm_compute. reflexivity.
  - vm_compute. discriminate.
  - vm_compute. reflexivity.
Defined.

Lemma leafBelow_leaf (q : list nat) (n : TopologyNode) (p : list nat) (node : TopologyNode) :
  IsLeaf n = true -> leafBelow q n p node <-> p = q /\ node = n.
Proof.
  intros Hleaf. destruct n as [inf avail cs]. cbn in Hleaf.
  destruct cs; [|done]. split.
  - intros (p' & -> & Hat & _). destruct p' as [|i p']; cbn in Hat.
    + injection Hat as <-. by rewrite app_nil_r.
    + done.
  - intros [-> ->]. exists []. by rewrite app_nil_r.
Qed.

Lemma elem_of_childPtrs (q : list nat) (n : TopologyNode) (ptr : NodePtr) :
  ptr ∈ childPtrs q n <-> exists i c, Children n !! i = Some c /\ ptr = (q ++ [i], c).
Proof.
  unfold childPtrs. rewrite elem_of_lookup_imap. split.
  - intros (i & c & -> & Hi). by exists i, c.
  - intros (i & c & Hi & ->). by exists i, c.
Qed.

Lemma leafBelow_node (q : list nat) (n : TopologyNode) (p : list nat) (node : TopologyNode) :
  IsLeaf n = false ->
  leafBelow q n p node
  <-> exists q' c, (q', c) ∈ childPtrs q n /\ leafBelow q' c p node.
Proof.
  intros Hnode. split.
  - intros (p' & -> & Hat & Hleaf). destruct p' as [|i p'].
    + cbn in Hat. injection Hat as <-. congruence.
    + cbn in Hat. destruct (Children n !! i) as [c|] eqn:Hi; [|done].
      exists (q ++ [i]), c. split.
      * apply elem_of_childPtrs. by exists i, c.
      * exists p'. by rewrite <- app_assoc.
  - intros (q' & c & Hin & p' & -> & Hat & Hleaf).
    apply elem_of_childPtrs in Hin as (i & c' & Hi & [= -> ->]).
    exists (i :: p'). rewrite <- app_assoc. split; [done|]. cbn. by rewrite Hi.
Qed.

Lemma queue_leaves_app (q1 q2 : list NodePtr) :
  queue_leaves (q1 ++ q2) = queue_leaves q1 + queue_leaves q2.
Proof.
  unfold queue_leaves. induction q1 as [|node q1 IH]; simpl; [done|]. rewrite IH. lia.
Qed.

Lemma queue_leaves_imap (f : nat -> list nat) (cs : list TopologyNode) :
  queue_leaves (imap (fun i child => (f i, child)) cs) = sumLeaves cs.
Proof.
  revert f. induction cs as [|c cs IH]; intros f; [done|].
  rewrite imap_cons. unfold queue_leaves in *. cbn [fold_right snd].
  rewrite sumLeaves_cons. f_equal. apply (IH (f ∘ S)).
Qed.

Lemma queue_leaves_childPtrs (q : list nat) (n : TopologyNode) :
  IsLeaf n = false -> queue_leaves (childPtrs q n) = leafCount n.
Proof.
  destruct n as [inf avail cs]. cbn [IsLeaf Children]. intros Hnode.
  assert (Hne : cs <> []) by (by destruct cs).
  rewrite (leafCount_nonleaf _ _ _ Hne). unfold childPtrs. cbn [Children].
  apply (queue_leaves_imap (fun i => q ++ [i])).
Qed.

(** The loop of [GetLeafs]: the leaves collected and the leaves below the
    pointers of the queue. *)
Lemma GetLeafs_loop_leaves (fuel : nat) :
  forall queue leafs result,
    GetLeafs_loop fuel queue leafs = Some result ->
    (forall p node,
        (p, node) ∈ result
        <-> (p, node) ∈ leafs
            \/ exists q n, (q, n) ∈ queue /\ leafBelow q n p node)
    /\ Z.of_nat (length result) = Z.of_nat (length leafs) + queue_leaves queue.
Proof.
  induction fuel as [|fuel IH]; intros queue leafs result.
  - destruct queue as [|ptr queue]; [|done]. cbn. intros [= <-]. split; [|lia].
    intros p node. split; [by left|]. intros [?|(q & n & Hin & _)]; [done|].
    by apply elem_of_nil in Hin.
  - destruct queue as [|[q n] queue].
    { cbn. intros [= <-]. split; [|lia].
      intros p node. split; [by left|]. intros [?|(q & n & Hin & _)]; [done|].
      by apply elem_of_nil in Hin. }
    cbn [GetLeafs_loop fst snd]. destruct (IsLeaf n) eqn:Hleaf; intros Hrun.
    + apply IH in Hrun as [Hmem Hlen]. split.
      * intros p node. rewrite Hmem, elem_of_app, list_elem_of_singleton. split.
        -- intros [[?|[= -> ->]]|(q' & n' & Hin & Hbelow)].
           ++ by left.
           ++ right. exists q, n. split; [by left|]. by apply leafBelow_leaf.
           ++ right. exists q', n'. split; [by right | done].
        -- intros [?|(q' & n' & [[= -> ->]|Hin]%elem_of_cons & Hbelow)].
           ++ left. by left.
           ++ left. right. apply leafBelow_leaf in Hbelow as [-> ->]; done.
           ++ right. by exists q', n'.
      * rewrite Hlen, length_app. unfold queue_leaves. cbn [fold_right snd length].
        destruct n as [inf avail cs]. cbn in Hleaf. destruct cs; [|done].
        rewrite leafCount_leaf. lia.
    + apply IH in Hrun as [Hmem Hlen]. split.
      * intros p node. rewrite Hmem. split.
        -- intros [?|(q' & n' & [Hin|Hin]%elem_of_app & Hbelow)].
           ++ by left.
           ++ right. exists q', n'. split; [by right | done].
           ++ right. exists q, n. split; [by left|].
              apply leafBelow_node; [done|]. by exists q', n'.
        -- intros [?|(q' & n' & [[= -> ->]|Hin]%elem_of_cons & Hbelow)].
           ++ by left.
           ++ apply leafBelow_node in Hbelow as (q'' & c & Hin & Hbelow); [|done].
              right. exists q'', c. split; [|done]. apply elem_of_app. by right.
           ++ right. exists q', n'. split; [|done]. apply elem_of_app. by left.
      * rewrite Hlen, queue_leaves_app, queue_leaves_childPtrs by done.
        unfold queue_leaves. cbn [fold_right snd]. lia.
Qed.

(** X16.  [GetLeafs] returns exactly the leaves of the tree, each with its
    position: a node is listed at a position when it is the node of the
    tree at that position and it has no children; the list is as long as
    the tree has leaves. *)
Theorem GetLeafs_lists_the_leaves (t : TopologyNode) :
  (forall p node,
      (p, node) ∈ GetLeafs t <-> nodeAt p t = Some node /\ IsLeaf node = true)
  /\ Z.of_nat (length (GetLeafs t)) = leafCount t.
Proof.
  destruct (GetLeafs_loop_returns (tree_size t) [([], t)] []) as [leafs Hleafs].
  { unfold queue_size. simpl. lia. }
  unfold GetLeafs. rewrite Hleafs. change (default [] (Some leafs)) with leafs.
  apply GetLeafs_loop_leaves in Hleafs as [Hmem Hlen]. split.
  - intros p node. rewrite Hmem. split.
    + intros [Hin|(q & n & Hin & p' & -> & Hat & Hleaf)]; [by apply elem_of_nil in Hin|].
      apply list_elem_of_singleton in Hin as [= -> ->]. done.
    + intros [Hat Hleaf]. right. exists [], t. split; [by left|]. by exists p.
  - rewrite Hlen. unfold queue_leaves. cbn. lia.
Qed.

(** ** The allocator of the namespaces (daemon_numa_namespace_allocator.go) *)

Lemma mul64_exact (a b : Z) : MinInt64 <= a * b <= MaxInt64 -> mul64 a b = a * b.
Proof. apply wrap64_id. Qed.

Lemma take_drop_concat {A : Type} (l : list A) (size : nat) (k : nat) :
  concat (map (fun b => take size (drop (size * b) l)) (seq 0 k)) = take (size * k) l.
Proof.
  induction k as [|k IH].
  - rewrite Nat.mul_0_r. by rewrite take_0.
  - rewrite seq_S, map_app, concat_app, IH. cbn [map concat Nat.add].
    rewrite app_nil_r.
    replace (size * S k)%nat with (size * k + size)%nat by lia.
    by rewrite take_take_drop.
Qed.

(** X17.  The buckets of [getBucket] cut the leaves of the topology in
    [NumBuckets] runs: for [NumBuckets >= 1] (an [int]), the bucket of every number
    from 0 to [NumBuckets - 1] is returned without error, each bucket but
    the last holds the leaves divided by [NumBuckets] (rounded down), and
    the buckets, one after the other, are the leaves of [GetLeafs], each
    once. *)
Theorem getBucket_cuts_the_leaves (d : NumaPerNamespaceAllocator) (s : DaemonState)
        (namespace : string) :
  1 <= NumBuckets d <= MaxInt64 ->
  Z.of_nat (length (GetLeafs (Topology (dsTopology s)))) <= MaxInt64 ->
  let leafs := GetLeafs (Topology (dsTopology s)) in
  let bucket b :=
    getBucket (set_NamespaceToBucket (<[namespace := b]> (NamespaceToBucket d)) d)
              s namespace in
  Forall (fun b => snd (bucket b) = None) (seqZ 0 (NumBuckets d))
  /\ Forall (fun b => Z.of_nat (length (fst (bucket b)))
                      = Z.of_nat (length leafs) / NumBuckets d)
            (seqZ 0 (NumBuckets d - 1))
  /\ concat (map (fun b => fst (bucket b)) (seqZ 0 (NumBuckets d))) = leafs.
Proof.
  intros Hbuckets Hmax. cbn zeta.
  set (leafs := GetLeafs (Topology (dsTopology s))) in *.
  set (N := NumBuckets d) in *.
  set (size := Z.of_nat (length leafs) / N).
  assert (Hmin : MinInt64 = -9223372036854775808) by reflexivity.
  assert (Hmaxv : MaxInt64 = 9223372036854775807) by reflexivity.
  assert (Hsize : 0 <= size /\ size * N <= Z.of_nat (length leafs)).
  { subst size. split; [apply Z.div_pos; lia|].
    rewrite Z.mul_comm. apply Z.mul_div_le. lia. }
  assert (Hbucket : forall b, 0 <= b < N ->
    getBucket (set_NamespaceToBucket (<[namespace := b]> (NamespaceToBucket d)) d)
              s namespace
    = (if decide (b = N - 1) then drop (Z.to_nat (size * b)) leafs
       else take (Z.to_nat size) (drop (Z.to_nat size * Z.to_nat b) leafs), None)).
  { intros b Hb. unfold getBucket.
    cbn [NumBuckets NamespaceToBucket set_NamespaceToBucket]. fold N. fold leafs.
    destruct (Z.eqb_spec N 0) as [|_]; [lia|].
    rewrite lookup_insert_eq.
    rewrite Z.quot_div_nonneg by lia. fold size.
    assert (Hprod : 0 <= size * b /\ size * (b + 1) <= size * N) by nia.
    rewrite (sub64_exact N 1) by lia.
    rewrite (mul64_exact size b) by nia.
    destruct (decide (b = N - 1)) as [->|Hne].
    - destruct (Z.ltb_spec (size * (N - 1)) 0) as [|_]; [lia|].
      destruct (Z.ltb_spec (Z.of_nat (length leafs)) (size * (N - 1))) as [|_]; [nia|].
      done.
    - rewrite (add64_exact b 1) by lia.
      rewrite (mul64_exact size (b + 1)) by nia.
      destruct (Z.ltb_spec (size * b) 0) as [|_]; [lia|].
      destruct (Z.ltb_spec (size * (b + 1)) (size * b)) as [|_]; [nia|].
      destruct (Z.ltb_spec (Z.of_nat (length leafs)) (size * (b + 1))) as [|_]; [nia|].
      cbn [orb]. do 2 f_equal; [|f_equal]; nia. }
  split; [|split].
  - apply Forall_forall. intros b Hb%elem_of_seqZ. by rewrite Hbucket by lia.
  - apply Forall_forall. intros b Hb%elem_of_seqZ. rewrite Hbucket by lia.
    rewrite decide_False by lia. cbn [fst].
    rewrite length_take, length_drop. fold size. nia.
  - replace N with ((N - 1) + 1) at 1 by lia.
    rewrite seqZ_app by lia. rewrite map_app, concat_app.
    rewrite (seqZ_cons (0 + (N - 1)) 1), (seqZ_nil _ (Z.pred 1)) by lia.
    cbn [map concat]. rewrite app_nil_r.
    rewrite Hbucket by lia. rewrite decide_True by lia. cbn [fst].
    assert (Hfront :
      concat (map (fun b =>
                     fst (getBucket
                            (set_NamespaceToBucket (<[namespace := b]> (NamespaceToBucket d)) d)
                            s namespace))
                  (seqZ 0 (N - 1)))
      = take (Z.to_nat size * Z.to_nat (N - 1)) leafs).
    { rewrite <- (take_drop_concat leafs (Z.to_nat size) (Z.to_nat (N - 1))).
      f_equal. unfold seqZ.
      change (map ?f ?l) with (f <$> l). rewrite <- list_fmap_compose.
      apply list_fmap_ext. intros i k Hk. cbn.
      apply lookup_seq in Hk as [-> Hk]. cbn [Nat.add].
      rewrite Hbucket by lia. rewrite decide_False by lia. cbn [fst].
      do 3 f_equal. lia. }
    rewrite Hfront.
    replace (Z.to_nat (0 + (N - 1) * 1)) with (Z.to_nat (N - 1)) by lia.
    replace (Z.to_nat (size * (0 + (N - 1)))) with (Z.to_nat size * Z.to_nat (N - 1))%nat
      by nia.
    apply take_drop.
Qed.

(** The theorem on a machine of 5 cpus cut in 2 buckets: the buckets hold 2
    and 3 cpus. *)
Lemma getBucket_cuts_the_leaves_witness :
  let d := perNamespaceAllocator 2 false in
  let s := testDaemonState 5 in
  let bucket b :=
    getBucket (set_NamespaceToBucket (<["ns" := b]> (NamespaceToBucket d)) d) s "ns" in
  map (fun leaf => nodeValue (snd leaf)) (fst (bucket 0)) = [0; 1]
  /\ map (fun leaf => nodeValue (snd leaf)) (fst (bucket 1)) = [2; 3; 4]
  /\ fst (bucket 0) ++ fst (bucket 1) = GetLeafs (Topology (dsTopology s)).
Proof.
  intros d s bucket.
  split; [vm_compute; reflexivity|]. split; [vm_compute; reflexivity|].
  destruct (getBucket_cuts_the_leaves d s "ns") as (_ & _ & Hconcat).
  - vm_compute. split; discriminate.
  - vm_compute. discriminate.
  - cbn zeta in Hconcat. rewrite <- Hconcat. vm_compute. reflexivity.
Defined.

(** ** The cpus that [Take] and [Return] change *)

Arguments leafStates : simpl never.
Arguments shape : simpl never.

Lemma leafStates_leaf inf avail : leafStates (TNode inf avail []) = [(Value inf, avail)].
Proof. reflexivity. Qed.

Lemma leafStates_node inf avail cs :
  cs <> [] -> leafStates (TNode inf avail cs) = concat (map leafStates cs).
Proof. by destruct cs. Qed.

Lemma shape_unfold inf avail cs : shape (TNode inf avail cs) = TNode inf 0 (map shape cs).
Proof. reflexivity. Qed.

Lemma availableCount_nil : availableCount [] = 0%nat.
Proof. reflexivity. Qed.

Lemma availableCount_cons v a l :
  availableCount ((v, a) :: l)
  = ((if (a =? 0)%Z then 0 else 1) + availableCount l)%nat.
Proof. unfold availableCount. cbn. by destruct (a =? 0). Qed.

Lemma availableCount_app l1 l2 :
  availableCount (l1 ++ l2) = (availableCount l1 + availableCount l2)%nat.
Proof. unfold availableCount. by rewrite List.filter_app, length_app. Qed.

(** The counter of a node counts the available leaves below it. *)
Lemma CountersOK_availableCount (t : TopologyNode) :
  CountersOK t ->
  NumAvailable t = Z.of_nat (availableCount (leafStates t))
  /\ Forall (fun state => snd state = 0 \/ snd state = 1) (leafStates t).
Proof.
  induction t as [inf avail cs IH] using TopologyNode_Forall_ind. intros Hok.
  destruct cs as [|c cs].
  - inversion Hok as [? ? Havail|]; subst. rewrite leafStates_leaf. cbn [NumAvailable].
    rewrite availableCount_cons, availableCount_nil.
    split; [destruct Havail as [->| ->]; reflexivity|]. by constructor.
  - apply CountersOK_children in Hok as [Hcs ->]; [|done].
    rewrite leafStates_node by done. cbn [NumAvailable].
    revert IH Hcs. generalize (c :: cs) as l. clear. intros l IH Hcs.
    induction l as [|x l IHl]; [done|].
    apply Forall_cons in IH as [IHx IH]. apply Forall_cons in Hcs as [Hx Hcs].
    destruct (IHx Hx) as [Hcount Hall]. destruct (IHl IH Hcs) as [Hcount' Hall'].
    cbn [map concat]. rewrite sumAvailable_cons, availableCount_app, Forall_app. split; [lia|done].
Qed.

Lemma takeStates_0 l : takeStates 0 l = (l, []).
Proof. by destruct l as [|[v a] l]. Qed.

Lemma takeStates_cons n v a rest :
  takeStates n ((v, a) :: rest)
  = match n with
    | O => ((v, a) :: rest, [])
    | S n' =>
        if a =? 0
        then ((v, a) :: fst (takeStates n rest), snd (takeStates n rest))
        else ((v, 0) :: fst (takeStates n' rest), v :: snd (takeStates n' rest))
    end.
Proof.
  cbn [takeStates]. destruct n as [|n']; [done|].
  destruct (a =? 0); [by destruct (takeStates (S n') rest) | by destruct (takeStates n' rest)].
Qed.

Lemma takeStates_app (l1 : list (Z * Z)) :
  forall k l2,
    takeStates k (l1 ++ l2)
    = (fst (takeStates k l1) ++ fst (takeStates (k - availableCount l1) l2),
       snd (takeStates k l1) ++ snd (takeStates (k - availableCount l1) l2)).
Proof.
  induction l1 as [|[v a] l1 IH]; intros k l2.
  - cbn [app]. rewrite availableCount_nil, Nat.sub_0_r.
    by destruct (takeStates k l2).
  - rewrite <- app_comm_cons, !takeStates_cons, availableCount_cons.
    destruct k as [|k].
    + cbn [fst snd Nat.sub]. by rewrite takeStates_0.
    + destruct (a =? 0).
      * rewrite IH. cbn [fst snd Nat.add]. done.
      * rewrite IH. cbn [fst snd]. replace (S k - (1 + availableCount l1))%nat
          with (k - availableCount l1)%nat by lia. done.
Qed.

Lemma takeStates_all (l : list (Z * Z)) :
  forall k, (availableCount l <= k)%nat -> takeStates k l = takeStates (availableCount l) l.
Proof.
  induction l as [|[v a] l IH]; intros k Hk; [done|].
  rewrite availableCount_cons in *. rewrite !takeStates_cons.
  destruct (a =? 0) eqn:Ha; cbn [Nat.add] in *.
  - destruct k as [|k].
    + assert (availableCount l = 0)%nat as -> by lia. done.
    + rewrite (IH (S k)) by lia. destruct (availableCount l) as [|m] eqn:Hm.
      * by rewrite takeStates_0.
      * done.
  - destruct k as [|k]; [lia|]. rewrite (IH k) by lia. done.
Qed.

Lemma takeStates_length (l : list (Z * Z)) :
  forall k, length (snd (takeStates k l)) = Nat.min k (availableCount l)
            /\ length (fst (takeStates k l)) = length l.
Proof.
  induction l as [|[v a] l IH]; intros k.
  - cbn. by rewrite Nat.min_0_r.
  - rewrite takeStates_cons, availableCount_cons. destruct k as [|k]; [done|].
    destruct (a =? 0); cbn [fst snd length Nat.add].
    + destruct (IH (S k)) as [-> ->]. done.
    + destruct (IH k) as [-> ->]. done.
Qed.

Lemma takeStates_none (l : list (Z * Z)) (k : nat) :
  availableCount l = 0%nat -> takeStates k l = (l, []).
Proof.
  intros Hnone. rewrite takeStates_all by lia. rewrite Hnone. apply takeStates_0.
Qed.

(** The loop of [takeLeaves] takes the first available leaves below the
    children, from left to right. *)
Lemma takeLeaves_children_states (n : Z) (cs : list TopologyNode) :
  Forall (fun c =>
            forall m, 1 <= m <= NumAvailable c ->
                      exists c' taken,
                        takeLeaves c m = (c', taken, None)
                        /\ leafStates c' = fst (takeStates (Z.to_nat m) (leafStates c))
                        /\ map nodeValue taken
                           = snd (takeStates (Z.to_nat m) (leafStates c))
                        /\ shape c' = shape c) cs ->
  Forall CountersOK cs ->
  n <= MaxInt64 ->
  forall leaves,
    Z.of_nat (length leaves) < n ->
    n - Z.of_nat (length leaves) <= sumAvailable cs ->
    exists cs' leaves',
      takeLeaves_children takeLeaves n cs leaves = (cs', leaves', None)
      /\ concat (map leafStates cs')
         = fst (takeStates (Z.to_nat (n - Z.of_nat (length leaves)))
                           (concat (map leafStates cs)))
      /\ map nodeValue leaves'
         = map nodeValue leaves
           ++ snd (takeStates (Z.to_nat (n - Z.of_nat (length leaves)))
                              (concat (map leafStates cs)))
      /\ map shape cs' = map shape cs.
Proof.
  intros Htake Hok Hn.
  induction cs as [|c rest IH]; intros leaves Hlen Hsum.
  - unfold sumAvailable in Hsum. simpl in Hsum. lia.
  - apply Forall_cons in Htake as [Htakec Htake].
    apply Forall_cons in Hok as [Hc Hrest].
    specialize (IH Htake Hrest).
    rewrite takeLeaves_children_cons. rewrite sumAvailable_cons in Hsum.
    destruct (CountersOK_availableCount c Hc) as [Hcount _].
    cbn [map concat]. rewrite takeStates_app.
    destruct (Z.eqb_spec (NumAvailable c) 0) as [Hzero|Hnonzero].
    + destruct (IH leaves Hlen ltac:(lia)) as (rest' & leaves' & -> & Hstates & Hvalues & Hshape).
      exists (c :: rest'), leaves'. split; [done|].
      assert (Hnone : availableCount (leafStates c) = 0%nat) by lia.
      rewrite (takeStates_none _ _ Hnone), Hnone, Nat.sub_0_r. cbn [fst snd app map concat].
      rewrite Hstates, Hvalues, Hshape. done.
    + cbv zeta.
      assert (Hmin : MinInt64 = -9223372036854775808) by reflexivity.
      assert (Hmax : MaxInt64 = 9223372036854775807) by reflexivity.
      pose proof (CountersOK_bounds c Hc) as Hbounds.
      rewrite (sub64_exact n) by lia.
      set (remaining := n - Z.of_nat (length leaves)) in *.
      set (leavesToTake := if NumAvailable c <? remaining then NumAvailable c else remaining).
      assert (Hltt : 1 <= leavesToTake <= NumAvailable c
                     /\ leavesToTake <= remaining
                     /\ (leavesToTake < remaining -> leavesToTake = NumAvailable c)).
      { subst leavesToTake. destruct (Z.ltb_spec (NumAvailable c) remaining); lia. }
      destruct Hltt as (Hltt1 & Hltt2 & Hltt3).
      destruct (Htakec leavesToTake Hltt1) as (c' & taken & -> & Hstates & Hvalues & Hshape).
      assert (Htaken : Z.of_nat (length taken) = leavesToTake).
      { rewrite <- (length_map nodeValue taken), Hvalues.
        destruct (takeStates_length (leafStates c) (Z.to_nat leavesToTake)) as [-> _]. lia. }
      assert (Hsame : takeStates (Z.to_nat remaining) (leafStates c)
                      = takeStates (Z.to_nat leavesToTake) (leafStates c)).
      { destruct (Z.eq_dec leavesToTake remaining) as [->|Hne]; [done|].
        rewrite Hltt3 by lia. rewrite Hcount, Nat2Z.id. apply takeStates_all. lia. }
      rewrite Hsame, <- Hstates, <- Hvalues.
      rewrite length_app, Nat2Z.inj_add.
      destruct (Z.eqb_spec (Z.of_nat (length leaves) + Z.of_nat (length taken)) n)
        as [Hdone|Hmore].
      * exists (c' :: rest), (leaves ++ taken). split; [done|].
        replace (Z.to_nat remaining - availableCount (leafStates c))%nat with 0%nat by lia.
        rewrite takeStates_0. cbn [fst snd map concat]. rewrite map_app, app_nil_r, Hshape.
        done.
      * destruct (IH (leaves ++ taken))
          as (rest' & leaves' & -> & Hstates' & Hvalues' & Hshape').
        -- rewrite length_app, Nat2Z.inj_add. lia.
        -- rewrite length_app, Nat2Z.inj_add. lia.
        -- rewrite length_app, Nat2Z.inj_add in Hstates', Hvalues'.
           exists (c' :: rest'), leaves'. split; [done|].
           replace (Z.to_nat remaining - availableCount (leafStates c))%nat
             with (Z.to_nat (n - (Z.of_nat (length leaves) + Z.of_nat (length taken))))
             by lia.
           cbn [map concat fst snd].
           rewrite Hstates', Hvalues', Hshape, Hshape', map_app, <- app_assoc. done.
Qed.

(** [takeLeaves n] takes the first [n] available leaves below the node,
    from left to right. *)
Lemma takeLeaves_states (t : TopologyNode) :
  leafCount t <= MaxInt64 ->
  CountersOK t ->
  forall n, 1 <= n <= NumAvailable t ->
            exists t' leaves,
              takeLeaves t n = (t', leaves, None)
              /\ leafStates t' = fst (takeStates (Z.to_nat n) (leafStates t))
              /\ map nodeValue leaves = snd (takeStates (Z.to_nat n) (leafStates t))
              /\ shape t' = shape t.
Proof.
  induction t as [inf avail cs IH] using TopologyNode_Forall_ind.
  intros Hleaves Hok n Hn. cbn [NumAvailable] in Hn.
  rewrite takeLeaves_unfold. cbn [NumAvailable Children info].
  destruct (Z.ltb_spec avail n) as [|_]; [lia|].
  destruct cs as [|c cs].
  - inversion Hok; subst.
    exists (TNode inf 0 []), [TNode inf 0 []]. split; [done|].
    rewrite !leafStates_leaf, takeStates_cons.
    assert (avail = 1) as -> by lia. assert (n = 1) as -> by lia. done.
  - apply CountersOK_children in Hok as [Hcs ->]; [|done].
    rewrite leafCount_node in Hleaves.
    assert (Hb : 0 <= sumAvailable (c :: cs) <= sumLeaves (c :: cs)).
    { apply sums_bounded. eapply Forall_impl; [exact Hcs|]. apply CountersOK_bounds. }
    destruct (Z.ltb_spec n 0) as [|_]; [lia|].
    destruct (takeLeaves_children_states n (c :: cs)) with (leaves := @nil TopologyNode)
      as (cs' & leaves' & -> & Hstates & Hvalues & Hshape); try done.
    + rewrite Forall_forall in IH, Hcs. apply Forall_forall. intros x Hx m Hm.
      apply IH; [done | | by apply Hcs | done].
      apply list_elem_of_lookup in Hx as [i Hi].
      pose proof (sumLeaves_lookup _ _ _ Hi). lia.
    + lia.
    + simpl. lia.
    + simpl. lia.
    + cbn [length] in Hstates, Hvalues. rewrite Z.sub_0_r in Hstates, Hvalues.
      eexists _, _. split; [reflexivity|].
      assert (Hne : cs' <> []).
      { intros ->. by apply (f_equal length) in Hshape. }
      rewrite (leafStates_node _ _ cs') by done. rewrite (leafStates_node _ _ (c :: cs)) by done.
      rewrite !shape_unfold, Hshape. done.
Qed.

Lemma concat_map_insert {A B : Type} (f : A -> list B) (l : list A) (i : nat) (x y : A) :
  l !! i = Some x ->
  concat (map f l) = concat (map f (take i l)) ++ f x ++ concat (map f (drop (S i) l))
  /\ concat (map f (<[i := y]> l))
     = concat (map f (take i l)) ++ f y ++ concat (map f (drop (S i) l)).
Proof.
  intros Hi. split.
  - rewrite <- (take_drop_middle l i x Hi) at 1.
    by rewrite map_app, concat_app.
  - rewrite insert_take_drop by (by eapply lookup_lt_Some).
    by rewrite map_app, concat_app.
Qed.

Lemma insert_nonempty {A : Type} (l : list A) (i : nat) (x y : A) :
  l !! i = Some x -> <[i := y]> l <> [].
Proof.
  intros Hi Heq. apply (f_equal length) in Heq. rewrite length_insert in Heq.
  apply lookup_lt_Some in Hi. simpl in Heq. lia.
Qed.

Lemma map_shape_insert (l : list TopologyNode) (i : nat) (x y : TopologyNode) :
  l !! i = Some x -> shape y = shape x -> map shape (<[i := y]> l) = map shape l.
Proof.
  intros Hi Hshape. change (map shape ?k) with (shape <$> k).
  rewrite list_fmap_insert, Hshape. apply list_insert_id.
  by rewrite list_lookup_fmap, Hi.
Qed.

(** The update of [Take] replaces the leaves of the node in which the
    leaves are taken, and no other leaf. *)
Lemma subPredecessors_replaceAt_states (p : list nat) :
  forall t l,
    nodeAt p t = Some l ->
    exists pre post,
      leafStates t = pre ++ leafStates l ++ post
      /\ forall l' n,
          leafStates (subPredecessors p n (replaceAt p l' t))
          = pre ++ leafStates l' ++ post
          /\ (shape l' = shape l ->
              shape (subPredecessors p n (replaceAt p l' t)) = shape t).
Proof.
  induction p as [|i p IH]; intros t l Hat.
  - cbn in Hat. injection Hat as <-. exists [], []. rewrite app_nil_r.
    split; [done|]. intros l' n. cbn. by rewrite app_nil_r.
  - destruct t as [inf avail cs]. cbn [nodeAt Children] in Hat.
    destruct (cs !! i) as [c|] eqn:Hi; [|done].
    assert (Hne : cs <> []) by (intros ->; done).
    destruct (IH c l Hat) as (pre & post & Hstates & Hreplace).
    exists (concat (map leafStates (take i cs)) ++ pre),
           (post ++ concat (map leafStates (drop (S i) cs))).
    rewrite (leafStates_node _ _ _ Hne).
    destruct (concat_map_insert leafStates cs i c c Hi) as [-> _]. split.
    { rewrite Hstates, <- !app_assoc. done. }
    intros l' n. cbn [replaceAt subPredecessors Children info NumAvailable]. rewrite Hi.
    cbn [Children info NumAvailable].
    rewrite list_lookup_insert_eq by (by eapply lookup_lt_Some).
    rewrite list_insert_insert_eq.
    destruct (Hreplace l' n) as [Hstates' Hshape'].
    rewrite leafStates_node by (by eapply insert_nonempty).
    destruct (concat_map_insert leafStates cs i c
                (subPredecessors p n (replaceAt p l' c)) Hi) as [_ ->].
    rewrite Hstates', <- !app_assoc. split; [done|].
    intros Hshape. rewrite !shape_unfold. f_equal.
    apply (map_shape_insert _ _ c); [done|]. by apply Hshape'.
Qed.

Lemma markTaken_nil (l : list (Z * Z)) : markTaken [] l = l.
Proof.
  unfold markTaken. rewrite <- (map_id l) at 2. apply map_ext. intros [v a].
  rewrite bool_decide_eq_false_2; [done|]. apply not_elem_of_nil.
Qed.

Lemma markTaken_fresh (cpus : list Z) (l : list (Z * Z)) :
  (forall cpu, cpu ∈ cpus -> cpu ∉ map fst l) -> markTaken cpus l = l.
Proof.
  intros Hfresh. unfold markTaken. rewrite <- (map_id l) at 2. apply map_ext_in.
  intros [v a] Hin. rewrite bool_decide_eq_false_2; [done|].
  intros Hv. apply (Hfresh v Hv). apply list_elem_of_In.
  change v with (fst (v, a)). by apply in_map.
Qed.

Lemma markTaken_cons_fresh (v : Z) (cpus : list Z) (l : list (Z * Z)) :
  v ∉ map fst l -> markTaken (v :: cpus) l = markTaken cpus l.
Proof.
  intros Hfresh. unfold markTaken. apply map_ext_in. intros [v' a] Hin. cbn [fst].
  assert (v' <> v).
  { intros ->. apply Hfresh. apply list_elem_of_In.
    change v with (fst (v, a)). by apply in_map. }
  destruct (decide (v' ∈ cpus)) as [Hcpus|Hcpus].
  - rewrite !bool_decide_eq_true_2; [done | done | by right].
  - rewrite !bool_decide_eq_false_2; [done | done |].
    intros [?|?]%elem_of_cons; done.
Qed.

Lemma markTaken_app (cpus : list Z) (l1 l2 : list (Z * Z)) :
  markTaken cpus (l1 ++ l2) = markTaken cpus l1 ++ markTaken cpus l2.
Proof. unfold markTaken. apply map_app. Qed.

(** The leaves that [takeStates] takes, for leaves of distinct values. *)
Lemma takeStates_markTaken (l : list (Z * Z)) :
  NoDup (map fst l) ->
  forall k,
    fst (takeStates k l) = markTaken (snd (takeStates k l)) l
    /\ NoDup (snd (takeStates k l))
    /\ (forall cpu, cpu ∈ snd (takeStates k l) ->
                    exists a, (cpu, a) ∈ l /\ a <> 0).
Proof.
  induction l as [|[v a] l IH]; intros Hnodup k.
  - cbn. split; [done|]. split; [constructor|]. intros cpu Hin. by apply elem_of_nil in Hin.
  - cbn [map fst] in Hnodup. apply NoDup_cons in Hnodup as [Hfresh Hnodup].
    rewrite takeStates_cons. destruct k as [|k].
    { cbn [fst snd]. rewrite markTaken_nil. split; [done|]. split; [constructor|].
      intros cpu Hin. by apply elem_of_nil in Hin. }
    assert (Hin : forall k0 cpu, cpu ∈ snd (takeStates k0 l) -> cpu ∈ map fst l).
    { intros k0 cpu Hcpu. destruct (IH Hnodup k0) as (_ & _ & Hall).
      destruct (Hall cpu Hcpu) as (a' & Ha' & _).
      apply list_elem_of_In. change cpu with (fst (cpu, a')). apply in_map.
      by apply list_elem_of_In. }
    destruct (Z.eqb_spec a 0) as [->|Ha]; cbn [fst snd].
    + destruct (IH Hnodup (S k)) as (Hmark & Hnd & Hall). split; [|split].
      * unfold markTaken at 1. cbn [map fst]. fold (markTaken (snd (takeStates (S k) l)) l).
        rewrite <- Hmark. by destruct (bool_decide _).
      * done.
      * intros cpu Hcpu. destruct (Hall cpu Hcpu) as (a' & Ha' & Hne).
        exists a'. split; [by right | done].
    + destruct (IH Hnodup k) as (Hmark & Hnd & Hall). split; [|split].
      * unfold markTaken at 1. cbn [map fst].
        rewrite bool_decide_eq_true_2 by (by left).
        fold (markTaken (v :: snd (takeStates k l)) l).
        rewrite markTaken_cons_fresh by done. by rewrite <- Hmark.
      * constructor; [|done]. intros Hv. apply Hfresh. by apply (Hin k).
      * intros cpu [->|Hcpu]%elem_of_cons.
        -- exists a. split; [by left | done].
        -- destruct (Hall cpu Hcpu) as (a' & Ha' & Hne).
           exists a'. split; [by right | done].
Qed.

Lemma NoDup_app_fresh {A : Type} (l1 l2 l3 : list A) (x : A) :
  NoDup (l1 ++ l2 ++ l3) -> x ∈ l2 -> (x ∉ l1) /\ (x ∉ l3).
Proof.
  intros Hnodup Hx. apply NoDup_app in Hnodup as (_ & H1 & Hnodup).
  apply NoDup_app in Hnodup as (_ & H2 & _). split.
  - intros Hin. apply (H1 x Hin). apply elem_of_app. by left.
  - by apply H2.
Qed.

(** [Take n], for [n >= 1], on a topology whose counters are right and whose
    leaves have distinct values. *)
Lemma Take_states (t : NumaTopology) (n : Z) :
  CountersOK (Topology t) ->
  leafCount (Topology t) <= MaxInt64 ->
  NoDup (map fst (leafStates (Topology t))) ->
  1 <= n <= NumAvailable (Topology t) ->
  exists t' cpuIDs,
    Take t n = (t', cpuIDs, None)
    /\ Z.of_nat (length cpuIDs) = n
    /\ NoDup cpuIDs
    /\ Forall (fun cpu => (cpu, 1) ∈ leafStates (Topology t)) cpuIDs
    /\ leafStates (Topology t') = markTaken cpuIDs (leafStates (Topology t))
    /\ shape (Topology t') = shape (Topology t)
    /\ CountersOK (Topology t')
    /\ leafCount (Topology t') = leafCount (Topology t)
    /\ CpuInformation t' = CpuInformation t.
Proof.
  intros Hok Hleaves Hnodup Hn.
  destruct (Take_succeeds_available_helper t n Hok Hleaves ltac:(lia)) as [_ Htake].
  destruct (Htake ltac:(lia)) as (t' & cpuIDs & Heq & Hlength & _ & Hok' & Hleaves' & Hinfo).
  exists t', cpuIDs. split; [done|]. split; [done|].
  unfold Take in Heq.
  destruct (findLowestNodeWithEnoughAvailability (Topology t) n 0)
    as [[[p l] levelNum]|] eqn:Hfind; [|done].
  destruct (findLowest_sound _ _ _ _ _ _ Hfind) as [Hat Hle].
  destruct (CountersOK_nodeAt p _ l Hok Hat) as (Hl & _ & Hleavesl).
  destruct (takeLeaves_states l ltac:(lia) Hl n ltac:(lia))
    as (l' & leaves & Htaken & Hstates & Hvalues & Hshape).
  rewrite Htaken in Heq.
  destruct (Z.ltb_spec n 0) as [|_]; [lia|].
  injection Heq as <- <-. cbn [Topology].
  destruct (subPredecessors_replaceAt_states p _ l Hat) as (pre & post & Hall & Hreplace).
  destruct (Hreplace l' n) as [Hstates' Hshape'].
  rewrite Hstates', Hall in *. rewrite !map_app in Hnodup.
  assert (Hseg : NoDup (map fst (leafStates l))).
  { apply NoDup_app in Hnodup as (_ & _ & Hnodup). by apply NoDup_app in Hnodup as (? & _). }
  destruct (takeStates_markTaken (leafStates l) Hseg (Z.to_nat n)) as (Hmark & Hnd & Hin).
  rewrite <- Hvalues in Hmark, Hnd, Hin.
  assert (Hvaluesin : forall cpu, cpu ∈ map nodeValue leaves -> cpu ∈ map fst (leafStates l)).
  { intros cpu Hcpu. destruct (Hin cpu Hcpu) as (a & Ha & _).
    apply list_elem_of_In. change cpu with (fst (cpu, a)). apply in_map.
    by apply list_elem_of_In. }
  split; [done|]. split; [|split; [|split]].
  - apply Forall_forall. intros cpu Hcpu. destruct (Hin cpu Hcpu) as (a & Ha & Hne).
    destruct (CountersOK_availableCount l Hl) as [_ Hbits].
    rewrite Forall_forall in Hbits. destruct (Hbits _ Ha) as [?|Hone]; [done|].
    cbn in Hone. subst a. apply elem_of_app. right. apply elem_of_app. by left.
  - rewrite !markTaken_app, Hstates, Hmark.
    rewrite (markTaken_fresh _ pre), (markTaken_fresh _ post); [done| |].
    + intros cpu Hcpu. by apply (NoDup_app_fresh _ _ _ cpu Hnodup), Hvaluesin.
    + intros cpu Hcpu. by apply (NoDup_app_fresh _ _ _ cpu Hnodup), Hvaluesin.
  - by apply Hshape'.
  - done.
Qed.

Lemma find_children_None rec cs k :
  find_children rec cs k = None <-> Forall (fun c => rec c = None) cs.
Proof.
  revert k. induction cs as [|c cs IH]; intros k; simpl.
  - split; [constructor | done].
  - destruct (rec c) as [[p node]|] eqn:Hc.
    + split; [done|]. intros [Hnone _]%Forall_cons. congruence.
    + rewrite IH, Forall_cons. tauto.
Qed.

Lemma elem_of_concat_map {A B : Type} (f : A -> list B) (l : list A) (y : B) :
  y ∈ concat (map f l) <-> exists x, x ∈ l /\ y ∈ f x.
Proof.
  rewrite list_elem_of_In, in_concat. split.
  - intros (k & Hk & Hy). apply in_map_iff in Hk as (x & <- & Hx).
    exists x. by rewrite !list_elem_of_In.
  - intros (x & Hx & Hy). exists (f x). rewrite !list_elem_of_In in *.
    split; [by apply in_map | done].
Qed.

(** [find] of a cpu fails exactly when no leaf has the value. *)
Lemma find_isCpu_None (cpuID : Z) (t : TopologyNode) :
  find (isCpu cpuID) t = None <-> cpuID ∉ map fst (leafStates t).
Proof.
  induction t as [inf avail cs IH] using TopologyNode_Forall_ind.
  rewrite find_unfold. cbn [Children]. destruct cs as [|c cs].
  - rewrite leafStates_leaf. unfold isCpu, IsLeaf, nodeValue. cbn.
    destruct (Z.eqb_spec (Value inf) cpuID) as [->|Hne].
    + split; [done|]. intros Hnot. exfalso. apply Hnot. by left.
    + split; [|done]. intros _ Hin. apply list_elem_of_singleton in Hin. done.
  - assert (Hcmp : isCpu cpuID (TNode inf avail (c :: cs)) = false) by reflexivity.
    rewrite Hcmp, find_children_None, leafStates_node by done.
    rewrite Forall_forall in IH. rewrite Forall_forall. split.
    + intros Hall Hin. apply list_elem_of_In, in_map_iff in Hin as ([v a] & <- & Hin).
      apply list_elem_of_In, elem_of_concat_map in Hin as (x & Hx & Hin).
      apply (proj1 (IH x Hx) (Hall x Hx)). apply list_elem_of_In.
      change v with (fst (v, a)). apply in_map. by apply list_elem_of_In.
    + intros Hnot x Hx. apply IH; [done|]. intros Hin. apply Hnot.
      apply list_elem_of_In, in_map_iff in Hin as ([v a] & <- & Hin).
      apply list_elem_of_In. apply in_map. apply list_elem_of_In, elem_of_concat_map.
      exists x. split; [done|]. by apply list_elem_of_In.
Qed.

(** A leaf of the tree is among the leaves from left to right. *)
Lemma nodeAt_leaf_state (p : list nat) :
  forall t leaf,
    nodeAt p t = Some leaf -> IsLeaf leaf = true ->
    (nodeValue leaf, NumAvailable leaf) ∈ leafStates t.
Proof.
  induction p as [|i p IH]; intros t leaf Hat Hleaf.
  - cbn in Hat. injection Hat as ->. destruct leaf as [inf avail cs].
    cbn in Hleaf. destruct cs; [|done]. rewrite leafStates_leaf. by left.
  - destruct t as [inf avail cs]. cbn [nodeAt Children] in Hat.
    destruct (cs !! i) as [c|] eqn:Hi; [|done].
    rewrite leafStates_node by (intros ->; done).
    apply elem_of_concat_map. exists c. split; [by eapply list_elem_of_lookup_2|].
    by apply IH.
Qed.

Lemma setCounter_fresh (cpu : Z) (f : Z -> Z) (l : list (Z * Z)) :
  cpu ∉ map fst l -> setCounter cpu f l = l.
Proof.
  intros Hfresh. unfold setCounter. rewrite <- (map_id l) at 2. apply map_ext_in.
  intros [v a] Hin. rewrite bool_decide_eq_false_2; [done|]. cbn. intros ->.
  apply Hfresh. apply list_elem_of_In. change cpu with (fst (cpu, a)). by apply in_map.
Qed.

(** [incrPath] to a leaf changes the counter of that leaf, among the
    leaves. *)
Lemma incrPath_states (p : list nat) :
  forall t leaf,
    nodeAt p t = Some leaf -> IsLeaf leaf = true ->
    NoDup (map fst (leafStates t)) ->
    leafStates (incrPath p t)
    = setCounter (nodeValue leaf) (fun a => add64 a 1) (leafStates t)
    /\ shape (incrPath p t) = shape t.
Proof.
  induction p as [|i p IH]; intros t leaf Hat Hleaf Hnodup.
  - cbn in Hat. injection Hat as ->. destruct leaf as [inf avail cs].
    cbn in Hleaf. destruct cs; [|done]. cbn [incrPath info NumAvailable Children].
    rewrite !leafStates_leaf. unfold setCounter, nodeValue. cbn.
    by rewrite bool_decide_eq_true_2.
  - destruct t as [inf avail cs]. cbn [nodeAt Children] in Hat.
    destruct (cs !! i) as [c|] eqn:Hi; [|done].
    assert (Hne : cs <> []) by (intros ->; done).
    cbn [incrPath Children info NumAvailable]. rewrite Hi.
    rewrite leafStates_node by (by eapply insert_nonempty).
    rewrite (leafStates_node _ _ _ Hne) in *.
    destruct (concat_map_insert leafStates cs i c (incrPath p c) Hi) as [Hold ->].
    rewrite Hold in *. rewrite !map_app in Hnodup.
    assert (Hseg : NoDup (map fst (leafStates c))).
    { apply NoDup_app in Hnodup as (_ & _ & Hnodup). by apply NoDup_app in Hnodup as (? & _). }
    destruct (IH c leaf Hat Hleaf Hseg) as [Hstates Hshape].
    assert (Hin : nodeValue leaf ∈ map fst (leafStates c)).
    { apply list_elem_of_In.
      change (nodeValue leaf) with (fst (nodeValue leaf, NumAvailable leaf)).
      apply in_map, list_elem_of_In. by apply (nodeAt_leaf_state p). }
    destruct (NoDup_app_fresh _ _ _ _ Hnodup Hin) as [Hpre Hpost].
    split.
    + unfold setCounter at 1. rewrite !map_app.
      fold (setCounter (nodeValue leaf) (fun a => add64 a 1)
                       (concat (map leafStates (take i cs)))).
      fold (setCounter (nodeValue leaf) (fun a => add64 a 1) (leafStates c)).
      fold (setCounter (nodeValue leaf) (fun a => add64 a 1)
                       (concat (map leafStates (drop (S i) cs)))).
      rewrite (setCounter_fresh _ _ (concat (map leafStates (take i cs)))) by done.
      rewrite (setCounter_fresh _ _ (concat (map leafStates (drop (S i) cs)))) by done.
      by rewrite Hstates.
    + rewrite !shape_unfold. f_equal. by apply (map_shape_insert _ _ c).
Qed.

Lemma NoDup_fst_eq (l : list (Z * Z)) (v a b : Z) :
  NoDup (map fst l) -> (v, a) ∈ l -> (v, b) ∈ l -> a = b.
Proof.
  intros Hnodup Ha Hb.
  apply list_elem_of_lookup in Ha as [i Hi]. apply list_elem_of_lookup in Hb as [j Hj].
  assert (i = j) as ->; [|congruence].
  apply (NoDup_lookup (map fst l) i j v); [done| |].
  - change (map fst l) with (fst <$> l). by rewrite list_lookup_fmap, Hi.
  - change (map fst l) with (fst <$> l). by rewrite list_lookup_fmap, Hj.
Qed.

(** [Return] on a topology whose counters are right and whose leaves have
    distinct values. *)
Lemma Return_states (t : NumaTopology) (cpuID : Z) :
  CountersOK (Topology t) ->
  leafCount (Topology t) <= MaxInt64 ->
  NoDup (map fst (leafStates (Topology t))) ->
  (cpuID ∉ map fst (leafStates (Topology t)) -> Return t cpuID = (t, Some ErrNotFound))
  /\ (cpuID ∈ map fst (leafStates (Topology t)) ->
      exists t',
        Return t cpuID = (t', None)
        /\ leafStates (Topology t') = markReturned cpuID (leafStates (Topology t))
        /\ shape (Topology t') = shape (Topology t)
        /\ CountersOK (Topology t')
        /\ leafCount (Topology t') = leafCount (Topology t)
        /\ CpuInformation t' = CpuInformation t).
Proof.
  intros Hok Hleaves Hnodup. split.
  - intros Hnot. apply find_isCpu_None in Hnot. unfold Return. by rewrite Hnot.
  - intros Hin.
    destruct (Return_keeps_counters t cpuID Hok Hleaves) as [Hok' Hleaves'].
    unfold Return in *.
    destruct (find (isCpu cpuID) (Topology t)) as [[p leaf]|] eqn:Hfind.
    2: { apply find_isCpu_None in Hfind. done. }
    destruct (find_sound _ _ _ _ Hfind) as [Hat Hcmp].
    unfold isCpu in Hcmp. apply andb_true_iff in Hcmp as [Hleaf Hvalue].
    apply Z.eqb_eq in Hvalue.
    pose proof (nodeAt_leaf_state p _ leaf Hat Hleaf) as Hstate. rewrite Hvalue in Hstate.
    destruct (CountersOK_availableCount _ Hok) as [_ Hbits].
    destruct (Z.eqb_spec (NumAvailable leaf) 0) as [Hzero|Hnonzero].
    + eexists. split; [reflexivity|]. cbn [Topology CpuInformation] in *.
      destruct (incrPath_states p _ leaf Hat Hleaf Hnodup) as [Hstates Hshape].
      rewrite Hstates, Hvalue. split; [|done].
      unfold setCounter, markReturned. apply map_ext_in. intros [v b] Hb. cbn [fst snd].
      case_bool_decide as Hv; [|done]. subst v. apply list_elem_of_In in Hb.
      rewrite (NoDup_fst_eq _ _ _ _ Hnodup Hb Hstate), Hzero. done.
    + exists t. split; [done|]. split; [|done].
      unfold markReturned. rewrite <- (map_id (leafStates (Topology t))) at 1.
      apply map_ext_in. intros [v b] Hb. cbn [fst snd].
      case_bool_decide as Hv; [|done]. subst v. apply list_elem_of_In in Hb.
      rewrite (NoDup_fst_eq _ _ _ _ Hnodup Hb Hstate).
      rewrite Forall_forall in Hbits. destruct (Hbits _ Hstate) as [Hz|Ho].
      * done.
      * cbn in Ho. by rewrite Ho.
Qed.

Lemma shape_leafStates_length (t : TopologyNode) :
  forall t', shape t = shape t' -> length (leafStates t) = length (leafStates t').
Proof.
  induction t as [inf avail cs IH] using TopologyNode_Forall_ind.
  intros [inf' avail' cs']. rewrite !shape_unfold. intros [= -> Hcs].
  destruct cs as [|c cs], cs' as [|c' cs']; try done.
  rewrite !leafStates_node by done. rewrite !length_concat. f_equal.
  revert IH Hcs. generalize (c :: cs) as l, (c' :: cs') as l'. clear.
  induction l as [|x l IHl]; intros [|x' l'] IH Hcs; try done.
  apply Forall_cons in IH as [IHx IH]. injection Hcs as Hx Hcs.
  cbn [map]. f_equal; [by apply IHx | by apply IHl].
Qed.

(** A tree whose counters are right is given by its shape and by the
    counters of its leaves. *)
Lemma CountersOK_canonical (t : TopologyNode) :
  forall t',
    CountersOK t -> CountersOK t' -> shape t = shape t' ->
    leafStates t = leafStates t' -> t = t'.
Proof.
  induction t as [inf avail cs IH] using TopologyNode_Forall_ind.
  intros [inf' avail' cs'] Hok Hok'. rewrite !shape_unfold. intros [= -> Hcs] Hstates.
  destruct cs as [|c cs], cs' as [|c' cs']; try done.
  - rewrite !leafStates_leaf in Hstates. by injection Hstates as ->.
  - apply CountersOK_children in Hok as [Hall ->]; [|done].
    apply CountersOK_children in Hok' as [Hall' ->]; [|done].
    rewrite !leafStates_node in Hstates by done.
    assert (Heq : c :: cs = c' :: cs'); [|by rewrite Heq].
    revert IH Hcs Hstates Hall Hall'. generalize (c :: cs) as l, (c' :: cs') as l'. clear.
    induction l as [|x l IHl]; intros [|x' l'] IH Hcs Hstates Hall Hall'; try done.
    apply Forall_cons in IH as [IHx IH]. injection Hcs as Hx Hcs.
    apply Forall_cons in Hall as [Hokx Hall]. apply Forall_cons in Hall' as [Hokx' Hall'].
    cbn [map concat] in Hstates.
    apply app_inj_1 in Hstates as [Hsx Hsl]; [|by apply shape_leafStates_length].
    f_equal; [by apply IHx | by apply IHl].
Qed.

Lemma markTaken_values (cpus : list Z) (l : list (Z * Z)) :
  map fst (markTaken cpus l) = map fst l.
Proof.
  unfold markTaken. rewrite map_map. apply map_ext. intros [v a].
  by destruct (bool_decide _).
Qed.

Lemma markReturned_values (cpu : Z) (l : list (Z * Z)) :
  map fst (markReturned cpu l) = map fst l.
Proof.
  unfold markReturned. rewrite map_map. apply map_ext. intros [v a].
  by destruct (bool_decide _).
Qed.

(** The loop of [freeCpus] over cpus that are leaves of the topology. *)
Lemma returnCpus_states (cpus : list Z) :
  forall t,
    CountersOK (Topology t) ->
    leafCount (Topology t) <= MaxInt64 ->
    NoDup (map fst (leafStates (Topology t))) ->
    Forall (fun cpu => cpu ∈ map fst (leafStates (Topology t))) cpus ->
    exists t',
      returnCpus cpus t = (t', None)
      /\ leafStates (Topology t')
         = fold_left (fun l cpu => markReturned cpu l) cpus (leafStates (Topology t))
      /\ shape (Topology t') = shape (Topology t)
      /\ CountersOK (Topology t')
      /\ CpuInformation t' = CpuInformation t.
Proof.
  induction cpus as [|cpu cpus IH]; intros t Hok Hleaves Hnodup Hin.
  - by exists t.
  - apply Forall_cons in Hin as [Hcpu Hin]. cbn [returnCpus fold_left].
    destruct (Return_states t cpu Hok Hleaves Hnodup) as [_ Hreturn].
    destruct (Hreturn Hcpu) as (t1 & -> & Hstates & Hshape & Hok1 & Hleaves1 & Hinfo).
    destruct (IH t1) as (t' & -> & Hstates' & Hshape' & Hok' & Hinfo'); try done.
    + lia.
    + by rewrite Hstates, markReturned_values.
    + by rewrite Hstates, markReturned_values.
    + exists t'. rewrite Hstates', Hstates, Hshape', Hshape, Hinfo', Hinfo. done.
Qed.

Lemma fold_markReturned (cpus : list Z) :
  forall l,
    fold_left (fun l cpu => markReturned cpu l) cpus l
    = map (fun state => if bool_decide (fst state ∈ cpus) then (fst state, 1) else state) l.
Proof.
  induction cpus as [|cpu cpus IH]; intros l; cbn [fold_left].
  - rewrite <- (map_id l) at 1. apply map_ext. intros [v a].
    rewrite bool_decide_eq_false_2; [done|]. apply not_elem_of_nil.
  - rewrite IH. unfold markReturned. rewrite map_map. apply map_ext. intros [v a].
    cbn [fst]. destruct (decide (v = cpu)) as [->|Hne].
    + rewrite (bool_decide_eq_true_2 (cpu = cpu)) by done. cbn [fst].
      rewrite (bool_decide_eq_true_2 (cpu ∈ cpu :: cpus)) by left.
      by destruct (bool_decide (cpu ∈ cpus)).
    + rewrite (bool_decide_eq_false_2 (v = cpu)) by done. cbn [fst].
      destruct (decide (v ∈ cpus)) as [Hin|Hnot].
      * rewrite (bool_decide_eq_true_2 (v ∈ cpus)) by done.
        by rewrite (bool_decide_eq_true_2 (v ∈ cpu :: cpus)) by (by right).
      * rewrite (bool_decide_eq_false_2 (v ∈ cpus)) by done.
        rewrite (bool_decide_eq_false_2 (v ∈ cpu :: cpus)); [done|].
        by intros [?|?]%elem_of_cons.
Qed.

Lemma markReturned_markTaken (cpus : list Z) (l : list (Z * Z)) :
  NoDup (map fst l) ->
  Forall (fun cpu => (cpu, 1) ∈ l) cpus ->
  fold_left (fun l cpu => markReturned cpu l) cpus (markTaken cpus l) = l.
Proof.
  intros Hnodup Hall. rewrite fold_markReturned. unfold markTaken. rewrite map_map.
  rewrite <- (map_id l) at 2. apply map_ext_in. intros [v a] Hin. cbn [fst].
  destruct (decide (v ∈ cpus)) as [Hcpus|Hcpus].
  - rewrite (bool_decide_eq_true_2 (v ∈ cpus)) by done. cbn [fst].
    rewrite (bool_decide_eq_true_2 (v ∈ cpus)) by done.
    rewrite Forall_forall in Hall. apply list_elem_of_In in Hin.
    by rewrite (NoDup_fst_eq l v a 1 Hnodup Hin (Hall v Hcpus)).
  - rewrite (bool_decide_eq_false_2 (v ∈ cpus)) by done. cbn [fst].
    by rewrite (bool_decide_eq_false_2 (v ∈ cpus)) by done.
Qed.

(** [Take] followed by the return of the cpus taken. *)
Lemma Take_returnCpus (t : NumaTopology) (n : Z) :
  CountersOK (Topology t) ->
  leafCount (Topology t) <= MaxInt64 ->
  NoDup (map fst (leafStates (Topology t))) ->
  1 <= n <= NumAvailable (Topology t) ->
  exists t' cpuIDs,
    Take t n = (t', cpuIDs, None)
    /\ Z.of_nat (length cpuIDs) = n
    /\ returnCpus cpuIDs t' = (t, None).
Proof.
  intros Hok Hleaves Hnodup Hn.
  destruct (Take_states t n Hok Hleaves Hnodup Hn)
    as (t' & cpuIDs & Htake & Hlength & Hnd & Hall & Hstates & Hshape & Hok' & Hleaves'
        & Hinfo).
  exists t', cpuIDs. split; [done|]. split; [done|].
  destruct (returnCpus_states cpuIDs t') as (t'' & -> & Hstates'' & Hshape'' & Hok'' & Hinfo'').
  - done.
  - lia.
  - by rewrite Hstates, markTaken_values.
  - rewrite Hstates, markTaken_values. eapply Forall_impl; [exact Hall|].
    intros cpu Hcpu. apply list_elem_of_In. change cpu with (fst (cpu, 1)).
    apply in_map. by apply list_elem_of_In.
  - rewrite Hstates, markReturned_markTaken in Hstates'' by done.
    assert (Topology t'' = Topology t) as Hroot.
    { apply CountersOK_canonical; [done | done | congruence | done]. }
    destruct t'' as [root'' info''], t as [root info]. cbn in *. by subst.
Qed.

(** X18.  On a topology whose counters are right and whose cpus have
    distinct ids, [Take n], for [n] between 1 and the number of available
    cpus, returns [n] distinct cpus that were available; afterwards these
    cpus are taken and every other cpu is as it was, and the tree has kept
    its shape. *)
Theorem Take_takes_available_cpus (t : NumaTopology) (n : Z) :
  CountersOK (Topology t) ->
  leafCount (Topology t) <= MaxInt64 ->
  NoDup (map fst (leafStates (Topology t))) ->
  1 <= n <= NumAvailable (Topology t) ->
  exists t' cpuIDs,
    Take t n = (t', cpuIDs, None)
    /\ Z.of_nat (length cpuIDs) = n
    /\ NoDup cpuIDs
    /\ Forall (fun cpu => (cpu, 1) ∈ leafStates (Topology t)) cpuIDs
    /\ leafStates (Topology t') = markTaken cpuIDs (leafStates (Topology t))
    /\ shape (Topology t') = shape (Topology t).
Proof.
  intros Hok Hleaves Hnodup Hn.
  destruct (Take_states t n Hok Hleaves Hnodup Hn)
    as (t' & cpuIDs & Htake & Hlength & Hnd & Hall & Hstates & Hshape & _).
  by exists t', cpuIDs.
Qed.

(** X19.  On a topology whose counters are right and whose cpus have
    distinct ids, [Return] of an id that no cpu has fails with ErrNotFound
    and changes nothing; [Return] of the id of a cpu returns no error,
    after it the cpu is available and every other cpu is as it was, and
    the counters are right. *)
Theorem Return_makes_the_cpu_available (t : NumaTopology) (cpuID : Z) :
  CountersOK (Topology t) ->
  leafCount (Topology t) <= MaxInt64 ->
  NoDup (map fst (leafStates (Topology t))) ->
  (cpuID ∉ map fst (leafStates (Topology t)) -> Return t cpuID = (t, Some ErrNotFound))
  /\ (cpuID ∈ map fst (leafStates (Topology t)) ->
      exists t',
        Return t cpuID = (t', None)
        /\ leafStates (Topology t') = markReturned cpuID (leafStates (Topology t))
        /\ shape (Topology t') = shape (Topology t)
        /\ CountersOK (Topology t')).
Proof.
  intros Hok Hleaves Hnodup.
  destruct (Return_states t cpuID Hok Hleaves Hnodup) as [Hnot Hin].
  split; [done|]. intros Hcpu.
  destruct (Hin Hcpu) as (t' & Hreturn & Hstates & Hshape & Hok' & _).
  by exists t'.
Qed.

(** X20.  On a topology whose counters are right and whose cpus have
    distinct ids, the return of the cpus that [Take n] has taken, one after
    the other as [freeCpus] does, gives back the topology as it was before
    the take. *)
Theorem Take_then_Return_restores (t : NumaTopology) (n : Z) :
  CountersOK (Topology t) ->
  leafCount (Topology t) <= MaxInt64 ->
  NoDup (map fst (leafStates (Topology t))) ->
  1 <= n <= NumAvailable (Topology t) ->
  exists t' cpuIDs,
    Take t n = (t', cpuIDs, None)
    /\ Z.of_nat (length cpuIDs) = n
    /\ returnCpus cpuIDs t' = (t, None).
Proof. apply Take_returnCpus. Qed.

(** The theorem on the test machine, 8 cpus, of which 3 are taken. *)
Lemma Take_takes_available_cpus_witness :
  exists t' cpuIDs,
    Take testTopology 3 = (t', cpuIDs, None)
    /\ Z.of_nat (length cpuIDs) = 3
    /\ NoDup cpuIDs
    /\ leafStates (Topology t') = markTaken cpuIDs (leafStates (Topology testTopology)).
Proof.
  assert (Hok : CountersOK (Topology testTopology))
    by (apply countersOKb_CountersOK; vm_compute; reflexivity).
  assert (Hleaves : leafCount (Topology testTopology) <= MaxInt64)
    by (vm_compute; discriminate).
  assert (Hnodup : NoDup (map fst (leafStates (Topology testTopology))))
    by (apply (bool_decide_unpack _); vm_compute; exact I).
  destruct (Take_takes_available_cpus testTopology 3 Hok Hleaves Hnodup)
    as (t' & cpuIDs & Htake & Hlength & Hnd & _ & Hstates & _).
  - split; [lia | vm_compute; discriminate].
  - by exists t', cpuIDs.
Defined.

(** The theorem on the test machine after 3 cpus have been taken: no cpu
    has the id 100, and the cpu 1 is returned. *)
Lemma Return_makes_the_cpu_available_witness :
  let t := fst (fst (Take testTopology 3)) in
  (1, 0) ∈ leafStates (Topology t)
  /\ Return t 100 = (t, Some ErrNotFound)
  /\ exists t', Return t 1 = (t', None)
                /\ leafStates (Topology t') = markReturned 1 (leafStates (Topology t)).
Proof.
  intros t.
  assert (Hok : CountersOK (Topology t))
    by (apply countersOKb_CountersOK; vm_compute; reflexivity).
  assert (Hleaves : leafCount (Topology t) <= MaxInt64)
    by (vm_compute; discriminate).
  assert (Hnodup : NoDup (map fst (leafStates (Topology t))))
    by (apply (bool_decide_unpack _); vm_compute; exact I).
  destruct (Return_makes_the_cpu_available t 100 Hok Hleaves Hnodup) as [Hnot _].
  destruct (Return_makes_the_cpu_available t 1 Hok Hleaves Hnodup) as [_ Hin].
  split; [apply (bool_decide_unpack _); vm_compute; exact I|].
  split.
  - apply Hnot. apply (bool_decide_unpack _). vm_compute. exact I.
  - destruct Hin as (t' & Hreturn & Hstates & _).
    + apply (bool_decide_unpack _). vm_compute. exact I.
    + by exists t'.
Defined.

(** The theorem on the test machine: 3 cpus are taken and returned. *)
Lemma Take_then_Return_restores_witness :
  exists t' cpuIDs,
    Take testTopology 3 = (t', cpuIDs, None)
    /\ returnCpus cpuIDs t' = (testTopology, None).
Proof.
  assert (Hok : CountersOK (Topology testTopology))
    by (apply countersOKb_CountersOK; vm_compute; reflexivity).
  assert (Hleaves : leafCount (Topology testTopology) <= MaxInt64)
    by (vm_compute; discriminate).
  assert (Hnodup : NoDup (map fst (leafStates (Topology testTopology))))
    by (apply (bool_decide_unpack _); vm_compute; exact I).
  destruct (Take_then_Return_restores testTopology 3 Hok Hleaves Hnodup)
    as (t' & cpuIDs & Htake & _ & Hreturn).
  - split; [lia | vm_compute; discriminate].
  - by exists t', cpuIDs.
Defined.

Lemma bucketCpus_singletonBuckets (cpuIds : list Z) :
  concat (map bucketCpus (singletonBuckets cpuIds)) = cpuIds.
Proof.
  unfold singletonBuckets. induction cpuIds as [|cpu rest IH]; [done|].
  cbn [map concat]. rewrite IH. unfold bucketCpus. cbn [StartCPU EndCPU].
  replace (cpu - cpu + 1) with 1 by lia. done.
Qed.

(** X21.  [freeCpus] of the topology-aware allocator undoes the [takeCpus]
    before it: for a Guaranteed container that holds no cpus and asks for
    between one cpu and the number available, on a topology whose counters
    are right and whose cpus have distinct ids below the largest [int],
    [freeCpus] after [takeCpus] returns no error and leaves the state (the
    topology and the allocated map) as it was before the take, whatever the
    controller answered to the take. *)
Theorem Numa_freeCpus_undoes_takeCpus (rangeNodes : gset Z -> list Z)
        (d : NumaAwareAllocator) (c : Container) (s : DaemonState) :
  QS c = Guaranteed ->
  1 <= Cpus c <= NumAvailable (Topology (dsTopology s)) ->
  CountersOK (Topology (dsTopology s)) ->
  leafCount (Topology (dsTopology s)) <= MaxInt64 ->
  NoDup (map fst (leafStates (Topology (dsTopology s)))) ->
  Forall (fun cpu => cpu < MaxInt64) (map fst (leafStates (Topology (dsTopology s)))) ->
  Allocated s !! CID c = None ->
  let taken := Numa_takeCpus rangeNodes d c s in
  Allocated (snd (fst taken)) !! CID c <> None
  /\ Numa_freeCpus (fst (fst taken)) c (snd (fst taken)) = (fst (fst taken), s, None).
Proof.
  intros Hqs Hcpus Hok Hleaves Hnodup _ Hnew.
  destruct (Take_returnCpus (dsTopology s) (Cpus c) Hok Hleaves Hnodup Hcpus)
    as (t' & cpuIDs & Htake & _ & Hreturn).
  unfold Numa_takeCpus. rewrite decide_True by done. rewrite Htake.
  destruct (UpdateCPUSet _ _ _ _ _ _) as [ctrl' err]. cbn [fst snd].
  unfold Numa_freeCpus. rewrite decide_True by done.
  cbn [Allocated set_Allocated set_Topology]. rewrite lookup_insert_eq.
  split; [done|].
  unfold allocatedOf. cbn [Allocated set_Topology]. rewrite Hnew. cbn [default app].
  rewrite bucketCpus_singletonBuckets. cbn [dsTopology set_Allocated set_Topology].
  rewrite Hreturn, delete_insert_id by done. by destruct s.
Qed.

(** The theorem on a machine of 4 cpus: 2 cpus are taken for a container
    and freed. *)
Lemma Numa_freeCpus_undoes_takeCpus_witness :
  let d := mkNumaAwareAllocator okController false in
  let s := testDaemonState 4 in
  let c := guaranteed "cid1" "pod1" 2 in
  let taken := Numa_takeCpus sortedNodes d c s in
  Allocated (snd (fst taken)) !! "cid1" = Some [mkCPUBucket 0 0; mkCPUBucket 1 1]
  /\ Numa_freeCpus (fst (fst taken)) c (snd (fst taken)) = (fst (fst taken), s, None).
Proof.
  intros d s c taken. split; [vm_compute; reflexivity|].
  apply (Numa_freeCpus_undoes_takeCpus sortedNodes d c s).
  - reflexivity.
  - split; [cbn; lia | vm_compute; discriminate].
  - apply countersOKb_CountersOK. vm_compute. reflexivity.
  - vm_compute. discriminate.
  - apply (bool_decide_unpack _). vm_compute. exact I.
  - apply (bool_decide_unpack _). vm_compute. exact I.
  - reflexivity.
Defined.

(** ** The cpus of a fresh topology (numa.go, topology.go) *)

Lemma valuesAt_children (depth : nat) (inf : nodeInfo) (avail : Z) (cs : list TopologyNode) :
  valuesAt (S depth) (TNode inf avail cs) = concat (map (valuesAt depth) cs).
Proof. reflexivity. Qed.

Lemma concat_map_insert_Permutation {A B : Type} (f : A -> list B) (l : list A) (i : nat)
      (x y : A) (extra : B) :
  l !! i = Some x ->
  f y ≡ₚ extra :: f x ->
  concat (map f (<[i := y]> l)) ≡ₚ extra :: concat (map f l).
Proof.
  revert i. induction l as [|a l IH]; intros [|i] Hi Hy; try done.
  - cbn in Hi. injection Hi as ->. cbn [map concat]. cbn. by rewrite Hy.
  - cbn in Hi. cbn [map concat]. cbn. rewrite (IH i Hi Hy).
    by rewrite Permutation_middle.
Qed.

(** [append] of a path that ends with a value new to the tree adds the
    value to those at the depth of the path. *)
Lemma append_valuesAt (pre : list nodeInfo) (x : nodeInfo) :
  forall t,
    Value x ∉ valuesAt (S (length pre)) t ->
    valuesAt (S (length pre)) (append (pre ++ [x]) t)
    ≡ₚ Value x :: valuesAt (S (length pre)) t.
Proof.
  induction pre as [|ni pre IH]; intros [inf avail cs] Hfresh.
  - cbn [app append length Children info NumAvailable].
    destruct (list_find _ cs) as [[i child]|] eqn:Hfind.
    + exfalso. apply list_find_Some in Hfind as (Hi & Hvalue & _).
      apply Hfresh. rewrite valuesAt_children.
      apply list_elem_of_In, in_concat. exists [nodeValue child]. split.
      * apply in_map_iff. exists child. split; [done|].
        apply list_elem_of_In. by eapply list_elem_of_lookup_2.
      * rewrite <- Hvalue. by left.
    + rewrite !valuesAt_children, map_app, concat_app. cbn [map concat valuesAt app].
      cbn [append nodeValue info].
      by rewrite <- Permutation_cons_append.
  - rewrite <- app_comm_cons. cbn [append length Children info NumAvailable].
    destruct (list_find _ cs) as [[i child]|] eqn:Hfind.
    + apply list_find_Some in Hfind as (Hi & _ & _).
      rewrite !valuesAt_children.
      apply (concat_map_insert_Permutation _ cs i child); [done|].
      apply IH. intros Hin. apply Hfresh. rewrite valuesAt_children.
      apply list_elem_of_In, in_concat. exists (valuesAt (S (length pre)) child). split.
      * apply in_map. apply list_elem_of_In. by eapply list_elem_of_lookup_2.
      * by apply list_elem_of_In.
    + rewrite !valuesAt_children, map_app, concat_app. cbn [map concat].
      destruct (append_new pre x ni) as (_ & _ & ->). rewrite app_nil_r.
      by rewrite <- Permutation_cons_append.
Qed.

(** The loop of [cpuInfoToTopology]: the values at the depth of the cpus. *)
Lemma cpuInfoToTopology_loop_values (pre : list TopologyEntryType) (cpus : list CpuInfo) :
  forall t,
    NoDup (map ciCpu cpus) ->
    (forall v, v ∈ valuesAt (S (length pre)) t -> v ∉ map ciCpu cpus) ->
    valuesAt (S (length pre))
             (fold_left (fun t cpu => append (cpuInfoToNodeInfoList cpu (pre ++ [Cpu])) t)
                        cpus t)
    ≡ₚ valuesAt (S (length pre)) t ++ map ciCpu cpus.
Proof.
  induction cpus as [|cpu cpus IH]; intros t Hnodup Hfresh.
  - cbn. by rewrite app_nil_r.
  - cbn [map] in Hnodup, Hfresh. apply NoDup_cons in Hnodup as [Hcpu Hnodup].
    cbn [fold_left map]. rewrite cpuInfoToNodeInfoList_app.
    pose proof (append_valuesAt (cpuInfoToNodeInfoList cpu pre) (mkNodeInfo Cpu (ciCpu cpu)) t)
      as Happend.
    rewrite cpuInfoToNodeInfoList_length in Happend. cbn [Value] in Happend.
    assert (Hnew : ciCpu cpu ∉ valuesAt (S (length pre)) t).
    { intros Hin. apply (Hfresh _ Hin). by left. }
    specialize (Happend Hnew).
    rewrite IH; [|done|].
    + rewrite Happend. by rewrite <- Permutation_middle.
    + intros v Hv Hin. rewrite Happend in Hv.
      apply elem_of_cons in Hv as [->|Hv]; [done|].
      apply (Hfresh _ Hv). by right.
Qed.

(** The leaves of a tree that [append] has built are the nodes at its
    depth, all of them available. *)
Lemma Built_leafStates (depth : nat) :
  forall t,
    Built depth t -> 1 <= NumAvailable t ->
    leafStates t = map (fun v => (v, 1)) (valuesAt depth t).
Proof.
  induction depth as [|depth IH]; intros [inf avail cs];
    cbn [Built NumAvailable Children].
  - intros [-> ->] _. by rewrite leafStates_leaf.
  - intros [-> Hall] Havail.
    destruct cs as [|c cs]; [unfold sumAvailable in Havail; cbn in Havail; lia|].
    rewrite leafStates_node by done. rewrite valuesAt_children.
    generalize dependent (c :: cs). clear c cs. intros l Hall _.
    induction Hall as [|x l [Hbuilt Hx] _ IHl]; [done|].
    cbn [map concat]. rewrite map_app, <- IHl. f_equal. by apply IH.
Qed.

Lemma CpuInformation_lookup (cpus : list CpuInfo) :
  forall (m : gmap Z CpuInfo) (cpu : CpuInfo),
    NoDup (map ciCpu cpus) -> cpu ∈ cpus ->
    fold_left (fun m cpuInfo => <[ciCpu cpuInfo := cpuInfo]> m) cpus m !! ciCpu cpu
    = Some cpu.
Proof.
  assert (Hkeep : forall (cpus : list CpuInfo) (m : gmap Z CpuInfo) (k : Z),
             k ∉ map ciCpu cpus ->
             fold_left (fun m cpuInfo => <[ciCpu cpuInfo := cpuInfo]> m) cpus m !! k
             = m !! k).
  { clear. induction cpus as [|c cpus IH]; intros m k Hk; [done|].
    cbn [fold_left]. cbn [map] in Hk. apply not_elem_of_cons in Hk as [Hne Hk].
    rewrite IH by done. by rewrite lookup_insert_ne. }
  induction cpus as [|c cpus IH]; intros m cpu Hnodup Hin.
  - by apply elem_of_nil in Hin.
  - cbn [map] in Hnodup. apply NoDup_cons in Hnodup as [Hc Hnodup]. cbn [fold_left].
    apply elem_of_cons in Hin as [->|Hin].
    + rewrite Hkeep by done. apply lookup_insert_eq.
    + by apply IH.
Qed.

(** X22.  The topology that [LoadFromCpuInfo] builds from two cpus or more
    of distinct ids has one leaf for each cpu, with the id of the cpu as its
    value, and every leaf is available; the root counts the cpus, and the
    cpu information holds each cpu under its id. *)
Theorem LoadFromCpuInfo_leaves_are_the_cpus (cpus : list CpuInfo) :
  NoDup (map ciCpu cpus) ->
  (2 <= length cpus)%nat ->
  Z.of_nat (length cpus) <= MaxInt64 ->
  let t := LoadFromCpuInfo cpus in
  leafStates (Topology t) ≡ₚ map (fun cpu => (ciCpu cpu, 1)) cpus
  /\ NumAvailable (Topology t) = Z.of_nat (length cpus)
  /\ (forall cpu, cpu ∈ cpus -> CpuInformation t !! ciCpu cpu = Some cpu).
Proof.
  intros Hnodup Htwo Hlen. cbn zeta. split; [|split].
  - cbn [LoadFromCpuInfo Topology]. unfold cpuInfoToTopology.
    destruct (getUsedTopoTypes_shape cpus Hnodup) as [[_ Hone]|[pre ->]]; [lia|].
    set (root := TNode (mkNodeInfo Machine 0) 0 []).
    assert (Hfresh : forall v, v ∈ valuesAt (S (length pre)) root -> v ∉ map ciCpu cpus).
    { intros v Hv. by apply elem_of_nil in Hv. }
    destruct (cpuInfoToTopology_loop_Built pre cpus root) as [Hbuilt Havail]; try done.
    rewrite (Built_leafStates _ _ Hbuilt) by (rewrite Havail; cbn [NumAvailable root]; lia).
    rewrite (cpuInfoToTopology_loop_values pre cpus root Hnodup Hfresh).
    cbn [valuesAt root Children map concat app]. by rewrite map_map.
  - cbn [LoadFromCpuInfo Topology]. unfold cpuInfoToTopology.
    destruct (getUsedTopoTypes_shape cpus Hnodup) as [[_ Hone]|[pre ->]]; [lia|].
    destruct (cpuInfoToTopology_loop_Built pre cpus (TNode (mkNodeInfo Machine 0) 0 []))
      as [_ Havail]; try done.
    intros v Hv. by apply elem_of_nil in Hv.
  - intros cpu Hin. cbn [LoadFromCpuInfo CpuInformation].
    by apply CpuInformation_lookup.
Qed.

(** The theorem on the test machine, 8 cpus. *)
Lemma LoadFromCpuInfo_leaves_are_the_cpus_witness :
  leafStates (Topology testTopology) ≡ₚ map (fun cpu => (ciCpu cpu, 1)) testCpus
  /\ NumAvailable (Topology testTopology) = 8.
Proof.
  destruct (LoadFromCpuInfo_leaves_are_the_cpus testCpus) as (Hleaves & Havail & _).
  - apply (bool_decide_unpack _). vm_compute. exact I.
  - cbn. lia.
  - vm_compute. discriminate.
  - split; [exact Hleaves | exact Havail].
Defined.
